(** * Reversi with the "return one piece" rule: the rule engine of
    test.py, test2.py and test3.py, embedded and verified.

    Conventions of the embedding.
    - The strings ["X"], ["O"] and ["."] of the source are the
      constructors [X], [O] (type [player]) and [Dot] (type [cell]).
    - Python integers are [Z]; [len] and [list.count] results are [nat].
    - [self.board] is a list of rows and is indexed the way Python indexes
      lists: a negative index counts from the end, an index out of range
      raises [IndexError].
    - An exception, and a loop that runs out of fuel, are results of the
      error monad [result]. *)

From stdpp Require Import base numbers list option.

Local Open Scope Z_scope.

(** ** Exceptions and the error monad *)

Inductive exn := IndexError | TypeError | OutOfFuel.

Inductive result (A : Type) : Type :=
| Ok (a : A)
| Raise (e : exn).
Arguments Ok {A} a.
Arguments Raise {A} e.

Global Instance result_ret : MRet result := @Ok.
Global Instance result_bind : MBind result := λ A B f m,
  match m with Ok a => f a | Raise e => Raise e end.
Global Instance result_fmap : FMap result := λ A B f m,
  match m with Ok a => Ok (f a) | Raise e => Raise e end.

(** A computation that also records, in order, the board cells it reads. *)
Abbreviation coord := (Z * Z)%type.

Inductive traced (A : Type) : Type :=
| Traced (r : result (A * list coord)).
Arguments Traced {A} r.

Definition run_traced {A} (m : traced A) : result (A * list coord) :=
  match m with Traced r => r end.

Global Instance traced_ret : MRet traced := λ A a, Traced (Ok (a, [])).
Global Instance traced_bind : MBind traced := λ A B f m,
  Traced (match run_traced m with
          | Ok (a, t1) =>
              match run_traced (f a) with
              | Ok (b, t2) => Ok (b, t1 ++ t2)
              | Raise e => Raise e
              end
          | Raise e => Raise e
          end).

Definition lift_read {A} (xy : coord) (r : result A) : traced A :=
  Traced (a ← r; Ok (a, [xy])).

Definition raise_traced {A} (e : exn) : traced A := Traced (Raise e).

(** [for x in l: acc = body(acc, x)] in a monad. *)
Fixpoint for_acc {M : Type → Type} `{!MBind M, !MRet M} {A B : Type}
    (body : B → A → M B) (acc : B) (l : list A) : M B :=
  match l with
  | [] => mret acc
  | a :: l' => acc' ← body acc a; for_acc body acc' l'
  end.

(** [range(n)] *)
Definition range (n : nat) : list Z := Z.of_nat <$> seq 0 n.

(** ** Python list indexing *)

(** The position a Python index [i] denotes in a list of length [n]. *)
Definition py_index (n : nat) (i : Z) : option nat :=
  if bool_decide (0 ≤ i < Z.of_nat n) then Some (Z.to_nat i)
  else if bool_decide (- Z.of_nat n ≤ i < 0) then Some (Z.to_nat (Z.of_nat n + i))
  else None.

(** [l[i]] *)
Definition py_get {A} (l : list A) (i : Z) : result A :=
  match py_index (length l) i with
  | Some k => match l !! k with Some a => Ok a | None => Raise IndexError end
  | None => Raise IndexError
  end.

(** [l[i] = a] *)
Definition py_set {A} (l : list A) (i : Z) (a : A) : result (list A) :=
  match py_index (length l) i with
  | Some k => Ok (<[k:=a]> l)
  | None => Raise IndexError
  end.

(** ** Board, sides, cells *)

Inductive player := X | O.
Inductive cell := Dot | Stone (p : player).
Coercion Stone : player >-> cell.

Global Instance player_eq_dec : EqDecision player.
Proof. solve_decision. Defined.
Global Instance cell_eq_dec : EqDecision cell.
Proof. solve_decision. Defined.

Abbreviation board := (list (list cell)).

Definition BOARD_SIZE : Z := 8.

(** [self.board[x][y]] *)
Definition board_get (b : board) (x y : Z) : result cell :=
  row ← py_get b x; py_get row y.

(** [self.board[x][y] = v]; the rows are distinct list objects. *)
Definition board_set (b : board) (x y : Z) (v : cell) : result board :=
  row ← py_get b x; row' ← py_set row y v; py_set b x row'.

Module ReversiGame.

(** [opponent]: ["O" if player == "X" else "X"] *)
Definition opponent (p : player) : player :=
  if bool_decide (p = X) then O else X.

(** [inside]: [0 <= r < BOARD_SIZE and 0 <= c < BOARD_SIZE] *)
Definition inside (r c : Z) : bool :=
  bool_decide (0 ≤ r < BOARD_SIZE) && bool_decide (0 ≤ c < BOARD_SIZE).

(** [__init__] followed by [init_board]. *)
Definition empty_board : board :=
  replicate (Z.to_nat BOARD_SIZE) (replicate (Z.to_nat BOARD_SIZE) Dot).

Definition init_board (b : board) : result board :=
  b ← board_set b 3 3 X;
  b ← board_set b 4 4 X;
  b ← board_set b 3 4 O;
  board_set b 4 3 O.

Definition directions : list (Z * Z) :=
  [(-1, 0); (1, 0); (0, -1); (0, 1); (-1, -1); (-1, 1); (1, -1); (1, 1)].

(** A read of [self.board[x][y]], recorded. *)
Definition read (b : board) (x y : Z) : traced cell :=
  lift_read (x, y) (board_get b x y).

(** [self.inside(x, y) and self.board[x][y] == v]: the board is read only
    when the bounds check succeeded. *)
Definition inside_and_is (b : board) (x y : Z) (v : cell) : traced bool :=
  if inside x y then w ← read b x y; mret (bool_decide (w = v))
  else mret false.

(** [not self.inside(x, y) or self.board[x][y] != v] *)
Definition outside_or_differs (b : board) (x y : Z) (v : cell) : traced bool :=
  if negb (inside x y) then mret true
  else w ← read b x y; mret (bool_decide (w ≠ v)).

(** The [while] loop of [get_flips]; its state is [(flips, x, y)]. *)
Fixpoint while_opp (fuel : nat) (b : board) (opp : player) (dr dc : Z)
    (flips : list coord) (x y : Z) : traced (list coord * Z * Z) :=
  go ← inside_and_is b x y opp;
  if go : bool then
    match fuel with
    | 0%nat => raise_traced OutOfFuel
    | S fuel' =>
        while_opp fuel' b opp dr dc (flips ++ [(x, y)]) (x + dr) (y + dc)
    end
  else mret (flips, x, y).

(** The body of [for dr, dc in directions]. *)
Definition flips_in_direction (fuel : nat) (b : board) (player_ : player)
    (r c : Z) (flips_total : list coord) (d : Z * Z) : traced (list coord) :=
  let opp := opponent player_ in
  let '(dr, dc) := d in
  let flips : list coord := [] in
  let x := r + dr in
  let y := c + dc in
  skip ← outside_or_differs b x y opp;
  if skip : bool then mret flips_total (* continue *)
  else
    '(flips, x, y) ← while_opp fuel b opp dr dc flips x y;
    closed ← inside_and_is b x y player_;
    if closed && bool_decide (flips ≠ []) then mret (flips_total ++ flips)
    else mret flips_total.

Definition get_flips_traced (fuel : nat) (b : board) (player_ : player)
    (r c : Z) : traced (list coord) :=
  for_acc (flips_in_direction fuel b player_ r c) [] directions.

(** [get_flips]; a run of opponent cells inside the board has at most
    [BOARD_SIZE] cells, which is the fuel of the loop. *)
Definition get_flips (b : board) (player_ : player) (r c : Z)
    : result (list coord) :=
  fst <$> run_traced (get_flips_traced (Z.to_nat BOARD_SIZE) b player_ r c).

(** [get_valid_moves] (test.py spells the two loops out, test2.py and
    test3.py write the same scan as a comprehension; the cell is read
    first and [get_flips] is called only on a ["."] cell). *)
Definition get_valid_moves (b : board) (player_ : player)
    : result (list coord) :=
  for_acc (λ moves r,
    for_acc (λ moves c,
      v ← board_get b r c;
      if bool_decide (v = Dot) then
        flips ← get_flips b player_ r c;
        if bool_decide (flips ≠ []) then mret (moves ++ [(r, c)])
        else mret moves
      else mret moves)
    moves (range (Z.to_nat BOARD_SIZE)))
  [] (range (Z.to_nat BOARD_SIZE)).

(** [row.count(v)] *)
Definition count (v : cell) (row : list cell) : nat :=
  length (filter (λ w, w = v) row).

(** [count_pieces]: [(x_cnt, o_cnt)] *)
Definition count_pieces (b : board) : nat * nat :=
  (sum_list (count X <$> b), sum_list (count O <$> b)).

(** [game_over] *)
Definition game_over (b : board) : result bool :=
  let full := forallb (λ row, forallb (λ w, bool_decide (w ≠ Dot)) row) b in
  if full then mret true
  else
    let '(x_cnt, o_cnt) := count_pieces b in
    if bool_decide (x_cnt = 0%nat) || bool_decide (o_cnt = 0%nat) then mret true
    else
      mx ← get_valid_moves b X;
      if bool_decide (mx = []) then
        mo ← get_valid_moves b O;
        if bool_decide (mo = []) then mret true else mret false
      else mret false.

(** The attributes of a [ReversiGame] object; test3.py has no
    [extensions]. *)
Record ext_budget := Ext { ext_X : Z; ext_O : Z }.

Definition ext_get (e : ext_budget) (p : player) : Z :=
  match p with X => ext_X e | O => ext_O e end.

Definition ext_set (e : ext_budget) (p : player) (v : Z) : ext_budget :=
  match p with X => Ext v (ext_O e) | O => Ext (ext_X e) v end.

Record game := Game {
  board_of : board;
  current_player : player;
  extensions : ext_budget;
}.

Definition set_board (b : board) (g : game) : game :=
  Game b (current_player g) (extensions g).
Definition set_current_player (p : player) (g : game) : game :=
  Game (board_of g) p (extensions g).
Definition set_extensions (e : ext_budget) (g : game) : game :=
  Game (board_of g) (current_player g) e.

(** [ReversiGame()] *)
Definition new_game : result game :=
  b ← init_board empty_board;
  mret (Game b X (Ext 3 3)).

(** [random.choice(seq)]: the element at a position below [len(seq)]
    that the random source [rnd] determines; [IndexError] on an empty
    sequence. *)
Definition random_choice {A} (rnd : nat) (l : list A) : result A :=
  match l !! (rnd `mod` length l)%nat with
  | Some a => Ok a
  | None => Raise IndexError
  end.

(** The placement and the flips, common to the three [make_move]s:
    [self.board[r][c] = player; for fx, fy in flips: ...]. *)
Definition place_and_flip (b : board) (player_ : player) (r c : Z)
    (flips : list coord) : result board :=
  b ← board_set b r c player_;
  for_acc (λ b '(fx, fy), board_set b fx fy player_) b flips.

End ReversiGame.

Export ReversiGame.

(** ** The [ReversiGUI] object

    Only what the rule engine needs of the tkinter layer is kept: the
    handler bound to the canvas, the text of the status and timer labels,
    the move log, the callbacks scheduled with [root.after], and the
    dialogs shown. Drawing ([draw_board], [update_board],
    [highlight_moves]) and the score and extension labels are left out.
    The record holds the attributes of the three files: [vs_ai] exists in
    test3.py only, [pending_return] and [return_origin] in test2.py and
    test3.py, the timer attributes in test.py and test2.py. *)

Inductive log_entry :=
| LogMove (p : player) (row col : Z) (returned : option coord)
| LogPass.

Inductive outcome := XWins | OWins | Draw.
Inductive status_text := StatusPlayer (p : player) | StatusOver.
Inductive handler := HandleClick | HandleReturnClick.
Inductive callback := CbTick | CbAiMove.

Global Instance callback_eq_dec : EqDecision callback.
Proof. solve_decision. Defined.

Record gui := Gui {
  game_of : game;
  vs_ai : bool;
  binding : option handler;
  status : option status_text;
  timer_label : option Z;
  log : list log_entry;
  timer_id : option nat;
  time_left : Z;
  pending_return : option (list coord);
  return_origin : option coord;
  after_queue : list (nat * callback);
  next_after : nat;
  dialogs : list (nat * nat * outcome);
}.

Definition set_game (v : game) (s : gui) : gui :=
  let 'Gui _ b c d e f g h i j k l m := s in Gui v b c d e f g h i j k l m.
Definition set_vs_ai (v : bool) (s : gui) : gui :=
  let 'Gui a _ c d e f g h i j k l m := s in Gui a v c d e f g h i j k l m.
Definition set_binding (v : option handler) (s : gui) : gui :=
  let 'Gui a b _ d e f g h i j k l m := s in Gui a b v d e f g h i j k l m.
Definition set_status (v : option status_text) (s : gui) : gui :=
  let 'Gui a b c _ e f g h i j k l m := s in Gui a b c v e f g h i j k l m.
Definition set_timer_label (v : option Z) (s : gui) : gui :=
  let 'Gui a b c d _ f g h i j k l m := s in Gui a b c d v f g h i j k l m.
Definition set_log (v : list log_entry) (s : gui) : gui :=
  let 'Gui a b c d e _ g h i j k l m := s in Gui a b c d e v g h i j k l m.
Definition set_timer_id (v : option nat) (s : gui) : gui :=
  let 'Gui a b c d e f _ h i j k l m := s in Gui a b c d e f v h i j k l m.
Definition set_time_left (v : Z) (s : gui) : gui :=
  let 'Gui a b c d e f g _ i j k l m := s in Gui a b c d e f g v i j k l m.
Definition set_pending_return (v : option (list coord)) (s : gui) : gui :=
  let 'Gui a b c d e f g h _ j k l m := s in Gui a b c d e f g h v j k l m.
Definition set_return_origin (v : option coord) (s : gui) : gui :=
  let 'Gui a b c d e f g h i _ k l m := s in Gui a b c d e f g h i v k l m.
Definition set_after_queue (v : list (nat * callback)) (s : gui) : gui :=
  let 'Gui a b c d e f g h i j _ l m := s in Gui a b c d e f g h i j v l m.
Definition set_next_after (v : nat) (s : gui) : gui :=
  let 'Gui a b c d e f g h i j k _ m := s in Gui a b c d e f g h i j k v m.
Definition set_dialogs (v : list (nat * nat * outcome)) (s : gui) : gui :=
  let 'Gui a b c d e f g h i j k l _ := s in Gui a b c d e f g h i j k l v.

Definition board_now (s : gui) : board := board_of (game_of s).
Definition player_now (s : gui) : player := current_player (game_of s).

(** [self.game.current_player = p] *)
Definition turn_to (p : player) (s : gui) : gui :=
  set_game (set_current_player p (game_of s)) s.

(** [self.game.extensions[p] -= 1] *)
Definition spend_extension (p : player) (s : gui) : gui :=
  let e := extensions (game_of s) in
  set_game (set_extensions (ext_set e p (ext_get e p - 1)) (game_of s)) s.

(** [self.root.after(ms, cb)]: schedules [cb] and returns its id. *)
Definition after (cb : callback) (s : gui) : nat * gui :=
  let id := next_after s in
  (id, set_next_after (S id) (set_after_queue (after_queue s ++ [(id, cb)]) s)).

(** [self.root.after_cancel(id)] *)
Definition after_cancel (id : nat) (s : gui) : gui :=
  set_after_queue (filter (λ e, e.1 ≠ id) (after_queue s)) s.

(** [log_move] *)
Definition log_move (e : log_entry) (s : gui) : gui :=
  set_log (log s ++ [e]) s.

(** [update_status] (the status label) *)
Definition update_status (s : gui) : gui :=
  set_status (Some (StatusPlayer (player_now s))) s.

(** The end of [finish_game], after the timer is dealt with: the score,
    the dialog, the status text, and the canvas unbound. *)
Definition announce_result (s : gui) : gui :=
  let '(x_cnt, o_cnt) := count_pieces (board_now s) in
  let result :=
    if bool_decide (o_cnt < x_cnt)%nat then XWins
    else if bool_decide (x_cnt < o_cnt)%nat then OWins
    else Draw in
  let s := set_dialogs (dialogs s ++ [(x_cnt, o_cnt, result)]) s in
  let s := set_status (Some StatusOver) s in
  set_binding None s.

(** ** The clock of test.py and test2.py (the same text in both files) *)
Module Clock.

(** [stop_timer] *)
Definition stop_timer (s : gui) : gui :=
  match timer_id s with
  | Some id => set_timer_id None (after_cancel id s)
  | None => s
  end.

(** [finish_game] *)
Definition finish_game (s : gui) : gui :=
  announce_result (stop_timer s).

(** [tick], [handle_timeout], [switch_player] and [start_turn] call each
    other. The three callers of [tick] are written over the [tick] they
    call, and [tick] is closed by fuel below. *)
Section over_tick.
Variable tick : gui → result gui.

(** [start_turn] *)
Definition start_turn_over (s : gui) : result gui :=
  let s := set_time_left 60 s in
  let s := update_status s in
  tick s.

(** [switch_player] *)
Definition switch_player_over (s : gui) : result gui :=
  let s := turn_to (opponent (player_now s)) s in
  moves ← get_valid_moves (board_now s) (player_now s);
  if bool_decide (moves ≠ []) then start_turn_over s
  else (* PASS *)
    let s := log_move LogPass s in
    let s := turn_to (opponent (player_now s)) s in
    moves ← get_valid_moves (board_now s) (player_now s);
    if bool_decide (moves = []) then mret (finish_game s)
    else start_turn_over s.

(** [handle_timeout] *)
Definition handle_timeout_over (s : gui) : result gui :=
  let player_ := player_now s in
  if bool_decide (0 < ext_get (extensions (game_of s)) player_) then
    let s := spend_extension player_ s in
    let s := set_time_left 60 s in
    let s := update_status s in
    tick s
  else
    let s := log_move LogPass s in
    switch_player_over s.
End over_tick.

(** The body of [tick], over the [handle_timeout] it calls. *)
Definition tick_over (handle_timeout : gui → result gui) (s : gui)
    : result gui :=
  let s := set_timer_label (Some (time_left s)) s in
  if bool_decide (time_left s = 0) then handle_timeout s
  else
    let s := set_time_left (time_left s - 1) s in
    let '(id, s) := after CbTick s in
    mret (set_timer_id (Some id) s).

Fixpoint tick_fuel (fuel : nat) (s : gui) : result gui :=
  match fuel with
  | 0%nat => Raise OutOfFuel
  | S fuel' => tick_over (handle_timeout_over (tick_fuel fuel')) s
  end.

(** A [tick] at 0 calls [handle_timeout], whose own [tick] finds the
    countdown at 60: two levels. *)
Definition tick : gui → result gui := tick_fuel 2.
Definition start_turn : gui → result gui := start_turn_over tick.
Definition switch_player : gui → result gui := switch_player_over tick.
Definition handle_timeout : gui → result gui := handle_timeout_over tick.

(** [use_extension] *)
Definition use_extension (s : gui) : gui :=
  let player_ := player_now s in
  if bool_decide (ext_get (extensions (game_of s)) player_ = 0)
     || bool_decide (120 ≤ time_left s) then s
  else
    let s := spend_extension player_ s in
    let s := set_time_left (time_left s + 60) s in
    let s := if bool_decide (120 < time_left s) then set_time_left 120 s else s in
    update_status s.

(** [ReversiGUI(root)], given the game object [__init__] creates. *)
Definition new_gui : result gui :=
  g ← new_game;
  start_turn (Gui g false (Some HandleClick) None None [] None 60 None None [] 0%nat []).

End Clock.

Definition CELL_SIZE : Z := 60.

(** [0 <= row < BOARD_SIZE and 0 <= col < BOARD_SIZE] *)
Definition on_board (row col : Z) : bool :=
  bool_decide (0 ≤ row < BOARD_SIZE) && bool_decide (0 ≤ col < BOARD_SIZE).

(** ** test.py: automatic random return *)
Module Auto.
Import Clock.

(** [make_move]; the result is [(flips, return_pos)], [(None, None)] for
    an illegal move. *)
Definition make_move (rnd : nat) (g : game) (player_ : player) (r c : Z)
    : result (game * (option (list coord) * option coord)) :=
  flips ← get_flips (board_of g) player_ r c;
  if bool_decide (flips = []) then mret (g, (None, None))
  else
    b ← place_and_flip (board_of g) player_ r c flips;
    if bool_decide (3 ≤ length flips)%nat then
      return_pos ← random_choice rnd flips;
      let '(rx, ry) := return_pos in
      b ← board_set b rx ry (opponent player_);
      mret (set_board b g, (Some flips, Some return_pos))
    else mret (set_board b g, (Some flips, None)).

(** [handle_click], for a click at pixel [(ex, ey)] of the canvas. *)
Definition handle_click (rnd : nat) (ex ey : Z) (s : gui) : result gui :=
  let col := ex `div` CELL_SIZE in
  let row := ey `div` CELL_SIZE in
  if negb (on_board row col) then mret s
  else
    moves ← get_valid_moves (board_now s) (player_now s);
    if bool_decide ((row, col) ∉ moves) then mret s
    else
      let s := stop_timer s in
      '(g, (flips, return_pos)) ← make_move rnd (game_of s) (player_now s) row col;
      let s := set_game g s in
      let s := log_move (LogMove (player_now s) row col return_pos) s in
      over ← game_over (board_now s);
      if over : bool then mret (finish_game s)
      else switch_player s.

(** What the event loop can deliver. *)
Inductive event :=
| Click (ex ey : Z) (rnd : nat)
| ExtensionButton
| TimerFires (id : nat).

Definition step (e : event) (s : gui) : result gui :=
  match e with
  | Click ex ey rnd =>
      match binding s with
      | Some HandleClick => handle_click rnd ex ey s
      | _ => mret s
      end
  | ExtensionButton => mret (use_extension s)
  | TimerFires id =>
      if bool_decide ((id, CbTick) ∈ after_queue s) then tick (after_cancel id s)
      else mret s
  end.

End Auto.

(** ** test2.py: the return is left to the player *)
Module Manual.
Import Clock.

(** [make_move]: [(flips, None)], or [(None, None)] for an illegal move. *)
Definition make_move (g : game) (player_ : player) (r c : Z)
    : result (game * (option (list coord) * option coord)) :=
  flips ← get_flips (board_of g) player_ r c;
  if bool_decide (flips = []) then mret (g, (None, None))
  else
    b ← place_and_flip (board_of g) player_ r c flips;
    mret (set_board b g, (Some flips, None)).

(** [if self.pending_return:] *)
Definition is_pending (s : gui) : bool :=
  match pending_return s with
  | Some (_ :: _) => true
  | _ => false
  end.

(** [handle_click] *)
Definition handle_click (ex ey : Z) (s : gui) : result gui :=
  if is_pending s then mret s
  else
    let col := ex `div` CELL_SIZE in
    let row := ey `div` CELL_SIZE in
    if negb (on_board row col) then mret s
    else
      moves ← get_valid_moves (board_now s) (player_now s);
      if bool_decide ((row, col) ∉ moves) then mret s
      else
        let s := stop_timer s in
        '(g, (flips, _)) ← make_move (game_of s) (player_now s) row col;
        let s := set_game g s in
        match flips with
        | None => Raise TypeError (* len(None) *)
        | Some flips =>
            if bool_decide (3 ≤ length flips)%nat then
              let s := set_pending_return (Some flips) s in
              let s := set_return_origin (Some (row, col)) s in
              mret (set_binding (Some HandleReturnClick) s)
            else
              let s := log_move (LogMove (player_now s) row col None) s in
              over ← game_over (board_now s);
              if over : bool then mret (finish_game s)
              else switch_player s
        end.

(** [handle_return_click] *)
Definition handle_return_click (ex ey : Z) (s : gui) : result gui :=
  let col := ex `div` CELL_SIZE in
  let row := ey `div` CELL_SIZE in
  match pending_return s with
  | None => Raise TypeError (* (row, col) not in None *)
  | Some pending =>
      if bool_decide ((row, col) ∉ pending) then mret s
      else
        b ← board_set (board_now s) row col (opponent (player_now s));
        let s := set_game (set_board b (game_of s)) s in
        match return_origin s with
        | None => Raise TypeError (* ox, oy = None *)
        | Some (ox, oy) =>
            let s := log_move (LogMove (player_now s) ox oy (Some (row, col))) s in
            let s := set_pending_return None s in
            let s := set_return_origin None s in
            let s := set_binding (Some HandleClick) s in
            over ← game_over (board_now s);
            if over : bool then mret (finish_game s)
            else switch_player s
        end
  end.

Inductive event :=
| Click (ex ey : Z)
| ExtensionButton
| TimerFires (id : nat).

Definition step (e : event) (s : gui) : result gui :=
  match e with
  | Click ex ey =>
      match binding s with
      | Some HandleClick => handle_click ex ey s
      | Some HandleReturnClick => handle_return_click ex ey s
      | None => mret s
      end
  | ExtensionButton => mret (use_extension s)
  | TimerFires id =>
      if bool_decide ((id, CbTick) ∈ after_queue s) then tick (after_cancel id s)
      else mret s
  end.

End Manual.

(** ** test3.py: human X against the random agent O, no clock *)
Module VsAI.

(** [make_move]: [flips], or [None] for an illegal move. *)
Definition make_move (g : game) (player_ : player) (r c : Z)
    : result (game * option (list coord)) :=
  flips ← get_flips (board_of g) player_ r c;
  if bool_decide (flips = []) then mret (g, None)
  else
    b ← place_and_flip (board_of g) player_ r c flips;
    mret (set_board b g, Some flips).

(** [finish_game] *)
Definition finish_game (s : gui) : gui := announce_result s.

(** [start_turn]: the agent's move is scheduled, not run. *)
Definition start_turn (s : gui) : gui :=
  let s := update_status s in
  if bool_decide (player_now s = O) && vs_ai s then (after CbAiMove s).2
  else s.

(** [switch_player] *)
Definition switch_player (s : gui) : result gui :=
  let s := turn_to (opponent (player_now s)) s in
  moves ← get_valid_moves (board_now s) (player_now s);
  if bool_decide (moves ≠ []) then mret (start_turn s)
  else
    let s := log_move LogPass s in
    let s := turn_to (opponent (player_now s)) s in
    moves ← get_valid_moves (board_now s) (player_now s);
    if bool_decide (moves = []) then mret (finish_game s)
    else mret (start_turn s).

(** [handle_click]: the human always plays ["X"]. *)
Definition handle_click (ex ey : Z) (s : gui) : result gui :=
  if Manual.is_pending s then mret s
  else
    let col := ex `div` CELL_SIZE in
    let row := ey `div` CELL_SIZE in
    if negb (on_board row col) then mret s
    else
      moves ← get_valid_moves (board_now s) X;
      if bool_decide ((row, col) ∉ moves) then mret s
      else
        '(g, flips) ← make_move (game_of s) X row col;
        let s := set_game g s in
        match flips with
        | None => Raise TypeError (* len(None) *)
        | Some flips =>
            if bool_decide (3 ≤ length flips)%nat then
              let s := set_pending_return (Some flips) s in
              let s := set_return_origin (Some (row, col)) s in
              mret (set_binding (Some HandleReturnClick) s)
            else
              let s := log_move (LogMove X row col None) s in
              over ← game_over (board_now s);
              if over : bool then mret (finish_game s)
              else switch_player s
        end.

(** [handle_return_click] *)
Definition handle_return_click (ex ey : Z) (s : gui) : result gui :=
  let col := ex `div` CELL_SIZE in
  let row := ey `div` CELL_SIZE in
  match pending_return s with
  | None => Raise TypeError
  | Some pending =>
      if bool_decide ((row, col) ∉ pending) then mret s
      else
        b ← board_set (board_now s) row col (opponent X);
        let s := set_game (set_board b (game_of s)) s in
        match return_origin s with
        | None => Raise TypeError
        | Some (ox, oy) =>
            let s := log_move (LogMove X ox oy (Some (row, col))) s in
            let s := set_pending_return None s in
            let s := set_return_origin None s in
            let s := set_binding (Some HandleClick) s in
            over ← game_over (board_now s);
            if over : bool then mret (finish_game s)
            else switch_player s
        end
  end.

(** [ai_move]; [rnd_move] and [rnd_return] are the two draws of the
    random source. *)
Definition ai_move (rnd_move rnd_return : nat) (s : gui) : result gui :=
  moves ← get_valid_moves (board_now s) O;
  if bool_decide (moves = []) then
    let s := log_move LogPass s in
    switch_player s
  else
    '(row, col) ← random_choice rnd_move moves;
    '(g, flips) ← make_move (game_of s) O row col;
    let s := set_game g s in
    match flips with
    | None => Raise TypeError (* len(None) *)
    | Some flips =>
        s ← (if bool_decide (3 ≤ length flips)%nat then
               return_pos ← random_choice rnd_return flips;
               b ← board_set (board_now s) return_pos.1 return_pos.2 X;
               let s := set_game (set_board b (game_of s)) s in
               mret (log_move (LogMove O row col (Some return_pos)) s)
             else mret (log_move (LogMove O row col None) s));
        over ← game_over (board_now s);
        if over : bool then mret (finish_game s)
        else switch_player s
    end.

(** [ReversiGUI(root)] *)
Definition new_gui : result gui :=
  g ← new_game;
  mret (start_turn (Gui g true (Some HandleClick) None None [] None 0 None None [] 0%nat [])).

Inductive event :=
| Click (ex ey : Z)
| ToggleAI
| AiFires (id : nat) (rnd_move rnd_return : nat).

Definition step (e : event) (s : gui) : result gui :=
  match e with
  | Click ex ey =>
      match binding s with
      | Some HandleClick => handle_click ex ey s
      | Some HandleReturnClick => handle_return_click ex ey s
      | None => mret s
      end
  | ToggleAI => mret (set_vs_ai (negb (vs_ai s)) s)
  | AiFires id rnd_move rnd_return =>
      if bool_decide ((id, CbAiMove) ∈ after_queue s) then
        ai_move rnd_move rnd_return (after_cancel id s)
      else mret s
  end.

End VsAI.

(** ** Vocabulary of the statements *)

(** The board [__init__] builds never changes shape: 8 rows of 8 cells. *)
Definition wf_board (b : board) : Prop :=
  length b = Z.to_nat BOARD_SIZE ∧
  Forall (λ row, length row = Z.to_nat BOARD_SIZE) b.

(** The content of cell [(x, y)] of the grid. *)
Definition cell_at (b : board) (x y : Z) : cell :=
  match b !! Z.to_nat x with
  | Some row => default Dot (row !! Z.to_nat y)
  | None => Dot
  end.

(** The board with cell [(x, y)] of the grid overwritten. *)
Definition board_put (b : board) (x y : Z) (v : cell) : board :=
  alter (λ row, <[Z.to_nat y := v]> row) (Z.to_nat x) b.

Definition inside_at (q : coord) : Prop := inside q.1 q.2 = true.

(** Cell [q] is on the board and holds [v]. *)
Definition holds (b : board) (v : cell) (q : coord) : Prop :=
  inside_at q ∧ cell_at b q.1 q.2 = v.

(** The [k]-th cell met when walking from [(r, c)] in direction [d]. *)
Definition ray (r c : Z) (d : Z * Z) (k : nat) : coord :=
  (r + Z.of_nat k * d.1, c + Z.of_nat k * d.2).

(** [inside(x, y) and board[x][y] == v], as a boolean on the grid. *)
Definition holdsb (b : board) (v : cell) (x y : Z) : bool :=
  inside x y && bool_decide (cell_at b x y = v).

(** The number of steps a walk from [(x, y)] in direction [(dr, dc)] can
    make before it leaves the board. *)
Definition steps_to_edge (dr dc x y : Z) : Z :=
  if decide (dr = 0) then (if decide (dc = 1) then 8 - y else y + 1)
  else (if decide (dr = 1) then 8 - x else x + 1).

(** *** The flip rule in the words of the specification *)

(** The contiguous run of opponent cells that starts adjacent to [(r, c)]
    in direction [d] has exactly [n] cells. *)
Definition opp_run (b : board) (side : player) (r c : Z) (d : Z * Z)
    (n : nat) : Prop :=
  (∀ k, (1 ≤ k ≤ n)%nat → holds b (opponent side) (ray r c d k)) ∧
  ¬ holds b (opponent side) (ray r c d (S n)).

(** The run is non-empty and terminates inside the board on a cell owned
    by [side]. *)
Definition bracketed (b : board) (side : player) (r c : Z) (d : Z * Z)
    (n : nat) : Prop :=
  n ≠ 0%nat ∧ holds b side (ray r c d (S n)).

(** What direction [d] contributes: the whole run when it is bracketed,
    nothing otherwise. *)
Definition contribution (b : board) (side : player) (r c : Z) (d : Z * Z)
    (l : list coord) : Prop :=
  ∃ n, opp_run b side r c d n ∧
       ((bracketed b side r c d n ∧ l = ray r c d <$> seq 1 n) ∨
        (¬ bracketed b side r c d n ∧ l = [])).

(** [computeFlips]: the contributions of the 8 directions, concatenated. *)
Definition computeFlips_spec (b : board) (side : player) (r c : Z)
    (l : list coord) : Prop :=
  ∃ ls, Forall2 (contribution b side r c) directions ls ∧ l = mjoin ls.

(** The list [get_flips] returns; empty when it raises. *)
Definition flips_of (b : board) (side : player) (r c : Z) : list coord :=
  match get_flips b side r c with Ok l => l | Raise _ => [] end.

(** The direction in which [q] lies from [(r, c)]. *)
Definition dir_of (r c : Z) (q : coord) : Z * Z :=
  (Z.sgn (q.1 - r), Z.sgn (q.2 - c)).

(** [(r, c)] is a legal move of [side]: the cell is empty and the move
    flips something. *)
Definition legal (b : board) (side : player) (q : coord) : Prop :=
  cell_at b q.1 q.2 = Dot ∧ flips_of b side q.1 q.2 ≠ [].

Global Instance legal_dec b side q : Decision (legal b side q).
Proof. unfold legal. apply _. Defined.

(** The cells of the grid in row-major order. *)
Definition all_cells : list coord :=
  r ← range (Z.to_nat BOARD_SIZE); (λ c, (r, c)) <$> range (Z.to_nat BOARD_SIZE).

(** The list [get_valid_moves] returns; empty when it raises. *)
Definition moves_of (b : board) (side : player) : list coord :=
  match get_valid_moves b side with Ok l => l | Raise _ => [] end.

(** The board after [side] is written into every cell of [l]. *)
Definition put_all (b : board) (side : player) (l : list coord) : board :=
  foldl (λ b q, board_put b q.1 q.2 side) b l.

(** The board after the placement at [(r, c)] and its flips, before any
    return. *)
Definition applied (b : board) (side : player) (r c : Z) : board :=
  put_all (board_put b r c side) side (flips_of b side r c).

(** The number of cells of the board that hold [v]. *)
Definition count_board (v : cell) (b : board) : nat :=
  sum_list (count v <$> b).

(** 1 when [P] holds, 0 otherwise. *)
Definition one_if (P : Prop) `{!Decision P} : nat := if decide P then 1%nat else 0%nat.

(** [side]'s component of [count_pieces]. *)
Definition count_of (side : player) (b : board) : nat :=
  match side with
  | X => (count_pieces b).1
  | O => (count_pieces b).2
  end.

(** The board of a new game. *)
Definition initial_board : board :=
  Eval vm_compute in
    match init_board empty_board with Ok b => b | Raise _ => [] end.

(** A sequence of moves, each applied with test2.py's [make_move]. *)
Definition play (moves : list (player * coord)) (g : game) : result game :=
  for_acc (λ g '(p, (r, c)), fst <$> Manual.make_move g p r c) g moves.

(** The board after X(2,4), O(2,3), X(3,2) from the initial position. *)
Definition three_moves_board : board :=
  [[Dot; Dot; Dot; Dot; Dot; Dot; Dot; Dot];
   [Dot; Dot; Dot; Dot; Dot; Dot; Dot; Dot];
   [Dot; Dot; Dot; Stone O; Stone X; Dot; Dot; Dot];
   [Dot; Dot; Stone X; Stone X; Stone X; Dot; Dot; Dot];
   [Dot; Dot; Dot; Stone O; Stone X; Dot; Dot; Dot];
   [Dot; Dot; Dot; Dot; Dot; Dot; Dot; Dot];
   [Dot; Dot; Dot; Dot; Dot; Dot; Dot; Dot];
   [Dot; Dot; Dot; Dot; Dot; Dot; Dot; Dot]].

(** The state a [tick] leaves when the countdown is not at 0: the label
    shows the time, one second is taken, the next tick is scheduled. *)
Definition ticked (s : gui) : gui :=
  let s := set_timer_label (Some (time_left s)) s in
  let s := set_time_left (time_left s - 1) s in
  let '(id, s) := after CbTick s in
  set_timer_id (Some id) s.

(** The state [start_turn] leaves. *)
Definition started (s : gui) : gui :=
  ticked (update_status (set_time_left 60 s)).

(** The states of test.py's GUI that the event loop can reach. *)
Inductive reachable : gui → Prop :=
| reach_new s : Clock.new_gui = Ok s → reachable s
| reach_step e s s' : reachable s → Auto.step e s = Ok s' → reachable s'.

Definition budget (s : gui) (p : player) : Z :=
  ext_get (extensions (game_of s)) p.

(** A GUI object around game [g], its clock at 60 and nothing scheduled,
    logged or pending. *)
Definition idle_gui (g : game) : gui :=
  Gui g false (Some HandleClick) None None [] None 60 None None [] 0%nat [].

(** A board on which X can move, to (0,2), and O cannot. *)
Definition pass_board : board :=
  [[Stone X; Stone O; Dot; Dot; Dot; Dot; Dot; Dot];
   [Dot; Dot; Dot; Dot; Dot; Dot; Dot; Dot];
   [Dot; Dot; Dot; Dot; Dot; Dot; Dot; Dot];
   [Dot; Dot; Dot; Dot; Dot; Dot; Dot; Dot];
   [Dot; Dot; Dot; Dot; Dot; Dot; Dot; Dot];
   [Dot; Dot; Dot; Dot; Dot; Dot; Dot; Dot];
   [Dot; Dot; Dot; Dot; Dot; Dot; Dot; Dot];
   [Dot; Dot; Dot; Dot; Dot; Dot; Dot; Dot]].

(** What the clock claims of a state: an 8×8 board, both budgets between
    0 and 3, the countdown between 0 and 120. *)
Definition clock_inv (s : gui) : Prop :=
  wf_board (board_now s) ∧
  0 ≤ budget s X ≤ 3 ∧ 0 ≤ budget s O ≤ 3 ∧
  0 ≤ time_left s ≤ 120.

(** The state on which the witnesses of the clock run: X has just moved
    on [pass_board]. *)
Definition pass_gui : gui := idle_gui (Game pass_board X (Ext 3 3)).

(** A board on which X's move at (0,4) flips three pieces. *)
Definition triple_board : board :=
  [[Stone X; Stone O; Stone O; Stone O; Dot; Dot; Dot; Dot];
   [Dot; Dot; Dot; Dot; Dot; Dot; Dot; Dot];
   [Dot; Dot; Dot; Dot; Dot; Dot; Dot; Dot];
   [Dot; Dot; Dot; Dot; Dot; Dot; Dot; Dot];
   [Dot; Dot; Dot; Dot; Dot; Dot; Dot; Dot];
   [Dot; Dot; Dot; Dot; Dot; Dot; Dot; Dot];
   [Dot; Dot; Dot; Dot; Dot; Dot; Dot; Dot];
   [Dot; Dot; Dot; Dot; Dot; Dot; Dot; Dot]].

(** [all(cell != "." for row in self.board for cell in row)] *)
Definition full (b : board) : bool :=
  forallb (λ row, forallb (λ w, bool_decide (w ≠ Dot)) row) b.

(** At most one tick is scheduled, and it is the one [timer_id] names. *)
Definition timer_inv (s : gui) : Prop :=
  after_queue s = [] ∨
  ∃ id, after_queue s = [(id, CbTick)] ∧ timer_id s = Some id.

(** The game goes on ([handle_click] is bound and the side to move has a
    legal move) or is over (the canvas is unbound, no tick is scheduled,
    and neither side has a legal move). *)
Definition phase_inv (s : gui) : Prop :=
  (binding s = Some HandleClick ∧
   moves_of (board_now s) (player_now s) ≠ []) ∨
  (binding s = None ∧ after_queue s = [] ∧
   moves_of (board_now s) X = [] ∧ moves_of (board_now s) O = []).

Definition auto_inv (s : gui) : Prop :=
  clock_inv s ∧ timer_inv s ∧ phase_inv s.

(** The state [ReversiGUI(root)] of test.py and test2.py starts in. *)
Definition first_gui : gui :=
  Eval vm_compute in
    match Clock.new_gui with
    | Ok s => s
    | Raise _ => idle_gui (Game [] X (Ext 3 3))
    end.

(** The states of test2.py's GUI that the event loop can reach. *)
Inductive manual_reachable : gui → Prop :=
| manual_reach_new s : Clock.new_gui = Ok s → manual_reachable s
| manual_reach_step e s s' :
    manual_reachable s → Manual.step e s = Ok s' → manual_reachable s'.

(** test2.py waits for the return click: the canvas is bound to
    [handle_return_click], the flips to choose from are on the board, the
    move that made them is remembered, and no tick is scheduled. *)
Definition waiting_inv (s : gui) : Prop :=
  clock_inv s ∧ after_queue s = [] ∧
  binding s = Some HandleReturnClick ∧
  ∃ F o, pending_return s = Some F ∧ F ≠ [] ∧
         return_origin s = Some o ∧ Forall inside_at F.

Definition manual_inv (s : gui) : Prop := auto_inv s ∨ waiting_inv s.

(** The states of test3.py's GUI that the event loop can reach. *)
Inductive vsai_reachable : gui → Prop :=
| vsai_reach_new s : VsAI.new_gui = Ok s → vsai_reachable s
| vsai_reach_step e s s' :
    vsai_reachable s → VsAI.step e s = Ok s' → vsai_reachable s'.

(** In test3.py the canvas is bound to [handle_return_click] only while
    there are flips to choose from, all of them on the board. *)
Definition vsai_inv (s : gui) : Prop :=
  wf_board (board_now s) ∧
  (binding s = Some HandleReturnClick →
   ∃ F o, pending_return s = Some F ∧ return_origin s = Some o ∧
          Forall inside_at F).

(** The state [ReversiGUI(root)] of test3.py starts in. *)
Definition vsai_first_gui : gui :=
  Eval vm_compute in
    match VsAI.new_gui with
    | Ok s => s
    | Raise _ => idle_gui (Game [] X (Ext 3 3))
    end.

(* ===== Facts ===== *)

(** ** Python indexing inside the grid *)

Lemma py_index_in_range (n : nat) (i : Z) :
  0 ≤ i < Z.of_nat n → py_index n i = Some (Z.to_nat i).
Proof. intros Hi. unfold py_index. by rewrite bool_decide_eq_true_2. Qed.

Lemma inside_spec (x y : Z) :
  inside x y = true ↔ 0 ≤ x < 8 ∧ 0 ≤ y < 8.
Proof.
  unfold inside, BOARD_SIZE.
  rewrite andb_true_iff, !bool_decide_eq_true. tauto.
Qed.

Lemma wf_row (b : board) (x : Z) :
  wf_board b → 0 ≤ x < 8 →
  ∃ row, b !! Z.to_nat x = Some row ∧ length row = 8%nat.
Proof.
  intros [Hlen Hrows] Hx. change (Z.to_nat BOARD_SIZE) with 8%nat in *.
  destruct (lookup_lt_is_Some_2 b (Z.to_nat x)) as [row Hrow]; [lia|].
  exists row. split; [done|].
  by apply (Forall_lookup_1 _ _ _ _ Hrows Hrow).
Qed.

Lemma board_get_inside (b : board) (x y : Z) :
  wf_board b → inside x y = true → board_get b x y = Ok (cell_at b x y).
Proof.
  intros Hwf [Hx Hy]%inside_spec.
  destruct (wf_row b x Hwf Hx) as (row & Hrow & Hlen).
  destruct (lookup_lt_is_Some_2 row (Z.to_nat y)) as [v Hv]; [lia|].
  unfold board_get, cell_at, py_get.
  destruct Hwf as [Hb _]. change (Z.to_nat BOARD_SIZE) with 8%nat in Hb.
  rewrite py_index_in_range by lia. rewrite Hrow. simpl.
  rewrite py_index_in_range by lia. by rewrite Hv.
Qed.

Lemma board_set_inside (b : board) (x y : Z) (v : cell) :
  wf_board b → inside x y = true → board_set b x y v = Ok (board_put b x y v).
Proof.
  intros Hwf [Hx Hy]%inside_spec.
  destruct (wf_row b x Hwf Hx) as (row & Hrow & Hlen).
  unfold board_set, board_put, py_get, py_set.
  destruct Hwf as [Hb _]. change (Z.to_nat BOARD_SIZE) with 8%nat in Hb.
  rewrite py_index_in_range by lia. rewrite Hrow. simpl.
  rewrite py_index_in_range by lia. simpl. f_equal.
  apply list_eq. intros i.
  destruct (decide (i = Z.to_nat x)) as [->|Hne].
  - rewrite list_lookup_insert_eq by lia.
    by rewrite list_lookup_alter_eq, Hrow.
  - by rewrite list_lookup_insert_ne, list_lookup_alter_ne.
Qed.

Lemma board_put_wf (b : board) (x y : Z) (v : cell) :
  wf_board b → wf_board (board_put b x y v).
Proof.
  intros [Hlen Hrows]. split.
  - unfold board_put. by rewrite length_alter.
  - unfold board_put. apply Forall_alter; [done|].
    intros row _ Hrow. by rewrite length_insert.
Qed.

Lemma cell_at_put_same (b : board) (x y : Z) (v : cell) :
  wf_board b → inside x y = true → cell_at (board_put b x y v) x y = v.
Proof.
  intros Hwf [Hx Hy]%inside_spec.
  destruct (wf_row b x Hwf Hx) as (row & Hrow & Hlen).
  unfold cell_at, board_put. rewrite list_lookup_alter_eq, Hrow. simpl.
  by rewrite list_lookup_insert_eq by lia.
Qed.

Lemma cell_at_put_other (b : board) (x y x' y' : Z) (v : cell) :
  inside x y = true → inside x' y' = true → (x', y') ≠ (x, y) →
  cell_at (board_put b x y v) x' y' = cell_at b x' y'.
Proof.
  intros [Hx Hy]%inside_spec [Hx' Hy']%inside_spec Hne.
  unfold cell_at, board_put.
  destruct (decide (Z.to_nat x' = Z.to_nat x)) as [Heq|Hneq].
  - rewrite Heq, list_lookup_alter_eq.
    destruct (b !! Z.to_nat x) as [row|]; simpl; [|done].
    rewrite list_lookup_insert_ne; [done|].
    intros Hy2. apply Hne. f_equal; lia.
  - by rewrite list_lookup_alter_ne.
Qed.

(** ** The recorded reads of [get_flips] *)

Lemma run_traced_bind {A B} (m : traced A) (f : A → traced B) :
  run_traced (m ≫= f) =
  match run_traced m with
  | Ok (a, t1) =>
      match run_traced (f a) with
      | Ok (b, t2) => Ok (b, t1 ++ t2)
      | Raise e => Raise e
      end
  | Raise e => Raise e
  end.
Proof. reflexivity. Qed.

Lemma run_traced_ret {A} (a : A) : run_traced (mret a) = Ok (a, []).
Proof. reflexivity. Qed.

Lemma holdsb_holds (b : board) (v : cell) (x y : Z) :
  holdsb b v x y = true ↔ holds b v (x, y).
Proof.
  unfold holdsb, holds, inside_at. simpl.
  by rewrite andb_true_iff, bool_decide_eq_true.
Qed.

Lemma read_inside (b : board) (x y : Z) :
  wf_board b → inside x y = true →
  run_traced (read b x y) = Ok (cell_at b x y, [(x, y)]).
Proof.
  intros Hwf Hin. unfold read, lift_read. simpl.
  by rewrite board_get_inside.
Qed.

Lemma inside_and_is_spec (b : board) (x y : Z) (v : cell) :
  wf_board b →
  ∃ reads, run_traced (inside_and_is b x y v) = Ok (holdsb b v x y, reads) ∧
           Forall inside_at reads.
Proof.
  intros Hwf. unfold inside_and_is, holdsb.
  destruct (inside x y) eqn:Hin.
  - exists [(x, y)]. rewrite run_traced_bind, read_inside by done.
    split; [done|]. by apply Forall_singleton.
  - by exists [].
Qed.

Lemma outside_or_differs_spec (b : board) (x y : Z) (v : cell) :
  wf_board b →
  ∃ reads, run_traced (outside_or_differs b x y v)
           = Ok (negb (holdsb b v x y), reads) ∧
           Forall inside_at reads.
Proof.
  intros Hwf. unfold outside_or_differs, holdsb.
  destruct (inside x y) eqn:Hin; cbn [negb andb].
  - exists [(x, y)]. rewrite run_traced_bind, read_inside by done.
    split; [|by apply Forall_singleton].
    simpl. do 2 f_equal.
    by destruct (decide (cell_at b x y = v));
      [rewrite bool_decide_eq_false_2, bool_decide_eq_true_2
      |rewrite bool_decide_eq_true_2, bool_decide_eq_false_2]; auto.
  - by exists [].
Qed.

Lemma ray_0 (x y : Z) (d : Z * Z) : ray x y d 0 = (x, y).
Proof. unfold ray. f_equal; lia. Qed.

Lemma ray_S (x y : Z) (d : Z * Z) (k : nat) :
  ray x y d (S k) = ray (x + d.1) (y + d.2) d k.
Proof. unfold ray. f_equal; lia. Qed.

Lemma direction_cases (d : Z * Z) :
  d ∈ directions → -1 ≤ d.1 ≤ 1 ∧ -1 ≤ d.2 ≤ 1 ∧ (d.1 ≠ 0 ∨ d.2 ≠ 0).
Proof.
  unfold directions. rewrite !elem_of_cons, elem_of_nil.
  intros H. destruct_or!; subst; simpl; lia || done.
Qed.

Lemma steps_to_edge_inside (d : Z * Z) (x y : Z) :
  d ∈ directions → inside x y = true →
  1 ≤ steps_to_edge d.1 d.2 x y ∧
  steps_to_edge d.1 d.2 (x + d.1) (y + d.2) = steps_to_edge d.1 d.2 x y - 1.
Proof.
  intros Hd%direction_cases [Hx Hy]%inside_spec.
  unfold steps_to_edge. repeat case_decide; lia.
Qed.

Lemma while_opp_unfold (fuel : nat) (b : board) (opp : player) (dr dc : Z)
    (flips : list coord) (x y : Z) :
  while_opp fuel b opp dr dc flips x y =
  (go ← inside_and_is b x y opp;
   if go : bool then
     match fuel with
     | 0%nat => raise_traced OutOfFuel
     | S fuel' =>
         while_opp fuel' b opp dr dc (flips ++ [(x, y)]) (x + dr) (y + dc)
     end
   else mret (flips, x, y)).
Proof. by destruct fuel. Qed.

(** The loop invariant of the [while] of [get_flips]: with fuel for the
    steps that remain before the edge, the loop stops by its own test,
    after [n] cells that hold [opp], on the first cell that does not. *)
Lemma while_opp_spec (b : board) (opp : player) (d : Z * Z) :
  wf_board b → d ∈ directions →
  ∀ (fuel : nat) (flips : list coord) (x y : Z),
    (inside x y = true → steps_to_edge d.1 d.2 x y ≤ Z.of_nat fuel) →
    ∃ (n : nat) reads,
      run_traced (while_opp fuel b opp d.1 d.2 flips x y)
      = Ok ((flips ++ (ray x y d <$> seq 0 n),
             (ray x y d n).1, (ray x y d n).2), reads) ∧
      Forall inside_at reads ∧
      (∀ k, (k < n)%nat → holds b opp (ray x y d k)) ∧
      ¬ holds b opp (ray x y d n).
Proof.
  intros Hwf Hd fuel.
  induction fuel as [|fuel IH]; intros flips x y Hfuel;
    destruct (inside_and_is_spec b x y opp Hwf) as (rd & Hrd & Hin);
    destruct (holdsb b opp x y) eqn:Hgo.
  - apply holdsb_holds in Hgo as [Hi _].
    destruct (steps_to_edge_inside d x y Hd Hi) as [? _].
    specialize (Hfuel Hi). lia.
  - exists 0%nat, rd. rewrite while_opp_unfold, run_traced_bind, Hrd. simpl.
    rewrite !app_nil_r, Z.add_0_r, Z.add_0_r. split_and!; [done|done|lia|].
    rewrite ray_0, <- holdsb_holds. by rewrite Hgo.
  - pose proof Hgo as [Hi Hc]%holdsb_holds.
    destruct (steps_to_edge_inside d x y Hd Hi) as [H1 Hstep].
    destruct (IH (flips ++ [(x, y)]) (x + d.1) (y + d.2))
      as (n & rd' & Hrun & Hin' & Hall & Hstop).
    { intros _. rewrite Hstep. specialize (Hfuel Hi). lia. }
    exists (S n), (rd ++ rd').
    rewrite while_opp_unfold, run_traced_bind, Hrd. cbn beta iota.
    rewrite Hrun. cbn beta iota. rewrite <- !ray_S. split_and!.
    + rewrite <- app_assoc.
      replace ([(x, y)] ++ (ray (x + d.1) (y + d.2) d <$> seq 0 n))
        with (ray x y d <$> seq 0 (S n)); [done|].
      cbn [seq fmap list_fmap]. rewrite ray_0. simpl. f_equal.
      rewrite <- fmap_S_seq, <- list_fmap_compose.
      apply list_fmap_ext. intros i k _. simpl. by rewrite ray_S.
    + by apply Forall_app.
    + intros [|k] Hk; [by rewrite ray_0|]. rewrite ray_S. apply Hall. lia.
    + by rewrite ray_S.
  - exists 0%nat, rd. rewrite while_opp_unfold, run_traced_bind, Hrd. simpl.
    rewrite !app_nil_r, Z.add_0_r, Z.add_0_r. split_and!; [done|done|lia|].
    rewrite ray_0, <- holdsb_holds. by rewrite Hgo.
Qed.

Lemma fmap_ray_seq_S (r c : Z) (d : Z * Z) (n : nat) :
  ray (r + d.1) (c + d.2) d <$> seq 0 n = ray r c d <$> seq 1 n.
Proof.
  rewrite <- fmap_S_seq, <- list_fmap_compose.
  apply list_fmap_ext. intros i k _. simpl. by rewrite ray_S.
Qed.

(** One direction of [get_flips] contributes what the specification
    says, and reads only cells of the grid. *)
Lemma flips_in_direction_spec (b : board) (side : player) (r c : Z)
    (acc : list coord) (d : Z * Z) :
  wf_board b → d ∈ directions →
  ∃ l reads,
    run_traced (flips_in_direction (Z.to_nat BOARD_SIZE) b side r c acc d)
    = Ok (acc ++ l, reads) ∧
    Forall inside_at reads ∧
    contribution b side r c d l.
Proof.
  intros Hwf Hd. unfold flips_in_direction. destruct d as [dr dc] eqn:Ed.
  remember (Z.to_nat BOARD_SIZE) as fuel eqn:Hfuel.
  destruct (outside_or_differs_spec b (r + dr) (c + dc) (opponent side) Hwf)
    as (rd1 & Hrd1 & Hin1).
  rewrite run_traced_bind, Hrd1. cbn beta iota.
  destruct (holdsb b (opponent side) (r + dr) (c + dc)) eqn:Hadj;
    cbn [negb].
  - (* the adjacent cell holds an opponent piece: the loop runs *)
    destruct (while_opp_spec b (opponent side) (dr, dc) Hwf Hd
                fuel [] (r + dr) (c + dc))
      as (n & rd2 & Hrun & Hin2 & Hall & Hstop).
    { intros Hi. destruct (steps_to_edge_inside (dr, dc) _ _ Hd Hi) as [_ Hs].
      apply inside_spec in Hi. revert Hs. unfold steps_to_edge. simpl.
      apply direction_cases in Hd. simpl in Hd.
      rewrite Hfuel. change (Z.of_nat (Z.to_nat BOARD_SIZE)) with 8.
      repeat case_decide; lia. }
    cbn [fst snd app] in Hrun. rewrite run_traced_bind, Hrun. cbn beta iota.
    change (r + dr) with (r + (dr, dc).1) in *.
    change (c + dc) with (c + (dr, dc).2) in *.
    rewrite (fmap_ray_seq_S r c (dr, dc)), <- !(ray_S r c (dr, dc)).
    rewrite <- (ray_S r c (dr, dc)) in Hstop.
    destruct (inside_and_is_spec b (ray r c (dr, dc) (S n)).1
                (ray r c (dr, dc) (S n)).2 side Hwf) as (rd3 & Hrd3 & Hin3).
    rewrite run_traced_bind, Hrd3. cbn beta iota.
    assert (Hn : n ≠ 0%nat).
    { intros ->. apply Hstop. rewrite ray_S, ray_0. by apply holdsb_holds. }
    assert (Hrun_n : opp_run b side r c (dr, dc) n).
    { split; [|done]. intros [|k] Hk; [lia|]. rewrite ray_S. apply Hall. lia. }
    assert (Hne : (ray r c (dr, dc) <$> seq 1 n) ≠ []).
    { destruct n; [done|]. simpl. done. }
    rewrite (bool_decide_eq_true_2 _ Hne), andb_true_r.
    destruct (holdsb b side _ _) eqn:Hclosed.
    + eexists _, _. split; [reflexivity|]. split.
      { rewrite app_nil_r. by repeat apply Forall_app_2. }
      exists n. split; [done|]. left. split; [|done]. split; [done|].
      apply holdsb_holds in Hclosed. by rewrite <- surjective_pairing in Hclosed.
    + eexists [], _. rewrite app_nil_r. split; [reflexivity|].
      split. { rewrite app_nil_r. by repeat apply Forall_app_2. }
      exists n. split; [done|]. right. split; [|done].
      intros [_ Hh]. rewrite (surjective_pairing (ray _ _ _ _)) in Hh.
      apply holdsb_holds in Hh. congruence.
  - (* [continue] *)
    exists [], (rd1 ++ []). rewrite app_nil_r. split; [done|].
    split. { by rewrite app_nil_r. }
    exists 0%nat. split.
    + split; [intros k Hk; lia|].
      rewrite ray_S, ray_0. rewrite <- holdsb_holds. simpl. by rewrite Hadj.
    + right. split; [|done]. by intros [? _].
Qed.

(** The [for] loop over the directions appends the contributions. *)
Lemma for_directions_spec (b : board) (side : player) (r c : Z)
    (ds : list (Z * Z)) :
  wf_board b → ds ⊆ directions →
  ∀ acc, ∃ ls reads,
    run_traced (for_acc (flips_in_direction (Z.to_nat BOARD_SIZE) b side r c)
                  acc ds)
    = Ok (acc ++ mjoin ls, reads) ∧
    Forall inside_at reads ∧
    Forall2 (contribution b side r c) ds ls.
Proof.
  intros Hwf. induction ds as [|d ds IH]; intros Hsub acc.
  - exists [], []. simpl. rewrite app_nil_r. by repeat split.
  - destruct (flips_in_direction_spec b side r c acc d Hwf)
      as (l & rd & Hrun & Hin & Hc).
    { apply Hsub. by left. }
    destruct (IH (λ x Hx, Hsub x (list_elem_of_further _ _ _ Hx)) (acc ++ l))
      as (ls & rd' & Hrun' & Hin' & Hcs).
    exists (l :: ls), (rd ++ rd').
    cbn [for_acc]. rewrite run_traced_bind, Hrun. cbn beta iota.
    rewrite Hrun'. simpl. rewrite <- app_assoc.
    split_and!; [done|by apply Forall_app|by constructor].
Qed.

Lemma get_flips_traced_spec (b : board) (side : player) (r c : Z) :
  wf_board b →
  ∃ l reads,
    run_traced (get_flips_traced (Z.to_nat BOARD_SIZE) b side r c)
    = Ok (l, reads) ∧
    Forall inside_at reads ∧
    computeFlips_spec b side r c l.
Proof.
  intros Hwf.
  destruct (for_directions_spec b side r c directions Hwf (λ x Hx, Hx) [])
    as (ls & rd & Hrun & Hin & Hcs).
  exists (mjoin ls), rd. split; [done|]. split; [done|]. by exists ls.
Qed.

(** ** What the specification of the flips entails *)

Lemma dir_of_ray (r c : Z) (d : Z * Z) (k : nat) :
  d ∈ directions → (1 ≤ k)%nat → dir_of r c (ray r c d k) = d.
Proof.
  intros Hd%direction_cases Hk. destruct d as [d1 d2]. simpl in Hd.
  unfold dir_of, ray. simpl.
  replace (r + Z.of_nat k * d1 - r) with (Z.of_nat k * d1) by lia.
  replace (c + Z.of_nat k * d2 - c) with (Z.of_nat k * d2) by lia.
  f_equal.
  - assert (d1 = -1 ∨ d1 = 0 ∨ d1 = 1) as [-> | [-> | ->]] by lia.
    + apply Z.sgn_neg. lia.
    + apply Z.sgn_null. lia.
    + apply Z.sgn_pos. lia.
  - assert (d2 = -1 ∨ d2 = 0 ∨ d2 = 1) as [-> | [-> | ->]] by lia.
    + apply Z.sgn_neg. lia.
    + apply Z.sgn_null. lia.
    + apply Z.sgn_pos. lia.
Qed.

Lemma ray_inj (r c : Z) (d : Z * Z) (k k' : nat) :
  d ∈ directions → ray r c d k = ray r c d k' → k = k'.
Proof.
  intros Hd%direction_cases. destruct d as [d1 d2]. simpl in Hd.
  unfold ray. simpl. intros [= H1 H2].
  assert (d1 = -1 ∨ d1 = 0 ∨ d1 = 1) as [-> | [-> | ->]] by lia;
    assert (d2 = -1 ∨ d2 = 0 ∨ d2 = 1) as [-> | [-> | ->]] by lia; lia.
Qed.

Lemma ray_not_origin (r c : Z) (d : Z * Z) (k : nat) :
  d ∈ directions → (1 ≤ k)%nat → ray r c d k ≠ (r, c).
Proof.
  intros Hd Hk Heq. rewrite <- (ray_0 r c d) in Heq.
  apply ray_inj in Heq; [lia|done].
Qed.

Lemma contribution_elem (b : board) (side : player) (r c : Z) (d : Z * Z)
    (l : list coord) (q : coord) :
  contribution b side r c d l → q ∈ l →
  ∃ k, (1 ≤ k)%nat ∧ q = ray r c d k ∧ holds b (opponent side) q.
Proof.
  intros (n & [Hrun _] & [[_ ->]|[_ ->]]) Hq; [|by apply elem_of_nil in Hq].
  apply list_elem_of_fmap in Hq as (k & -> & Hk%elem_of_seq).
  exists k. split; [lia|]. split; [done|]. apply Hrun. lia.
Qed.

Lemma contribution_NoDup (b : board) (side : player) (r c : Z) (d : Z * Z)
    (l : list coord) :
  d ∈ directions → contribution b side r c d l → NoDup l.
Proof.
  intros Hd (n & _ & [[_ ->]|[_ ->]]); [|constructor].
  apply NoDup_fmap_2_strong; [|apply NoDup_seq].
  intros k k' _ _. by apply ray_inj.
Qed.

Lemma computeFlips_spec_elem (b : board) (side : player) (r c : Z)
    (l : list coord) (q : coord) :
  computeFlips_spec b side r c l → q ∈ l →
  ∃ d k, d ∈ directions ∧ (1 ≤ k)%nat ∧ q = ray r c d k ∧
         holds b (opponent side) q.
Proof.
  intros (ls & Hcs & ->) Hq.
  apply list_elem_of_join in Hq as (l & Hq & Hl).
  apply list_elem_of_lookup in Hl as [i Hi].
  destruct (Forall2_lookup_r _ _ _ _ _ Hcs Hi) as (d & Hd & Hc).
  destruct (contribution_elem _ _ _ _ _ _ _ Hc Hq) as (k & ? & ? & ?).
  exists d, k. split; [|done]. apply list_elem_of_lookup. by exists i.
Qed.

(** Lists filed under distinct keys, concatenated, repeat nothing. *)
Lemma NoDup_concat_keyed {A K : Type} (key : A → K) (ks : list K)
    (ls : list (list A)) :
  NoDup ks →
  Forall2 (λ k l, NoDup l ∧ ∀ x, x ∈ l → key x = k) ks ls →
  NoDup (mjoin ls) ∧ ∀ x, x ∈ mjoin ls → key x ∈ ks.
Proof.
  intros Hks Hall. induction Hall as [|k l ks ls [Hl Hk] Hall IH].
  - split; [constructor|]. intros x Hx. by apply elem_of_nil in Hx.
  - apply list.NoDup_cons in Hks as [Hk' Hks]. destruct (IH Hks) as [IH1 IH2].
    simpl. split.
    + apply list.NoDup_app. split_and!; [done| |done].
      intros x Hx Hx'. apply Hk'. rewrite <- (Hk x Hx). by apply IH2.
    + intros x [Hx|Hx]%elem_of_app.
      * rewrite (Hk x Hx). by left.
      * right. by apply IH2.
Qed.

Lemma directions_NoDup : NoDup directions.
Proof. apply (bool_decide_unpack _). by vm_compute. Qed.

Lemma computeFlips_spec_NoDup (b : board) (side : player) (r c : Z)
    (l : list coord) :
  computeFlips_spec b side r c l → NoDup l.
Proof.
  intros (ls & Hcs & ->).
  apply (NoDup_concat_keyed (dir_of r c) directions); [apply directions_NoDup|].
  apply Forall2_same_length_lookup_2; [by eapply Forall2_length|].
  intros i d l Hd Hl.
  pose proof (Forall2_lookup_lr _ _ _ _ _ _ Hcs Hd Hl) as Hc.
  apply list_elem_of_lookup_2 in Hd.
  split; [by eapply contribution_NoDup|].
  intros x Hx.
  destruct (contribution_elem _ _ _ _ _ _ _ Hc Hx) as (k & Hk & -> & _).
  by apply dir_of_ray.
Qed.

Lemma opp_run_unique (b : board) (side : player) (r c : Z) (d : Z * Z)
    (n n' : nat) :
  opp_run b side r c d n → opp_run b side r c d n' → n = n'.
Proof.
  intros [Hn Hstop] [Hn' Hstop'].
  destruct (Nat.lt_trichotomy n n') as [Hlt|[Heq|Hgt]]; [|done|].
  - exfalso. apply Hstop, Hn'. lia.
  - exfalso. apply Hstop', Hn. lia.
Qed.

Lemma contribution_unique (b : board) (side : player) (r c : Z) (d : Z * Z)
    (l l' : list coord) :
  contribution b side r c d l → contribution b side r c d l' → l = l'.
Proof.
  intros (n & Hn & Hl) (n' & Hn' & Hl').
  rewrite <- (opp_run_unique _ _ _ _ _ _ _ Hn Hn') in Hl'.
  destruct Hl as [[? ->]|[? ->]], Hl' as [[? ->]|[? ->]]; done.
Qed.

Lemma computeFlips_spec_unique (b : board) (side : player) (r c : Z)
    (l l' : list coord) :
  computeFlips_spec b side r c l → computeFlips_spec b side r c l' → l = l'.
Proof.
  intros (ls & Hcs & ->) (ls' & Hcs' & ->). f_equal.
  revert ls' Hcs'. induction Hcs as [|d l ds ls Hc Hcs IH]; intros ls' Hcs'.
  - by apply Forall2_nil_inv_l in Hcs'.
  - apply Forall2_cons_inv_l in Hcs' as (l' & ls2 & Hc' & Hcs' & ->).
    f_equal; [by eapply contribution_unique|by apply IH].
Qed.

(** [get_flips] on a well-formed board: it returns, and what it returns
    is the list the specification describes. *)
Lemma get_flips_ok (b : board) (side : player) (r c : Z) :
  wf_board b →
  get_flips b side r c = Ok (flips_of b side r c) ∧
  computeFlips_spec b side r c (flips_of b side r c).
Proof.
  intros Hwf.
  destruct (get_flips_traced_spec b side r c Hwf) as (l & rd & Hrun & _ & Hs).
  unfold flips_of, get_flips. rewrite Hrun. by simpl.
Qed.

Lemma flips_of_elem (b : board) (side : player) (r c : Z) (q : coord) :
  wf_board b → q ∈ flips_of b side r c →
  inside_at q ∧ cell_at b q.1 q.2 = opponent side ∧ q ≠ (r, c).
Proof.
  intros Hwf Hq. destruct (get_flips_ok b side r c Hwf) as [_ Hs].
  destruct (computeFlips_spec_elem _ _ _ _ _ _ Hs Hq)
    as (d & k & Hd & Hk & -> & [Hi Hc]).
  split_and!; [done|done|by apply ray_not_origin].
Qed.

Lemma flips_of_NoDup (b : board) (side : player) (r c : Z) :
  wf_board b → NoDup (flips_of b side r c).
Proof.
  intros Hwf. destruct (get_flips_ok b side r c Hwf) as [_ Hs].
  by eapply computeFlips_spec_NoDup.
Qed.

(** ** [get_valid_moves] *)

Lemma bind_Ok {A B} (a : A) (f : A → result B) : Ok a ≫= f = f a.
Proof. reflexivity. Qed.

Lemma bind_ret {A B} (a : A) (f : A → result B) : mret a ≫= f = f a.
Proof. reflexivity. Qed.

Lemma range_elem (n : nat) (x : Z) : x ∈ range n ↔ 0 ≤ x < Z.of_nat n.
Proof.
  unfold range. rewrite list_elem_of_fmap. split.
  - intros (k & -> & Hk%elem_of_seq). lia.
  - intros Hx. exists (Z.to_nat x). split; [lia|]. apply elem_of_seq. lia.
Qed.

Lemma valid_moves_row (b : board) (side : player) (r : Z) (cs : list Z)
    (acc : list coord) :
  wf_board b → 0 ≤ r < 8 → (∀ c, c ∈ cs → 0 ≤ c < 8) →
  for_acc (λ moves c,
      v ← board_get b r c;
      if bool_decide (v = Dot) then
        flips ← get_flips b side r c;
        if bool_decide (flips ≠ []) then mret (moves ++ [(r, c)])
        else mret moves
      else mret moves) acc cs
  = Ok (acc ++ filter (legal b side) ((λ c, (r, c)) <$> cs)).
Proof.
  intros Hwf Hr. revert acc. induction cs as [|c cs IH]; intros acc Hcs.
  - simpl. by rewrite app_nil_r.
  - assert (Hc : 0 ≤ c < 8) by (apply Hcs; by left).
    assert (Hi : inside r c = true) by by apply inside_spec.
    cbn [for_acc]. rewrite board_get_inside by done.
    destruct (get_flips_ok b side r c Hwf) as [Hfl _].
    rewrite fmap_cons, filter_cons. unfold legal at 2. cbn [fst snd].
    rewrite ?bind_Ok, ?bind_ret.
    destruct (decide (cell_at b r c = Dot)) as [Hd|Hd].
    + rewrite (bool_decide_eq_true_2 _ Hd), Hfl.
      rewrite ?bind_Ok, ?bind_ret.
      destruct (decide (flips_of b side r c ≠ [])) as [Hf|Hf].
      * rewrite (bool_decide_eq_true_2 _ Hf).
        rewrite ?bind_Ok, ?bind_ret.
        rewrite IH by (intros; apply Hcs; by right).
        rewrite decide_True by done. by rewrite <- app_assoc.
      * rewrite (bool_decide_eq_false_2 _ Hf).
        rewrite ?bind_Ok, ?bind_ret.
        rewrite IH by (intros; apply Hcs; by right).
        by rewrite decide_False by tauto.
    + rewrite (bool_decide_eq_false_2 _ Hd).
      rewrite ?bind_Ok, ?bind_ret.
      rewrite IH by (intros; apply Hcs; by right).
      by rewrite decide_False by tauto.
Qed.

Lemma valid_moves_rows (b : board) (side : player) (rs : list Z)
    (acc : list coord) :
  wf_board b → (∀ r, r ∈ rs → 0 ≤ r < 8) →
  for_acc (λ moves r,
    for_acc (λ moves c,
      v ← board_get b r c;
      if bool_decide (v = Dot) then
        flips ← get_flips b side r c;
        if bool_decide (flips ≠ []) then mret (moves ++ [(r, c)])
        else mret moves
      else mret moves)
    moves (range (Z.to_nat BOARD_SIZE))) acc rs
  = Ok (acc ++ filter (legal b side)
                 (r ← rs; (λ c, (r, c)) <$> range (Z.to_nat BOARD_SIZE))).
Proof.
  intros Hwf. revert acc. induction rs as [|r rs IH]; intros acc Hrs.
  - simpl. by rewrite app_nil_r.
  - cbn [for_acc]. rewrite valid_moves_row; [|done|apply Hrs; by left|].
    2:{ intros c Hc%range_elem. done. }
    rewrite ?bind_Ok, ?bind_ret.
    rewrite IH by (intros; apply Hrs; by right).
    rewrite bind_cons, list.filter_app. by rewrite <- app_assoc.
Qed.

(** [get_valid_moves] returns the legal cells in row-major order. *)
Lemma get_valid_moves_ok (b : board) (side : player) :
  wf_board b →
  get_valid_moves b side = Ok (moves_of b side) ∧
  moves_of b side = filter (legal b side) all_cells.
Proof.
  intros Hwf. unfold moves_of, get_valid_moves.
  rewrite valid_moves_rows; [done|done|].
  by intros r Hr%range_elem.
Qed.

Lemma all_cells_elem (q : coord) : q ∈ all_cells ↔ inside_at q.
Proof.
  unfold all_cells, inside_at. rewrite list_elem_of_bind, inside_spec.
  change (Z.to_nat BOARD_SIZE) with 8%nat. split.
  - intros (r & (c & -> & Hc%range_elem)%list_elem_of_fmap & Hr%range_elem).
    simpl. lia.
  - intros [Hr Hc]. exists q.1. split; [|apply range_elem; lia].
    apply list_elem_of_fmap. exists q.2. split; [by destruct q|].
    apply range_elem. lia.
Qed.

Lemma moves_of_elem (b : board) (side : player) (q : coord) :
  wf_board b →
  q ∈ moves_of b side ↔ inside_at q ∧ legal b side q.
Proof.
  intros Hwf. destruct (get_valid_moves_ok b side Hwf) as [_ ->].
  rewrite list_elem_of_filter, all_cells_elem. tauto.
Qed.

(** ** Writing cells: placement and flips *)

Lemma put_all_wf (b : board) (side : player) (l : list coord) :
  wf_board b → wf_board (put_all b side l).
Proof.
  revert b. induction l as [|q l IH]; intros b Hwf; [done|].
  apply IH. by apply board_put_wf.
Qed.

Lemma flip_loop_ok (b : board) (side : player) (l : list coord) :
  wf_board b → Forall inside_at l →
  for_acc (λ b '(fx, fy), board_set b fx fy side) b l
  = Ok (put_all b side l).
Proof.
  revert b. induction l as [|[fx fy] l IH]; intros b Hwf Hl; [done|].
  apply list.Forall_cons in Hl as [Hq Hl].
  cbn [for_acc]. rewrite board_set_inside by done. rewrite bind_Ok.
  rewrite IH; [done|by apply board_put_wf|done].
Qed.

Lemma place_and_flip_ok (b : board) (side : player) (r c : Z)
    (l : list coord) :
  wf_board b → inside r c = true → Forall inside_at l →
  place_and_flip b side r c l = Ok (put_all (board_put b r c side) side l).
Proof.
  intros Hwf Hi Hl. unfold place_and_flip.
  rewrite board_set_inside by done. rewrite bind_Ok.
  apply flip_loop_ok; [by apply board_put_wf|done].
Qed.

Lemma cell_at_put (b : board) (x y : Z) (v : cell) (q : coord) :
  wf_board b → inside x y = true → inside_at q →
  cell_at (board_put b x y v) q.1 q.2
  = if decide (q = (x, y)) then v else cell_at b q.1 q.2.
Proof.
  intros Hwf Hi Hq. destruct (decide (q = (x, y))) as [->|Hne].
  - by apply cell_at_put_same.
  - apply cell_at_put_other; [done|done|]. by destruct q.
Qed.

Lemma cell_at_put_all (b : board) (side : player) (l : list coord)
    (q : coord) :
  wf_board b → Forall inside_at l → inside_at q →
  cell_at (put_all b side l) q.1 q.2
  = if decide (q ∈ l) then Stone side else cell_at b q.1 q.2.
Proof.
  revert b. induction l as [|[x y] l IH]; intros b Hwf Hl Hq.
  - cbn [put_all foldl]. case_decide as H; [by apply elem_of_nil in H|done].
  - apply list.Forall_cons in Hl as [Hxy Hl].
    change (put_all b side ((x, y) :: l))
      with (put_all (board_put b x y side) side l).
    rewrite IH; [|by apply board_put_wf|done|done].
    rewrite cell_at_put by done.
    destruct (decide (q ∈ l)) as [Hin|Hin].
    + rewrite decide_True; [done|]. by right.
    + destruct (decide (q = (x, y))) as [->|Hne].
      * rewrite decide_True; [done|]. by left.
      * rewrite decide_False; [done|].
        intros [?|?]%elem_of_cons; contradiction.
Qed.

(** ** Counting pieces *)

Lemma count_pieces_boards (b : board) :
  count_pieces b = (count_board X b, count_board O b).
Proof. reflexivity. Qed.

Lemma count_insert (w : cell) (row : list cell) (j : nat) (old v : cell) :
  row !! j = Some old →
  (count w (<[j:=v]> row) + one_if (old = w) = count w row + one_if (v = w))%nat.
Proof.
  unfold count, one_if. revert j.
  induction row as [|a row IH]; intros [|j] Hj; simplify_eq/=.
  - rewrite !filter_cons. repeat case_decide; simpl; lia.
  - specialize (IH j Hj). rewrite !filter_cons.
    repeat case_decide; simpl; lia.
Qed.

Lemma sum_list_alter {A} (f : A → nat) (g : A → A) (l : list A) (i : nat)
    (x : A) :
  l !! i = Some x →
  (sum_list (f <$> alter g i l) + f x = sum_list (f <$> l) + f (g x))%nat.
Proof.
  revert i. induction l as [|a l IH]; intros [|i] Hi; simplify_eq/=; [lia|].
  specialize (IH i Hi). lia.
Qed.

Lemma count_board_put (w : cell) (b : board) (x y : Z) (v : cell) :
  wf_board b → inside x y = true →
  (count_board w (board_put b x y v) + one_if (cell_at b x y = w)
   = count_board w b + one_if (v = w))%nat.
Proof.
  intros Hwf [Hx Hy]%inside_spec.
  destruct (wf_row b x Hwf Hx) as (row & Hrow & Hlen).
  destruct (lookup_lt_is_Some_2 row (Z.to_nat y)) as [old Hold]; [lia|].
  unfold count_board, board_put, cell_at. rewrite Hrow, Hold. simpl.
  pose proof (sum_list_alter (count w) (λ row, <[Z.to_nat y:=v]> row)
                b _ _ Hrow) as Hsum.
  pose proof (count_insert w row _ old v Hold) as Hcnt.
  simpl in Hsum. lia.
Qed.

(** Writing [side] over [n] distinct cells that hold the opponent moves
    [n] pieces from the opponent's count to [side]'s. *)
Lemma count_board_put_all (b : board) (side : player) (l : list coord) :
  wf_board b → NoDup l →
  (∀ q, q ∈ l → inside_at q ∧ cell_at b q.1 q.2 = opponent side) →
  count_board side (put_all b side l) = (count_board side b + length l)%nat ∧
  (count_board (opponent side) (put_all b side l) + length l
   = count_board (opponent side) b)%nat.
Proof.
  revert b. induction l as [|[x y] l IH]; intros b Hwf Hnd Hl.
  - simpl. lia.
  - apply list.NoDup_cons in Hnd as [Hnotin Hnd].
    destruct (Hl (x, y)) as [Hi Hc]; [by left|]. simpl in Hi, Hc.
    change (put_all b side ((x, y) :: l))
      with (put_all (board_put b x y side) side l).
    destruct (IH (board_put b x y side)) as [IH1 IH2];
      [by apply board_put_wf|done| |].
    { intros q Hq. destruct (Hl q) as [Hqi Hqc]; [by right|].
      split; [done|]. rewrite cell_at_put by done.
      rewrite decide_False; [done|]. by intros ->. }
    pose proof (count_board_put side b x y side Hwf Hi) as H1.
    pose proof (count_board_put (opponent side) b x y side Hwf Hi) as H2.
    unfold one_if in *. rewrite Hc in *.
    assert (Hne : Stone (opponent side) ≠ Stone side) by by destruct side.
    rewrite decide_False in H1 by done.
    rewrite decide_True in H1 by done.
    rewrite decide_True in H2 by done.
    rewrite decide_False in H2 by done.
    simpl. lia.
Qed.

(** ** More fuel changes nothing *)

Lemma while_opp_more_fuel (b : board) (opp : player) (dr dc : Z)
    (fuel fuel' : nat) (flips : list coord) (x y : Z) res :
  (fuel ≤ fuel')%nat →
  run_traced (while_opp fuel b opp dr dc flips x y) = Ok res →
  run_traced (while_opp fuel' b opp dr dc flips x y) = Ok res.
Proof.
  revert fuel' flips x y res.
  induction fuel as [|fuel IH]; intros fuel' flips x y res Hle H;
    rewrite while_opp_unfold, run_traced_bind in H;
    rewrite while_opp_unfold, run_traced_bind;
    destruct (run_traced (inside_and_is b x y opp)) as [[[] rd]|e];
    try done.
  destruct fuel' as [|fuel']; [lia|]. cbn beta iota in *.
  destruct (run_traced (while_opp fuel _ _ _ _ _ _ _)) as [[res1 rd1]|e] eqn:E;
    [|done].
  by rewrite (IH fuel' _ _ _ _ ltac:(lia) E).
Qed.

Lemma flips_in_direction_more_fuel (b : board) (side : player) (r c : Z)
    (fuel fuel' : nat) (acc : list coord) (d : Z * Z) res :
  (fuel ≤ fuel')%nat →
  run_traced (flips_in_direction fuel b side r c acc d) = Ok res →
  run_traced (flips_in_direction fuel' b side r c acc d) = Ok res.
Proof.
  intros Hle. unfold flips_in_direction. destruct d as [dr dc].
  rewrite !run_traced_bind.
  destruct (run_traced (outside_or_differs _ _ _ _)) as [[[] rd]|e];
    [done| |done].
  cbn beta iota. rewrite !run_traced_bind.
  destruct (run_traced (while_opp fuel _ _ _ _ _ _ _)) as [[res1 rd1]|e] eqn:E;
    [|done].
  by rewrite (while_opp_more_fuel _ _ _ _ _ _ _ _ _ _ Hle E).
Qed.

Lemma get_flips_traced_more_fuel (b : board) (side : player) (r c : Z)
    (fuel fuel' : nat) res :
  (fuel ≤ fuel')%nat →
  run_traced (get_flips_traced fuel b side r c) = Ok res →
  run_traced (get_flips_traced fuel' b side r c) = Ok res.
Proof.
  intros Hle. unfold get_flips_traced. generalize (@nil coord) as acc.
  revert res. induction directions as [|d ds IH]; intros res acc; [done|].
  cbn [for_acc]. rewrite !run_traced_bind.
  destruct (run_traced (flips_in_direction fuel _ _ _ _ _ _))
    as [[acc1 rd1]|e] eqn:E; [|done].
  rewrite (flips_in_direction_more_fuel _ _ _ _ _ _ _ _ _ Hle E).
  cbn beta iota.
  destruct (run_traced (for_acc _ acc1 ds)) as [[res2 rd2]|e] eqn:E2; [|done].
  by rewrite (IH _ _ E2).
Qed.

(** ** [make_move] on a legal move *)

Lemma opponent_involutive (p : player) : opponent (opponent p) = p.
Proof. by destruct p. Qed.

Lemma opponent_neq (p : player) : opponent p ≠ p.
Proof. by destruct p. Qed.

Lemma legal_move_facts (b : board) (side : player) (r c : Z) :
  wf_board b → (r, c) ∈ moves_of b side →
  inside r c = true ∧ cell_at b r c = Dot ∧
  flips_of b side r c ≠ [] ∧
  get_flips b side r c = Ok (flips_of b side r c) ∧
  Forall inside_at (flips_of b side r c) ∧
  place_and_flip b side r c (flips_of b side r c) = Ok (applied b side r c).
Proof.
  intros Hwf Hm. apply (moves_of_elem _ _ _ Hwf) in Hm as (Hi & Hd & Hf).
  unfold inside_at in Hi. cbn [fst snd] in Hi, Hd, Hf.
  assert (Hall : Forall inside_at (flips_of b side r c)).
  { apply list.Forall_forall. intros q Hq.
    by destruct (flips_of_elem b side r c q Hwf Hq). }
  split_and!; try done.
  - by apply get_flips_ok.
  - by apply place_and_flip_ok.
Qed.

Lemma manual_make_move_legal (g : game) (side : player) (r c : Z) :
  wf_board (board_of g) → (r, c) ∈ moves_of (board_of g) side →
  Manual.make_move g side r c
  = Ok (set_board (applied (board_of g) side r c) g,
        (Some (flips_of (board_of g) side r c), None)).
Proof.
  intros Hwf Hm.
  destruct (legal_move_facts _ _ _ _ Hwf Hm) as (_ & _ & Hf & Hg & _ & Hp).
  unfold Manual.make_move. rewrite Hg, bind_Ok.
  rewrite (bool_decide_eq_false_2 _ Hf). by rewrite Hp.
Qed.

Lemma vsai_make_move_legal (g : game) (side : player) (r c : Z) :
  wf_board (board_of g) → (r, c) ∈ moves_of (board_of g) side →
  VsAI.make_move g side r c
  = Ok (set_board (applied (board_of g) side r c) g,
        Some (flips_of (board_of g) side r c)).
Proof.
  intros Hwf Hm.
  destruct (legal_move_facts _ _ _ _ Hwf Hm) as (_ & _ & Hf & Hg & _ & Hp).
  unfold VsAI.make_move. rewrite Hg, bind_Ok.
  rewrite (bool_decide_eq_false_2 _ Hf). by rewrite Hp.
Qed.

Lemma random_choice_ok {A} (rnd : nat) (l : list A) :
  l ≠ [] → ∃ a, random_choice rnd l = Ok a ∧ l !! (rnd `mod` length l)%nat = Some a.
Proof.
  intros Hl. unfold random_choice.
  destruct (lookup_lt_is_Some_2 l (rnd `mod` length l)%nat) as [a Ha].
  { apply Nat.mod_upper_bound. by destruct l. }
  exists a. by rewrite Ha.
Qed.

Lemma applied_wf (b : board) (side : player) (r c : Z) :
  wf_board b → wf_board (applied b side r c).
Proof. intros Hwf. by apply put_all_wf, board_put_wf. Qed.

Lemma auto_make_move_legal (rnd : nat) (g : game) (side : player) (r c : Z) :
  wf_board (board_of g) → (r, c) ∈ moves_of (board_of g) side →
  let b := board_of g in
  let F := flips_of b side r c in
  if bool_decide (3 ≤ length F)%nat then
    ∃ pos, F !! (rnd `mod` length F)%nat = Some pos ∧
      Auto.make_move rnd g side r c
      = Ok (set_board (board_put (applied b side r c) pos.1 pos.2
                         (opponent side)) g,
            (Some F, Some pos))
  else
    Auto.make_move rnd g side r c
    = Ok (set_board (applied b side r c) g, (Some F, None)).
Proof.
  intros Hwf Hm b F.
  destruct (legal_move_facts _ _ _ _ Hwf Hm) as (_ & _ & Hf & Hg & Hall & Hp).
  unfold Auto.make_move. fold b. fold b in Hg, Hp. rewrite Hg, bind_Ok.
  fold F. fold F in Hp, Hf, Hall.
  rewrite (bool_decide_eq_false_2 _ Hf), Hp, bind_Ok.
  destruct (bool_decide (3 ≤ length F)%nat); [|done].
  destruct (random_choice_ok rnd F Hf) as (pos & Hrc & Hpos).
  exists pos. split; [done|]. rewrite Hrc, bind_Ok. destruct pos as [rx ry].
  rewrite board_set_inside; [done|by apply applied_wf|].
  apply list_elem_of_lookup_2 in Hpos.
  by apply (proj1 (list.Forall_forall _ _) Hall (rx, ry)).
Qed.

(** ** The flip computation *)

Lemma initial_board_wf : wf_board initial_board.
Proof. split; [reflexivity|]. by repeat constructor. Qed.

Lemma three_moves_board_wf : wf_board three_moves_board.
Proof. split; [reflexivity|]. by repeat constructor. Qed.

Lemma init_board_initial : init_board empty_board = Ok initial_board.
Proof. reflexivity. Qed.

(** C2. On every board and for every side and target cell (in particular
    an empty one), [get_flips] returns exactly the concatenation, over
    the 8 directions in order, of the run of opponent cells that starts
    next to the target, a run being included only when it is non-empty
    and ends inside the board on a cell of the moving side; no other list
    fits that description. A direction whose run is followed by the edge
    of the board or by an empty cell, or whose run is empty, contributes
    nothing. *)
Theorem get_flips_is_computeFlips (b : board) (side : player) (r c : Z) :
  wf_board b →
  ∃ l, get_flips b side r c = Ok l ∧
       computeFlips_spec b side r c l ∧
       (∀ l', computeFlips_spec b side r c l' → l' = l) ∧
       (∀ d n l_d,
          d ∈ directions → opp_run b side r c d n →
          contribution b side r c d l_d →
          (¬ inside_at (ray r c d (S n)) ∨
           cell_at b (ray r c d (S n)).1 (ray r c d (S n)).2 = Dot ∨
           n = 0%nat) →
          l_d = []).
Proof.
  intros Hwf. destruct (get_flips_ok b side r c Hwf) as [Hg Hs].
  exists (flips_of b side r c). split_and!; [done|done| |].
  - intros l' Hl'. by apply (computeFlips_spec_unique b side r c).
  - intros d n l_d Hd Hn (n' & Hn' & Hl) Hnothing.
    rewrite <- (opp_run_unique _ _ _ _ _ _ _ Hn Hn') in Hl.
    destruct Hl as [[[Hne [Hi Hc]] _]|[_ ->]]; [|done].
    destruct Hnothing as [Hout|[Hdot|Hzero]]; [done| |done].
    rewrite Hdot in Hc. done.
Qed.

Lemma get_flips_is_computeFlips_witness :
  wf_board initial_board ∧
  ∃ l, get_flips initial_board X 2 4 = Ok l ∧
       computeFlips_spec initial_board X 2 4 l ∧
       (∀ l', computeFlips_spec initial_board X 2 4 l' → l' = l) ∧
       (∀ d n l_d,
          d ∈ directions → opp_run initial_board X 2 4 d n →
          contribution initial_board X 2 4 d l_d →
          (¬ inside_at (ray 2 4 d (S n)) ∨
           cell_at initial_board (ray 2 4 d (S n)).1 (ray 2 4 d (S n)).2 = Dot ∨
           n = 0%nat) →
          l_d = []).
Proof.
  split; [exact initial_board_wf|].
  apply (get_flips_is_computeFlips initial_board X 2 4).
  exact initial_board_wf.
Defined.

(** C10. For every board, side and integer pair [(r, c)], on or off the
    board, [get_flips] returns: its loops stop by their own test within
    the fuel [BOARD_SIZE], and more fuel changes neither the result nor
    the reads. Every cell it reads is inside the grid, every coordinate
    it returns is inside the grid and differs from [(r, c)], and the
    returned coordinates are pairwise distinct. *)
Theorem get_flips_total_in_bounds (b : board) (side : player) (r c : Z) :
  wf_board b →
  ∃ l reads,
    (∀ fuel, (Z.to_nat BOARD_SIZE ≤ fuel)%nat →
       run_traced (get_flips_traced fuel b side r c) = Ok (l, reads)) ∧
    get_flips b side r c = Ok l ∧
    Forall inside_at reads ∧
    Forall inside_at l ∧
    ((r, c) ∉ l) ∧
    NoDup l.
Proof.
  intros Hwf.
  destruct (get_flips_traced_spec b side r c Hwf) as (l & rd & Hrun & Hrd & Hs).
  exists l, rd. split_and!.
  - intros fuel Hfuel. by apply (get_flips_traced_more_fuel _ _ _ _ _ _ _ Hfuel).
  - unfold get_flips. by rewrite Hrun.
  - done.
  - apply list.Forall_forall. intros q Hq.
    by destruct (computeFlips_spec_elem _ _ _ _ _ _ Hs Hq)
      as (d & k & _ & _ & _ & [? _]).
  - intros Hq.
    destruct (computeFlips_spec_elem _ _ _ _ _ _ Hs Hq)
      as (d & k & Hd & Hk & Heq & _).
    by apply (ray_not_origin r c d k).
  - by eapply computeFlips_spec_NoDup.
Qed.

Lemma get_flips_total_in_bounds_witness :
  wf_board three_moves_board ∧
  ∃ l reads,
    (∀ fuel, (Z.to_nat BOARD_SIZE ≤ fuel)%nat →
       run_traced (get_flips_traced fuel three_moves_board O (-1) 4)
       = Ok (l, reads)) ∧
    get_flips three_moves_board O (-1) 4 = Ok l ∧
    Forall inside_at reads ∧
    Forall inside_at l ∧
    ((-1, 4) ∉ l) ∧
    NoDup l.
Proof.
  split; [exact three_moves_board_wf|].
  apply (get_flips_total_in_bounds three_moves_board O (-1) 4).
  exact three_moves_board_wf.
Defined.

(** ** Applying a move *)

Lemma count_of_board (side : player) (b : board) :
  count_of side b = count_board side b.
Proof. by destruct side. Qed.

Lemma applied_counts (b : board) (side : player) (r c : Z) :
  wf_board b → (r, c) ∈ moves_of b side →
  count_board side (applied b side r c)
  = (count_board side b + 1 + length (flips_of b side r c))%nat ∧
  (count_board (opponent side) (applied b side r c)
   + length (flips_of b side r c)
   = count_board (opponent side) b)%nat.
Proof.
  intros Hwf Hm.
  destruct (legal_move_facts _ _ _ _ Hwf Hm) as (Hi & Hd & _ & _ & Hall & _).
  pose proof (board_put_wf b r c side Hwf) as Hwf'.
  destruct (count_board_put_all (board_put b r c side) side
              (flips_of b side r c)) as [H1 H2];
    [done|by apply flips_of_NoDup|..].
  { intros q Hq. destruct (flips_of_elem b side r c q Hwf Hq) as (Hqi & Hqc & Hne).
    split; [done|]. rewrite cell_at_put by done. by rewrite decide_False. }
  pose proof (count_board_put side b r c side Hwf Hi) as H3.
  pose proof (count_board_put (opponent side) b r c side Hwf Hi) as H4.
  unfold one_if in *. rewrite Hd in *.
  assert (Hne : Stone side ≠ Stone (opponent side)) by by destruct side.
  rewrite decide_False in H3 by done. rewrite decide_True in H3 by done.
  rewrite decide_False in H4 by done. rewrite decide_False in H4 by done.
  unfold applied. lia.
Qed.

(** C3. Applying a legal move (the placement and the flips of test2.py's
    [make_move], which returns nothing to the opponent) raises the moving
    side's count by [1 + |F|] and lowers the opponent's by [|F|]. *)
Theorem make_move_counts (g : game) (side : player) (r c : Z) :
  wf_board (board_of g) → (r, c) ∈ moves_of (board_of g) side →
  let F := flips_of (board_of g) side r c in
  ∃ g',
    Manual.make_move g side r c = Ok (g', (Some F, None)) ∧
    count_of side (board_of g')
    = (count_of side (board_of g) + (1 + length F))%nat ∧
    (count_of (opponent side) (board_of g') + length F
     = count_of (opponent side) (board_of g))%nat.
Proof.
  intros Hwf Hm F. eexists. split; [by apply manual_make_move_legal|].
  rewrite !count_of_board. simpl.
  destruct (applied_counts _ _ _ _ Hwf Hm) as [H1 H2]. fold F in H1, H2.
  lia.
Qed.

Lemma make_move_counts_witness :
  wf_board initial_board ∧ (2, 4) ∈ moves_of initial_board X ∧
  let g := Game initial_board X (Ext 3 3) in
  let F := flips_of initial_board X 2 4 in
  ∃ g',
    Manual.make_move g X 2 4 = Ok (g', (Some F, None)) ∧
    count_of X (board_of g') = (count_of X initial_board + (1 + length F))%nat ∧
    (count_of O (board_of g') + length F = count_of O initial_board)%nat.
Proof.
  split; [exact initial_board_wf|].
  split; [by apply (bool_decide_unpack _); vm_compute|].
  apply (make_move_counts (Game initial_board X (Ext 3 3)) X 2 4).
  - exact initial_board_wf.
  - by apply (bool_decide_unpack _); vm_compute.
Defined.

Lemma applied_frame (b : board) (side : player) (r c : Z) (q : coord) :
  wf_board b → (r, c) ∈ moves_of b side → inside_at q →
  cell_at (applied b side r c) q.1 q.2
  = if decide (q = (r, c) ∨ q ∈ flips_of b side r c) then Stone side
    else cell_at b q.1 q.2.
Proof.
  intros Hwf Hm Hq.
  destruct (legal_move_facts _ _ _ _ Hwf Hm) as (Hi & _ & _ & _ & Hall & _).
  unfold applied.
  rewrite cell_at_put_all; [|by apply board_put_wf|done|done].
  rewrite cell_at_put by done.
  repeat case_decide; try done; tauto.
Qed.

(** C9. A legal move at [(r, c)] with flips [F] leaves every cell of the
    grid outside [{(r, c)} ∪ F] as it was, in test2.py's [make_move] and
    in test.py's, whose returned cell, when there is one, is a member of
    [F]; both leave [current_player] and the two extension budgets
    unchanged. *)
Theorem make_move_frame (rnd : nat) (g : game) (side : player) (r c : Z) :
  wf_board (board_of g) → (r, c) ∈ moves_of (board_of g) side →
  let F := flips_of (board_of g) side r c in
  ∃ g1 g2 ret,
    Manual.make_move g side r c = Ok (g1, (Some F, None)) ∧
    Auto.make_move rnd g side r c = Ok (g2, (Some F, ret)) ∧
    (∀ pos, ret = Some pos → pos ∈ F) ∧
    ∀ g', g' = g1 ∨ g' = g2 →
      current_player g' = current_player g ∧
      extensions g' = extensions g ∧
      ∀ q, inside_at q → q ≠ (r, c) → q ∉ F →
           cell_at (board_of g') q.1 q.2 = cell_at (board_of g) q.1 q.2.
Proof.
  intros Hwf Hm F.
  assert (Hframe : ∀ q, inside_at q → q ≠ (r, c) → q ∉ F →
    cell_at (applied (board_of g) side r c) q.1 q.2
    = cell_at (board_of g) q.1 q.2).
  { intros q Hq Hne Hnin. rewrite applied_frame by done.
    rewrite decide_False; [done|]. tauto. }
  pose proof (auto_make_move_legal rnd g side r c Hwf Hm) as Hauto.
  cbv zeta in Hauto. fold F in Hauto.
  destruct (bool_decide (3 ≤ length F)%nat).
  - destruct Hauto as (pos & Hpos & Hrun).
    apply list_elem_of_lookup_2 in Hpos.
    eexists _, _, (Some pos).
    split; [by apply manual_make_move_legal|]. split; [exact Hrun|].
    split; [by intros ? [= <-]|].
    intros g' [->| ->]; (split; [done|]; split; [done|]); [done|].
    intros q Hq Hne Hnin. simpl.
    destruct (legal_move_facts _ _ _ _ Hwf Hm) as (_ & _ & _ & _ & Hall & _).
    rewrite cell_at_put; [|by apply applied_wf| |done].
    + rewrite decide_False; [by apply Hframe|].
      intros ->. apply Hnin. by rewrite <- surjective_pairing.
    + by apply (proj1 (list.Forall_forall _ _) Hall pos).
  - eexists _, _, None.
    split; [by apply manual_make_move_legal|]. split; [exact Hauto|].
    split; [done|].
    by intros g' [->| ->]; (split; [done|]; split; [done|]).
Qed.

Lemma make_move_frame_witness :
  wf_board initial_board ∧ (2, 4) ∈ moves_of initial_board X ∧
  let g := Game initial_board X (Ext 3 3) in
  let F := flips_of initial_board X 2 4 in
  ∃ g1 g2 ret,
    Manual.make_move g X 2 4 = Ok (g1, (Some F, None)) ∧
    Auto.make_move 0 g X 2 4 = Ok (g2, (Some F, ret)) ∧
    (∀ pos, ret = Some pos → pos ∈ F) ∧
    ∀ g', g' = g1 ∨ g' = g2 →
      current_player g' = current_player g ∧
      extensions g' = extensions g ∧
      ∀ q, inside_at q → q ≠ (2, 4) → q ∉ F →
           cell_at (board_of g') q.1 q.2 = cell_at initial_board q.1 q.2.
Proof.
  split; [exact initial_board_wf|].
  split; [by apply (bool_decide_unpack _); vm_compute|].
  apply (make_move_frame 0 (Game initial_board X (Ext 3 3)) X 2 4).
  - exact initial_board_wf.
  - by apply (bool_decide_unpack _); vm_compute.
Defined.

(** ** The target cell *)

Lemma holds_put_origin (b : board) (r c : Z) (v w : cell) (d : Z * Z)
    (k : nat) :
  wf_board b → inside r c = true → d ∈ directions → (1 ≤ k)%nat →
  holds (board_put b r c v) w (ray r c d k) ↔ holds b w (ray r c d k).
Proof.
  intros Hwf Hi Hd Hk. unfold holds.
  split; intros [Hq Hc]; (split; [done|]).
  - rewrite cell_at_put in Hc by done.
    rewrite decide_False in Hc; [done|]. by apply ray_not_origin.
  - rewrite cell_at_put by done.
    rewrite decide_False; [done|]. by apply ray_not_origin.
Qed.

Lemma contribution_put_origin (b : board) (side : player) (r c : Z)
    (v : cell) (d : Z * Z) (l : list coord) :
  wf_board b → inside r c = true → d ∈ directions →
  contribution b side r c d l → contribution (board_put b r c v) side r c d l.
Proof.
  intros Hwf Hi Hd (n & [Hrun Hstop] & Hl). exists n. split.
  - split.
    + intros k Hk. apply holds_put_origin; [done|done|done|lia|].
      by apply Hrun.
    + by rewrite holds_put_origin by (done || lia).
  - unfold bracketed in *.
    rewrite holds_put_origin by (done || lia). done.
Qed.

(** [get_flips] does not depend on what the target cell holds. *)
Lemma get_flips_put_origin (b : board) (side : player) (r c : Z) (v : cell) :
  wf_board b → inside r c = true →
  get_flips (board_put b r c v) side r c = get_flips b side r c.
Proof.
  intros Hwf Hi.
  pose proof (board_put_wf b r c v Hwf) as Hwf'.
  destruct (get_flips_ok b side r c Hwf) as [-> (ls & Hcs & Hl)].
  destruct (get_flips_ok _ side r c Hwf') as [-> Hs'].
  cut (flips_of (board_put b r c v) side r c = flips_of b side r c);
    [by intros ->|].
  apply (computeFlips_spec_unique (board_put b r c v) side r c); [done|].
  exists ls. split; [|done].
  apply Forall2_same_length_lookup_2; [by eapply Forall2_length|].
  intros i d l Hd Hlk.
  apply contribution_put_origin; [done|done|by eapply list_elem_of_lookup_2|].
  by apply (Forall2_lookup_lr _ _ _ _ _ _ Hcs Hd Hlk).
Qed.

(** C7, as the code has it. For every board, side and cell [(r, c)] of
    the grid that is not empty, the move is illegal because
    [get_valid_moves], which tests the target cell itself, never lists
    it; [get_flips] does not look at the target cell, and returns what it
    would return were the cell empty. *)
Theorem occupied_cell_is_not_a_legal_move (b : board) (side : player)
    (r c : Z) :
  wf_board b → inside r c = true → cell_at b r c ≠ Dot →
  get_valid_moves b side = Ok (moves_of b side) ∧
  ((r, c) ∉ moves_of b side) ∧
  get_flips b side r c = get_flips (board_put b r c Dot) side r c.
Proof.
  intros Hwf Hi Hocc. split_and!.
  - by apply get_valid_moves_ok.
  - intros [_ [Hd _]]%moves_of_elem; done.
  - by rewrite get_flips_put_origin.
Qed.

Lemma occupied_cell_is_not_a_legal_move_witness :
  wf_board three_moves_board ∧ inside 2 3 = true ∧
  cell_at three_moves_board 2 3 ≠ Dot ∧
  get_valid_moves three_moves_board O = Ok (moves_of three_moves_board O) ∧
  ((2, 3) ∉ moves_of three_moves_board O) ∧
  get_flips three_moves_board O 2 3
  = get_flips (board_put three_moves_board 2 3 Dot) O 2 3.
Proof.
  split; [exact three_moves_board_wf|].
  split; [reflexivity|]. split; [done|].
  apply (occupied_cell_is_not_a_legal_move three_moves_board O 2 3).
  - exact three_moves_board_wf.
  - reflexivity.
  - done.
Defined.

(** C7, as stated, fails: after X(2,4), O(2,3), X(3,2) the cell (2,3)
    holds an O, and [get_flips] for O at (2,3) returns [(3,3)]. *)
Lemma get_flips_on_occupied_cell_counterexample :
  (g ← new_game; play [(X, (2, 4)); (O, (2, 3)); (X, (3, 2))] g)
  = Ok (Game three_moves_board X (Ext 3 3)) ∧
  wf_board three_moves_board ∧
  inside 2 3 = true ∧
  cell_at three_moves_board 2 3 = Stone O ∧
  get_flips three_moves_board O 2 3 = Ok [(3, 3)] ∧
  get_flips three_moves_board O 2 3 ≠ Ok [].
Proof.
  split; [by vm_compute|]. split; [exact three_moves_board_wf|].
  split; [reflexivity|]. split; [reflexivity|]. split; [by vm_compute|].
  by vm_compute.
Qed.

(** ** The opening position *)

(** C8, as stated, fails: on the initial board (3,3) is Black's own
    piece, Black's move at (2,3) flips nothing and is not legal. *)
Lemma black_2_3_counterexample :
  cell_at initial_board 3 3 = Stone X ∧
  get_flips initial_board X 2 3 = Ok [] ∧
  get_valid_moves initial_board X = Ok [(2, 4); (3, 5); (4, 2); (5, 3)] ∧
  ¬ ((2, 3) ∈ moves_of initial_board X ∧
     get_flips initial_board X 2 3 = Ok [(3, 3)]).
Proof.
  split; [reflexivity|]. split; [by vm_compute|]. split; [by vm_compute|].
  intros [_ H]. by vm_compute in H.
Qed.

(** C8, as the code has it. On the initial board Black's move at (2,4)
    is legal, its flips are exactly [(3,4)], after it Black has 4 pieces
    and White 1, and nothing is returned: test.py's [make_move] answers
    with no return position whatever the random source, and a click on
    that cell in test2.py leaves no pending return. *)
Theorem black_opening_move (rnd : nat) :
  init_board empty_board = Ok initial_board ∧
  count_pieces initial_board = (2%nat, 2%nat) ∧
  (2, 4) ∈ moves_of initial_board X ∧
  get_flips initial_board X 2 4 = Ok [(3, 4)] ∧
  (∃ g', Manual.make_move (Game initial_board X (Ext 3 3)) X 2 4
         = Ok (g', (Some [(3, 4)], None)) ∧
         count_pieces (board_of g') = (4%nat, 1%nat) ∧
         Auto.make_move rnd (Game initial_board X (Ext 3 3)) X 2 4
         = Ok (g', (Some [(3, 4)], None))) ∧
  (∃ s s', Clock.new_gui = Ok s ∧
           Manual.handle_click 250 130 s = Ok s' ∧
           pending_return s' = None ∧
           binding s' = Some HandleClick ∧
           count_pieces (board_now s') = (4%nat, 1%nat)).
Proof.
  split; [reflexivity|]. split; [reflexivity|].
  split; [by apply (bool_decide_unpack _); vm_compute|].
  split; [by vm_compute|]. split.
  - eexists. split; [by vm_compute|]. split; [by vm_compute|]. by vm_compute.
  - eexists _, _. split; [by vm_compute|]. split; [by vm_compute|].
    by vm_compute.
Qed.

(** ** The clock *)

Import Clock.

Arguments get_valid_moves : simpl never.
Arguments get_flips : simpl never.
Arguments moves_of : simpl never.
Arguments flips_of : simpl never.
Arguments game_over : simpl never.
Arguments count_pieces : simpl never.
Arguments applied : simpl never.
Opaque get_valid_moves get_flips moves_of flips_of game_over count_pieces
  applied.

Lemma tick_not_at_zero (fuel : nat) (s : gui) :
  time_left s ≠ 0 → tick_fuel (S fuel) s = Ok (ticked s).
Proof.
  intros Hne. destruct s. simpl in *.
  unfold tick_over, ticked. simpl.
  by rewrite bool_decide_eq_false_2.
Qed.

Lemma start_turn_over_started (fuel : nat) (s : gui) :
  start_turn_over (tick_fuel (S fuel)) s = Ok (started s).
Proof.
  unfold start_turn_over, started. apply tick_not_at_zero. by destruct s.
Qed.

Lemma start_turn_started (s : gui) : start_turn s = Ok (started s).
Proof. apply start_turn_over_started. Qed.

Lemma switch_player_over_fuel (fuel : nat) (s : gui) :
  switch_player_over (tick_fuel (S fuel)) s = switch_player s.
Proof.
  unfold switch_player, switch_player_over, tick.
  by rewrite !start_turn_over_started.
Qed.

Lemma handle_timeout_over_fuel (fuel : nat) (s : gui) :
  handle_timeout_over (tick_fuel (S fuel)) s = handle_timeout s.
Proof.
  unfold handle_timeout, handle_timeout_over, tick.
  rewrite !switch_player_over_fuel.
  case_bool_decide; [|done].
  rewrite !tick_not_at_zero; [done|by destruct s..].
Qed.

Lemma tick_fuel_S (fuel : nat) (s : gui) :
  tick_fuel (S fuel) s = tick_over (handle_timeout_over (tick_fuel fuel)) s.
Proof. reflexivity. Qed.

(** The fuel of [tick] is enough: more changes nothing. *)
Lemma tick_fuel_stable (fuel : nat) (s : gui) :
  tick_fuel (S (S fuel)) s = tick s.
Proof.
  unfold tick. rewrite !tick_fuel_S. unfold tick_over.
  by rewrite !handle_timeout_over_fuel.
Qed.

Lemma tick_at_zero (s : gui) :
  time_left s = 0 → tick s = handle_timeout (set_timer_label (Some 0) s).
Proof.
  intros Hz. unfold tick. rewrite tick_fuel_S. unfold tick_over.
  rewrite handle_timeout_over_fuel.
  destruct s. simpl in *. subst. done.
Qed.

Lemma opponent_twice_turn (s : gui) :
  player_now (turn_to (opponent (player_now
     (log_move LogPass (turn_to (opponent (player_now s)) s))))
     (log_move LogPass (turn_to (opponent (player_now s)) s)))
  = player_now s.
Proof. destruct s as [[b p e]]. simpl. apply opponent_involutive. Qed.

(** [switch_player], case by case. *)
Lemma switch_player_cases (s : gui) :
  wf_board (board_now s) →
  let p := player_now s in
  let b := board_now s in
  switch_player s =
  if decide (moves_of b (opponent p) ≠ []) then
    Ok (started (turn_to (opponent p) s))
  else if decide (moves_of b p = []) then
    Ok (finish_game (turn_to p (log_move LogPass (turn_to (opponent p) s))))
  else
    Ok (started (turn_to p (log_move LogPass (turn_to (opponent p) s)))).
Proof.
  intros Hwf p b. unfold switch_player, switch_player_over.
  fold start_turn.
  assert (Hb1 : board_now (turn_to (opponent (player_now s)) s) = b)
    by by destruct s as [[]].
  assert (Hp1 : player_now (turn_to (opponent (player_now s)) s) = opponent p)
    by by destruct s as [[]].
  rewrite Hb1, Hp1.
  destruct (get_valid_moves_ok b (opponent p) Hwf) as [-> _]. rewrite bind_Ok.
  destruct (decide (moves_of b (opponent p) ≠ [])) as [Hm|Hm].
  - rewrite (bool_decide_eq_true_2 _ Hm). apply start_turn_started.
  - rewrite (bool_decide_eq_false_2 _ Hm).
    assert (Hb2 : board_now (log_move LogPass (turn_to (opponent (player_now s)) s)) = b)
      by by destruct s as [[]].
    assert (Hp2 : player_now (log_move LogPass (turn_to (opponent (player_now s)) s))
                  = opponent p) by by destruct s as [[]].
    assert (Hb3 : ∀ q, board_now (turn_to q
                    (log_move LogPass (turn_to (opponent (player_now s)) s))) = b)
      by by destruct s as [[]].
    assert (Hp3 : ∀ q, player_now (turn_to q
                    (log_move LogPass (turn_to (opponent (player_now s)) s))) = q)
      by by destruct s as [[]].
    rewrite Hp2, Hb3, Hp3, opponent_involutive.
    destruct (get_valid_moves_ok b p Hwf) as [-> _]. rewrite bind_Ok.
    destruct (decide (moves_of b p = [])) as [Hm'|Hm'].
    + by rewrite (bool_decide_eq_true_2 _ Hm').
    + rewrite (bool_decide_eq_false_2 _ Hm'). apply start_turn_started.
Qed.

(** Opens a GUI state into its fields and computes the projections. *)
Ltac open_gui s :=
  destruct s as [[?b ?p [?ex ?eo]] ?ai ?bind ?st ?lbl ?lg [?id|] ?tl ?pend
                 ?orig ?queue ?next ?dlg];
  cbn in *.

Lemma finish_game_fields (s : gui) :
  let s' := finish_game s in
  game_of s' = game_of s ∧ log s' = log s ∧
  binding s' = None ∧ status s' = Some StatusOver ∧
  length (dialogs s') = S (length (dialogs s)) ∧
  time_left s' = time_left s ∧ timer_label s' = timer_label s ∧
  next_after s' = next_after s ∧ timer_id s' = None ∧
  pending_return s' = pending_return s ∧
  return_origin s' = return_origin s.
Proof.
  unfold finish_game, announce_result, stop_timer, board_now.
  open_gui s; destruct (count_pieces _); cbn;
    rewrite length_app; cbn; split_and!; (done || lia).
Qed.

Lemma started_fields (s : gui) :
  let s' := started s in
  game_of s' = game_of s ∧ log s' = log s ∧
  binding s' = binding s ∧ dialogs s' = dialogs s ∧
  status s' = Some (StatusPlayer (player_now s)) ∧
  timer_label s' = Some 60 ∧ time_left s' = 59 ∧
  timer_id s' = Some (next_after s) ∧
  after_queue s' = after_queue s ++ [(next_after s, CbTick)] ∧
  pending_return s' = pending_return s ∧
  return_origin s' = return_origin s.
Proof. open_gui s; by split_and!. Qed.

(** What every call of [switch_player] leaves: the board and the budgets
    as they were, the turn and the log according to the opponent's
    moves. *)
Lemma switch_player_outcome (s : gui) :
  wf_board (board_now s) →
  let p := player_now s in
  ∃ s', switch_player s = Ok s' ∧
    board_now s' = board_now s ∧
    extensions (game_of s') = extensions (game_of s) ∧
    (moves_of (board_now s) (opponent p) ≠ [] →
       s' = started (turn_to (opponent p) s) ∧
       player_now s' = opponent p ∧ log s' = log s ∧ time_left s' = 59) ∧
    (moves_of (board_now s) (opponent p) = [] →
       player_now s' = p ∧ log s' = log s ++ [LogPass] ∧
       (moves_of (board_now s) p = [] →
          s' = finish_game (turn_to p (log_move LogPass (turn_to (opponent p) s)))) ∧
       (moves_of (board_now s) p ≠ [] →
          s' = started (turn_to p (log_move LogPass (turn_to (opponent p) s))))).
Proof.
  intros Hwf p. rewrite switch_player_cases by done. fold p.
  generalize (moves_of (board_now s) (opponent p)) (moves_of (board_now s) p).
  intros mo mp.
  set (s2 := turn_to p (log_move LogPass (turn_to (opponent p) s))).
  assert (Hs2 : game_of s2 = set_current_player p (game_of s) ∧
                log s2 = log s ++ [LogPass]).
  { subst s2 p. by destruct s as [[]]. }
  destruct Hs2 as [Hg2 Hl2].
  assert (Hs1 : game_of (turn_to (opponent p) s)
                = set_current_player (opponent p) (game_of s) ∧
                log (turn_to (opponent p) s) = log s)
    by (by destruct s as [[]]).
  destruct Hs1 as [Hg1 Hl1].
  assert (Hpp : set_current_player p (game_of s) = game_of s)
    by (subst p; by destruct s as [[]]).
  destruct (decide (mo ≠ [])) as [Hmo|Hmo].
  - eexists. split; [reflexivity|].
    destruct (started_fields (turn_to (opponent p) s))
      as (Hg & Hlog & _ & _ & _ & _ & Ht & _).
    unfold board_now, player_now. rewrite Hg, Hg1, Hlog, Hl1.
    split; [reflexivity|]. split; [reflexivity|]. split.
    + intros _. by split_and!.
    + intros Hc. exfalso. exact (Hmo Hc).
  - destruct (decide (mp = [])) as [Hmp|Hmp].
    + eexists. split; [reflexivity|].
      destruct (finish_game_fields s2) as (Hg & Hlog & _).
      unfold board_now, player_now. rewrite Hg, Hg2, Hlog, Hl2, Hpp.
      split; [reflexivity|]. split; [reflexivity|]. split.
      * intros Hc. exfalso. exact (Hmo Hc).
      * intros _. split; [reflexivity|]. split; [reflexivity|]. split.
        -- intros _. reflexivity.
        -- intros Hc. exfalso. exact (Hc Hmp).
    + eexists. split; [reflexivity|].
      destruct (started_fields s2) as (Hg & Hlog & _).
      unfold board_now, player_now. rewrite Hg, Hg2, Hlog, Hl2, Hpp.
      split; [reflexivity|]. split; [reflexivity|]. split.
      * intros Hc. exfalso. exact (Hmo Hc).
      * intros _. split; [reflexivity|]. split; [reflexivity|]. split.
        -- intros Hc. exfalso. exact (Hmp Hc).
        -- intros _. reflexivity.
Qed.

(** X1. Whenever [switch_player] finds the side it switched to without a
    legal move, it logs PASS and gives the turn back to the original
    side. If that side has no legal move either, the game is finished at
    once: the dialog is shown and the canvas unbound without any turn
    having been started (the clock, its label and the scheduled callbacks
    are as before). If it has one, its turn starts and the game is not
    finished: a single pass does not end the game. *)
Theorem forced_pass (s : gui) :
  wf_board (board_now s) →
  moves_of (board_now s) (opponent (player_now s)) = [] →
  let p := player_now s in
  ∃ s', switch_player s = Ok s' ∧
    log s' = log s ++ [LogPass] ∧
    player_now s' = p ∧
    board_now s' = board_now s ∧
    (moves_of (board_now s) p = [] →
       binding s' = None ∧ status s' = Some StatusOver ∧
       length (dialogs s') = S (length (dialogs s)) ∧
       time_left s' = time_left s ∧ timer_label s' = timer_label s ∧
       next_after s' = next_after s ∧ timer_id s' = None) ∧
    (moves_of (board_now s) p ≠ [] →
       binding s' = binding s ∧ dialogs s' = dialogs s ∧
       status s' = Some (StatusPlayer p) ∧
       timer_label s' = Some 60 ∧ time_left s' = 59 ∧
       timer_id s' = Some (next_after s)).
Proof.
  intros Hwf Hopp p. rewrite switch_player_cases by done.
  rewrite decide_False by (by intros H; apply H).
  fold p. set (s2 := turn_to p (log_move LogPass (turn_to (opponent p) s))).
  assert (Hs2 : log s2 = log s ++ [LogPass] ∧ player_now s2 = p ∧
                board_now s2 = board_now s ∧ binding s2 = binding s ∧
                dialogs s2 = dialogs s ∧ time_left s2 = time_left s ∧
                timer_label s2 = timer_label s ∧ next_after s2 = next_after s).
  { subst s2 p. unfold board_now, player_now. open_gui s; by split_and!. }
  destruct Hs2 as (Hl & Hp & Hb & Hbind & Hd & Ht & Hlbl & Hn).
  destruct (decide (moves_of (board_now s) p = [])) as [Hm|Hm].
  - exists (finish_game s2). split; [reflexivity|].
    destruct (finish_game_fields s2)
      as (Hg & Hlog & Hb' & Hst & Hdl & Htl & Hlb & Hnx & Htid & _).
    unfold player_now, board_now in *. rewrite Hg, Hlog.
    split; [exact Hl|]. split; [exact Hp|]. split; [exact Hb|]. split.
    + intros _. rewrite Hb', Hst, Hdl, Htl, Hlb, Hnx, Htid, Hd, Ht, Hlbl, Hn.
      by repeat split.
    + intros Hc. exfalso. exact (Hc Hm).
  - exists (started s2). split; [reflexivity|].
    destruct (started_fields s2)
      as (Hg & Hlog & Hb' & Hdl & Hst & Hlb & Htl & Htid & _).
    unfold player_now, board_now in *. rewrite Hg, Hlog.
    split; [exact Hl|]. split; [exact Hp|]. split; [exact Hb|]. split.
    + intros Hc. exfalso. exact (Hm Hc).
    + intros _. rewrite Hb', Hdl, Hst, Hlb, Htl, Htid, Hp, Hbind, Hd, Hn.
      by repeat split.
Qed.

Lemma pass_board_wf : wf_board pass_board.
Proof. split; [reflexivity|]. by repeat constructor. Qed.

Lemma forced_pass_witness :
  wf_board (board_now pass_gui) ∧
  moves_of (board_now pass_gui) (opponent (player_now pass_gui)) = [] ∧
  ∃ s', switch_player pass_gui = Ok s' ∧
    log s' = log pass_gui ++ [LogPass] ∧
    player_now s' = player_now pass_gui ∧
    time_left s' = 59.
Proof.
  split; [exact pass_board_wf|]. split; [by vm_compute|].
  destruct (forced_pass pass_gui pass_board_wf ltac:(by vm_compute))
    as (s' & Hrun & Hlog & Hp & _ & _ & Hgo).
  exists s'. split; [exact Hrun|]. split; [exact Hlog|]. split; [exact Hp|].
  apply Hgo. by vm_compute.
Defined.

(** X2. When the side [switch_player] switches to has a legal move, the
    turn is that side's: nothing is logged, the board and the budgets are
    as before, the status names the new side, and its clock starts (the
    label shows 60, one tick is scheduled). *)
Theorem turn_passes (s : gui) :
  wf_board (board_now s) →
  moves_of (board_now s) (opponent (player_now s)) ≠ [] →
  ∃ s', switch_player s = Ok s' ∧
    player_now s' = opponent (player_now s) ∧
    log s' = log s ∧
    board_now s' = board_now s ∧
    extensions (game_of s') = extensions (game_of s) ∧
    status s' = Some (StatusPlayer (opponent (player_now s))) ∧
    timer_label s' = Some 60 ∧ time_left s' = 59 ∧
    binding s' = binding s ∧ dialogs s' = dialogs s ∧
    timer_id s' = Some (next_after s) ∧
    after_queue s' = after_queue s ++ [(next_after s, CbTick)].
Proof.
  intros Hwf Hopp. rewrite switch_player_cases by done.
  rewrite decide_True by exact Hopp.
  eexists. split; [reflexivity|].
  unfold player_now, board_now. open_gui s; by split_and!.
Qed.

Lemma turn_passes_witness :
  wf_board initial_board ∧
  moves_of initial_board (opponent O) ≠ [] ∧
  ∃ s', switch_player (idle_gui (Game initial_board O (Ext 3 3))) = Ok s' ∧
    player_now s' = X ∧ time_left s' = 59.
Proof.
  split; [exact initial_board_wf|]. split; [by vm_compute|].
  destruct (turn_passes (idle_gui (Game initial_board O (Ext 3 3)))
              initial_board_wf ltac:(by vm_compute))
    as (s' & Hrun & Hp & _ & _ & _ & _ & _ & Ht & _).
  exists s'. split; [exact Hrun|]. split; [exact Hp|exact Ht].
Defined.

Lemma ticked_fields (s : gui) :
  let s' := ticked s in
  game_of s' = game_of s ∧ log s' = log s ∧
  binding s' = binding s ∧ dialogs s' = dialogs s ∧
  status s' = status s ∧
  timer_label s' = Some (time_left s) ∧ time_left s' = time_left s - 1 ∧
  timer_id s' = Some (next_after s) ∧
  after_queue s' = after_queue s ++ [(next_after s, CbTick)] ∧
  pending_return s' = pending_return s ∧
  return_origin s' = return_origin s.
Proof. open_gui s; by split_and!. Qed.

(** X3. [handle_timeout]. With an extension left, exactly one is taken
    from the side to move, the countdown restarts at 60 and ticks on (the
    label shows 60, a tick is scheduled), and nothing else changes: no
    PASS, same side, same board. With none left, PASS is logged and
    [switch_player] takes over, whether or not the side has legal moves;
    when the opponent can move, the turn is the opponent's. A [tick] that
    finds the countdown at 0 is a call of [handle_timeout]. *)
Theorem timeout_handling (s : gui) :
  wf_board (board_now s) →
  let p := player_now s in
  (time_left s = 0 → tick s = handle_timeout (set_timer_label (Some 0) s)) ∧
  (0 < budget s p →
     ∃ s', handle_timeout s = Ok s' ∧
       budget s' p = budget s p - 1 ∧
       budget s' (opponent p) = budget s (opponent p) ∧
       timer_label s' = Some 60 ∧ time_left s' = 59 ∧
       timer_id s' = Some (next_after s) ∧
       after_queue s' = after_queue s ++ [(next_after s, CbTick)] ∧
       log s' = log s ∧ player_now s' = p ∧
       board_now s' = board_now s ∧ binding s' = binding s) ∧
  (budget s p ≤ 0 →
     handle_timeout s = switch_player (log_move LogPass s) ∧
     ∃ s' rest, handle_timeout s = Ok s' ∧
       log s' = log s ++ LogPass :: rest ∧
       extensions (game_of s') = extensions (game_of s) ∧
       board_now s' = board_now s ∧
       (moves_of (board_now s) (opponent p) ≠ [] →
          player_now s' = opponent p ∧ rest = [] ∧ time_left s' = 59)).
Proof.
  intros Hwf p. split; [apply tick_at_zero|]. split.
  - intros Hb. unfold handle_timeout, handle_timeout_over. fold p.
    unfold budget in Hb. rewrite bool_decide_eq_true_2 by exact Hb.
    fold tick. unfold tick. rewrite tick_not_at_zero by (by destruct s).
    eexists. split; [reflexivity|].
    unfold budget, player_now, board_now, p.
    open_gui s; destruct p0; cbn; split_and!; (done || lia).
  - intros Hb. unfold handle_timeout, handle_timeout_over. fold p.
    unfold budget in Hb. rewrite bool_decide_eq_false_2 by lia.
    fold switch_player. split; [reflexivity|].
    set (s1 := log_move LogPass s).
    assert (Hs1 : board_now s1 = board_now s ∧ player_now s1 = p ∧
                  log s1 = log s ++ [LogPass] ∧
                  extensions (game_of s1) = extensions (game_of s)).
    { subst s1 p. unfold board_now, player_now. open_gui s; by split_and!. }
    destruct Hs1 as (Hb1 & Hp1 & Hl1 & He1).
    assert (Hwf1 : wf_board (board_now s1)) by (by rewrite Hb1).
    destruct (switch_player_outcome s1 Hwf1)
      as (s' & Hrun & Hb' & He' & Hgo & Hpass).
    rewrite Hb1, Hp1 in Hgo, Hpass.
    revert Hgo Hpass. generalize (moves_of (board_now s) (opponent p)).
    intros mo Hgo Hpass.
    destruct (decide (mo = [])) as [Hm|Hm].
    + destruct (Hpass Hm) as (Hp' & Hlog & _).
      exists s', [LogPass]. split; [exact Hrun|].
      rewrite Hlog, Hl1, <- app_assoc. split; [reflexivity|].
      split; [rewrite He'; exact He1|]. split; [rewrite Hb'; exact Hb1|].
      intros Hc. exfalso. exact (Hc Hm).
    + destruct (Hgo Hm) as (_ & Hp' & Hlog & Ht).
      exists s', []. split; [exact Hrun|].
      rewrite Hlog, Hl1. split; [reflexivity|].
      split; [rewrite He'; exact He1|]. split; [rewrite Hb'; exact Hb1|].
      intros _. split; [exact Hp'|]. split; [reflexivity|exact Ht].
Qed.

Lemma timeout_handling_witness :
  wf_board (board_now pass_gui) ∧
  ∃ s', handle_timeout pass_gui = Ok s' ∧
    budget s' X = 2 ∧ budget s' O = 3 ∧ time_left s' = 59.
Proof.
  split; [exact pass_board_wf|].
  destruct (timeout_handling pass_gui pass_board_wf) as (_ & Hext & _).
  destruct (Hext ltac:(by vm_compute))
    as (s' & Hrun & Hb & Hb' & _ & Ht & _).
  exists s'. split; [exact Hrun|]. split; [exact Hb|]. split; [exact Hb'|exact Ht].
Defined.

(** X4. [use_extension]. A request is ignored, the whole state left as it
    is, when the side to move has no extension or the countdown is at 120
    or more. Otherwise one extension is taken from the side to move and
    60 seconds are added, the countdown capped at 120; the other budget,
    the board, the turn, the log and the scheduled tick are untouched. *)
Theorem use_extension_effect (s : gui) :
  let p := player_now s in
  (budget s p = 0 ∨ 120 ≤ time_left s → use_extension s = s) ∧
  (budget s p ≠ 0 ∧ time_left s < 120 →
     let s' := use_extension s in
     budget s' p = budget s p - 1 ∧
     budget s' (opponent p) = budget s (opponent p) ∧
     time_left s' = Z.min 120 (time_left s + 60) ∧
     board_now s' = board_now s ∧ player_now s' = p ∧
     log s' = log s ∧ binding s' = binding s ∧
     timer_id s' = timer_id s ∧ after_queue s' = after_queue s ∧
     dialogs s' = dialogs s).
Proof.
  intros p. unfold use_extension. fold p. fold (budget s p). split.
  - intros [Hb|Ht].
    + by rewrite (bool_decide_eq_true_2 _ Hb).
    + rewrite (bool_decide_eq_true_2 (120 ≤ time_left s) Ht).
      by rewrite orb_true_r.
  - intros [Hb Ht].
    rewrite (bool_decide_eq_false_2 _ Hb).
    rewrite (bool_decide_eq_false_2 (120 ≤ time_left s)) by lia.
    cbn [orb]. unfold budget, player_now, board_now in *. subst p.
    open_gui s; destruct p; cbn in *; case_bool_decide; cbn;
      split_and!; (done || lia).
Qed.

(** ** More on the moves *)

Lemma all_cells_NoDup : NoDup all_cells.
Proof. apply (bool_decide_unpack _). by vm_compute. Qed.

(** X5. [get_valid_moves] returns, without repetition and in row-major
    order, exactly the empty cells of the grid for which [get_flips]
    returns a non-empty list. *)
Theorem get_valid_moves_exact (b : board) (side : player) :
  wf_board b →
  ∃ moves, get_valid_moves b side = Ok moves ∧
    moves = filter (legal b side) all_cells ∧
    NoDup moves ∧
    ∀ r c, (r, c) ∈ moves ↔
      inside r c = true ∧ cell_at b r c = Dot ∧
      ∃ F, get_flips b side r c = Ok F ∧ F ≠ [].
Proof.
  intros Hwf. destruct (get_valid_moves_ok b side Hwf) as [Hrun Hfil].
  exists (moves_of b side). split; [exact Hrun|]. split; [exact Hfil|]. split.
  - rewrite Hfil. apply list.NoDup_filter, all_cells_NoDup.
  - intros r c. rewrite moves_of_elem by exact Hwf.
    unfold inside_at, legal. cbn [fst snd].
    destruct (get_flips_ok b side r c Hwf) as [Hg _]. split.
    + intros (Hi & Hd & Hf). split; [exact Hi|]. split; [exact Hd|].
      exists (flips_of b side r c). by split.
    + intros (Hi & Hd & F & HF & Hne). split; [exact Hi|]. split; [exact Hd|].
      rewrite Hg in HF. injection HF as <-. exact Hne.
Qed.

Lemma get_valid_moves_exact_witness :
  wf_board initial_board ∧
  ∃ moves, get_valid_moves initial_board X = Ok moves ∧
    moves = filter (legal initial_board X) all_cells ∧
    NoDup moves ∧
    ∀ r c, (r, c) ∈ moves ↔
      inside r c = true ∧ cell_at initial_board r c = Dot ∧
      ∃ F, get_flips initial_board X r c = Ok F ∧ F ≠ [].
Proof.
  split; [exact initial_board_wf|].
  exact (get_valid_moves_exact initial_board X initial_board_wf).
Defined.



Lemma applied_unfold (b : board) (side : player) (r c : Z) :
  applied b side r c
  = put_all (board_put b r c side) side (flips_of b side r c).
Proof. with_strategy transparent [applied] reflexivity. Qed.

(** X7. The return rule of test.py's [make_move]. On a legal move with
    flips [F]: when [|F| ≥ 3] one member of [F], the one the random
    source picks, holds the opponent again afterwards and every other
    member of [F] holds the mover, so the mover gains [|F|] pieces and
    the opponent loses [|F| - 1]; when [|F| < 3] nothing is returned and
    the result is the one of test2.py's [make_move]. Either way the
    target holds the mover, the board keeps its shape and has one empty
    cell less. *)
Theorem auto_return_rule (rnd : nat) (g : game) (side : player) (r c : Z) :
  wf_board (board_of g) → (r, c) ∈ moves_of (board_of g) side →
  let b := board_of g in
  let F := flips_of b side r c in
  ∃ g2 ret,
    Auto.make_move rnd g side r c = Ok (g2, (Some F, ret)) ∧
    wf_board (board_of g2) ∧
    (count_board Dot (board_of g2) + 1 = count_board Dot b)%nat ∧
    cell_at (board_of g2) r c = Stone side ∧
    ((length F < 3)%nat →
       ret = None ∧
       Manual.make_move g side r c = Ok (g2, (Some F, None))) ∧
    ((3 ≤ length F)%nat →
       ∃ pos, ret = Some pos ∧ F !! (rnd `mod` length F)%nat = Some pos ∧
         cell_at (board_of g2) pos.1 pos.2 = Stone (opponent side) ∧
         (∀ q, q ∈ F → q ≠ pos → cell_at (board_of g2) q.1 q.2 = Stone side) ∧
         count_of side (board_of g2) = (count_of side b + length F)%nat ∧
         (count_of (opponent side) (board_of g2) + length F
          = count_of (opponent side) b + 1)%nat).
Proof.
  intros Hwf Hm b F.
  destruct (legal_move_facts _ _ _ _ Hwf Hm)
    as (Hi & Hd & Hne & _ & Hall & _).
  fold b F in Hi, Hd, Hne, Hall.
  pose proof (applied_wf b side r c Hwf) as Hwfa.
  assert (Hrc : cell_at (applied b side r c) r c = Stone side).
  { pose proof (applied_frame b side r c (r, c) Hwf Hm Hi) as H.
    cbn [fst snd] in H. rewrite H. rewrite decide_True; [done|by left]. }
  (* the empty cells: only the target stops being empty *)
  assert (Hdot : (count_board Dot (applied b side r c) + 1
                  = count_board Dot b)%nat).
  { rewrite applied_unfold. fold F.
    pose proof (count_board_put Dot b r c side Hwf Hi) as H1.
    unfold one_if in H1. rewrite decide_True in H1 by exact Hd.
    rewrite decide_False in H1 by done.
    assert (H2 : ∀ l b1, wf_board b1 →
      (∀ q, q ∈ l → inside_at q ∧ cell_at b1 q.1 q.2 ≠ Dot) →
      count_board Dot (put_all b1 side l) = count_board Dot b1).
    { clear. induction l as [|[x y] l IH]; intros b1 Hwf1 Hl; [done|].
      change (put_all b1 side ((x, y) :: l))
        with (put_all (board_put b1 x y side) side l).
      destruct (Hl (x, y)) as [Hxy Hc]; [by left|].
      rewrite IH; [|by apply board_put_wf|].
      - pose proof (count_board_put Dot b1 x y side Hwf1 Hxy) as H.
        unfold one_if in H. rewrite decide_False in H by exact Hc.
        rewrite decide_False in H by done. lia.
      - intros q Hq. destruct (Hl q) as [Hqi Hqc]; [by right|].
        split; [done|]. rewrite cell_at_put by done. by case_decide. }
    rewrite H2; [lia|by apply board_put_wf|].
    intros q Hq. destruct (flips_of_elem b side r c q Hwf Hq) as (Hqi & Hqc & Hqn).
    split; [done|]. rewrite cell_at_put by done.
    rewrite decide_False by done. by rewrite Hqc. }
  pose proof (auto_make_move_legal rnd g side r c Hwf Hm) as Hauto.
  cbv zeta in Hauto. fold b F in Hauto.
  destruct (decide (3 ≤ length F)%nat) as [H3|H3].
  - rewrite (bool_decide_eq_true_2 _ H3) in Hauto.
    destruct Hauto as (pos & Hpos & Hrun).
    pose proof (list_elem_of_lookup_2 _ _ _ Hpos) as HposF.
    pose proof (proj1 (list.Forall_forall _ _) Hall pos HposF) as Hposi.
    assert (Hposc : cell_at (applied b side r c) pos.1 pos.2 = Stone side).
    { rewrite (applied_frame b side r c pos) by done.
      rewrite decide_True; [done|by right]. }
    destruct (flips_of_elem b side r c pos Hwf HposF) as (_ & _ & Hposn).
    eexists _, (Some pos). split; [exact Hrun|]. cbn [board_of set_board].
    split; [by apply board_put_wf|]. split.
    { pose proof (count_board_put Dot (applied b side r c) pos.1 pos.2
                    (opponent side) Hwfa Hposi) as H.
      unfold one_if in H. rewrite Hposc in H.
      rewrite !decide_False in H by done. lia. }
    split.
    { pose proof (cell_at_put (applied b side r c) pos.1 pos.2
                    (opponent side) (r, c) Hwfa Hposi Hi) as H.
      cbn [fst snd] in H. rewrite H.
      rewrite decide_False; [exact Hrc|].
      intros Heq. apply Hposn. by rewrite Heq, <- surjective_pairing. }
    split; [intros; lia|]. intros _. exists pos.
    split; [reflexivity|]. split; [exact Hpos|]. split.
    { by apply cell_at_put_same. }
    split.
    { intros q Hq Hqn.
      pose proof (proj1 (list.Forall_forall _ _) Hall q Hq) as Hqi.
      rewrite cell_at_put by done.
      rewrite decide_False.
      - rewrite (applied_frame b side r c q) by done.
        rewrite decide_True; [done|by right].
      - intros ->. apply Hqn. by rewrite <- surjective_pairing. }
    destruct (applied_counts b side r c Hwf Hm) as [Hc1 Hc2]. fold F in Hc1, Hc2.
    pose proof (count_board_put side (applied b side r c) pos.1 pos.2
                  (opponent side) Hwfa Hposi) as H1.
    pose proof (count_board_put (opponent side) (applied b side r c)
                  pos.1 pos.2 (opponent side) Hwfa Hposi) as H2.
    unfold one_if in H1, H2. rewrite Hposc in H1, H2.
    pose proof (opponent_neq side) as Hopp.
    rewrite decide_True in H1 by done.
    rewrite decide_False in H1 by (intros [=]; by apply Hopp).
    rewrite decide_False in H2 by (intros [=]; by apply Hopp).
    rewrite decide_True in H2 by done.
    rewrite !count_of_board. lia.
  - rewrite (bool_decide_eq_false_2 _ H3) in Hauto.
    eexists _, None. split; [exact Hauto|]. cbn [board_of set_board].
    split; [exact Hwfa|]. split; [exact Hdot|]. split; [exact Hrc|].
    split; [|intros; lia]. intros _. split; [reflexivity|].
    by apply manual_make_move_legal.
Qed.

Lemma triple_board_wf : wf_board triple_board.
Proof. split; [reflexivity|]. by repeat constructor. Qed.

Lemma auto_return_rule_witness :
  wf_board triple_board ∧ (0, 4) ∈ moves_of triple_board X ∧
  flips_of triple_board X 0 4 = [(0, 3); (0, 2); (0, 1)] ∧
  ∃ g2 ret,
    Auto.make_move 1 (Game triple_board X (Ext 3 3)) X 0 4
    = Ok (g2, (Some [(0, 3); (0, 2); (0, 1)], ret)) ∧
    ret = Some (0, 2) ∧
    cell_at (board_of g2) 0 2 = Stone O ∧
    count_of X (board_of g2) = 4%nat.
Proof.
  assert (Hm : (0, 4) ∈ moves_of triple_board X)
    by (by apply (bool_decide_unpack _); vm_compute).
  assert (HF : flips_of triple_board X 0 4 = [(0, 3); (0, 2); (0, 1)])
    by (by vm_compute).
  split; [exact triple_board_wf|]. split; [exact Hm|]. split; [exact HF|].
  destruct (auto_return_rule 1 (Game triple_board X (Ext 3 3)) X 0 4
              triple_board_wf Hm)
    as (g2 & ret & Hrun & _ & _ & _ & _ & H3).
  cbn zeta in Hrun, H3. cbn [board_of] in Hrun, H3. rewrite HF in Hrun, H3.
  destruct (H3 ltac:(cbn; lia)) as (pos & -> & Hpos & Hc & _ & Hx & _).
  injection Hpos as <-.
  exists g2, (Some (0, 2)). split; [exact Hrun|]. split; [reflexivity|].
  split; [exact Hc|]. rewrite Hx. by vm_compute.
Defined.

(** ** The end of the game *)

Lemma game_over_unfold (b : board) :
  game_over b =
  if full b then mret true
  else if bool_decide (count_board X b = 0%nat)
          || bool_decide (count_board O b = 0%nat) then mret true
  else
    mx ← get_valid_moves b X;
    if bool_decide (mx = []) then
      mo ← get_valid_moves b O;
      if bool_decide (mo = []) then mret true else mret false
    else mret false.
Proof. with_strategy transparent [game_over count_pieces] reflexivity. Qed.

Lemma full_no_dot (b : board) (x y : Z) :
  wf_board b → full b = true → inside x y = true → cell_at b x y ≠ Dot.
Proof.
  intros Hwf Hfull [Hx Hy]%inside_spec.
  destruct (wf_row b x Hwf Hx) as (row & Hrow & Hlen).
  destruct (lookup_lt_is_Some_2 row (Z.to_nat y)) as [v Hv]; [lia|].
  unfold cell_at. rewrite Hrow, Hv. simpl.
  unfold full in Hfull. rewrite forallb_forall in Hfull.
  specialize (Hfull row). rewrite forallb_forall in Hfull.
  apply list_elem_of_lookup_2, list_elem_of_In in Hrow, Hv.
  specialize (Hfull Hrow v Hv). by apply bool_decide_eq_true in Hfull.
Qed.

Lemma holds_counted (b : board) (v : cell) (x y : Z) :
  wf_board b → inside x y = true → cell_at b x y = v →
  (0 < count_board v b)%nat.
Proof.
  intros Hwf Hi Hc.
  destruct (decide (v = Dot)) as [->|Hv].
  - pose proof (count_board_put Dot b x y (Stone X) Hwf Hi) as H.
    unfold one_if in H. rewrite decide_True in H by exact Hc.
    rewrite decide_False in H by done. lia.
  - pose proof (count_board_put v b x y Dot Hwf Hi) as H.
    unfold one_if in H. rewrite decide_True in H by exact Hc.
    rewrite decide_False in H by (by intros <-). lia.
Qed.

(** A move that flips something has a piece of each colour on the board:
    the flipped ones and the one that closes the run. *)
Lemma flips_need_both_colours (b : board) (side : player) (r c : Z) :
  wf_board b → flips_of b side r c ≠ [] →
  (0 < count_board (Stone side) b)%nat ∧
  (0 < count_board (Stone (opponent side)) b)%nat.
Proof.
  intros Hwf Hne. destruct (get_flips_ok b side r c Hwf) as [_ Hs].
  destruct (flips_of b side r c) as [|q l] eqn:E; [done|].
  destruct Hs as (ls & Hcs & Hl).
  assert (Hq : q ∈ mjoin ls) by (rewrite <- Hl; by left).
  apply list_elem_of_join in Hq as (lq & Hq & Hlq).
  apply list_elem_of_lookup in Hlq as [i Hi].
  destruct (Forall2_lookup_r _ _ _ _ _ Hcs Hi) as (d & Hd & Hc).
  destruct Hc as (n & Hrun & [[[Hn [Hin Hcell]] ->]|[_ ->]]);
    [|by apply elem_of_nil in Hq].
  split.
  - by apply (holds_counted b _ _ _ Hwf Hin).
  - destruct Hrun as [Hrun _]. destruct (Hrun 1%nat) as [Hin1 Hc1]; [lia|].
    by apply (holds_counted b _ _ _ Hwf Hin1).
Qed.

Lemma no_moves_when (b : board) (side : player) :
  wf_board b →
  (∀ r c, inside r c = true → cell_at b r c = Dot →
          flips_of b side r c = []) →
  moves_of b side = [].
Proof.
  intros Hwf H. apply elem_of_nil_inv. intros [r c] Hm.
  apply moves_of_elem in Hm as (Hi & Hd & Hf); [|done].
  apply Hf. by apply H.
Qed.

Lemma full_no_moves (b : board) :
  wf_board b → full b = true → moves_of b X = [] ∧ moves_of b O = [].
Proof.
  intros Hwf Hf. split; apply no_moves_when; try exact Hwf;
    intros r c Hi Hd; by destruct (full_no_dot b r c Hwf Hf Hi).
Qed.

Lemma absent_colour_no_moves (b : board) :
  wf_board b →
  count_board X b = 0%nat ∨ count_board O b = 0%nat →
  moves_of b X = [] ∧ moves_of b O = [].
Proof.
  intros Hwf Hz. split; apply no_moves_when; try exact Hwf; intros r c _ _.
  - destruct (decide (flips_of b X r c = [])) as [He|Hne]; [exact He|].
    destruct (flips_need_both_colours b X r c Hwf Hne) as [H1 H2].
    change (opponent X) with O in H2. lia.
  - destruct (decide (flips_of b O r c = [])) as [He|Hne]; [exact He|].
    destruct (flips_need_both_colours b O r c Hwf Hne) as [H1 H2].
    change (opponent O) with X in H2. lia.
Qed.

Lemma game_over_ok (b : board) :
  wf_board b →
  ∃ v, game_over b = Ok v ∧
       (v = true ↔ moves_of b X = [] ∧ moves_of b O = []).
Proof.
  intros Hwf.
  pose proof (full_no_moves b Hwf) as Hfull.
  pose proof (absent_colour_no_moves b Hwf) as Hzero.
  rewrite game_over_unfold.
  destruct (get_valid_moves_ok b X Hwf) as [HX _].
  destruct (get_valid_moves_ok b O Hwf) as [HO _].
  revert Hfull Hzero HX HO.
  generalize (moves_of b X) (moves_of b O). intros mx mo Hfull Hzero HX HO.
  destruct (full b) eqn:Ef.
  { exists true. split; [reflexivity|].
    split; [intros _; by apply Hfull|reflexivity]. }
  destruct (decide (count_board X b = 0%nat ∨ count_board O b = 0%nat))
    as [Hz|Hz].
  { exists true. split.
    - destruct Hz as [Hz|Hz]; rewrite (bool_decide_eq_true_2 _ Hz);
        [reflexivity|by rewrite orb_true_r].
    - split; [intros _; by apply Hzero|reflexivity]. }
  rewrite !bool_decide_eq_false_2 by tauto. cbn [orb].
  rewrite HX, bind_Ok.
  destruct (decide (mx = [])) as [Hx|Hx].
  - rewrite (bool_decide_eq_true_2 _ Hx), HO, bind_Ok.
    destruct (decide (mo = [])) as [Ho|Ho].
    + rewrite (bool_decide_eq_true_2 _ Ho). exists true.
      split; [reflexivity|]. split; [intros _; by split|reflexivity].
    + rewrite (bool_decide_eq_false_2 _ Ho). exists false.
      split; [reflexivity|].
      split; [discriminate|]. intros [_ H]. by destruct Ho.
  - rewrite (bool_decide_eq_false_2 _ Hx). exists false.
    split; [reflexivity|].
    split; [discriminate|]. intros [H _]. by destruct Hx.
Qed.

(** X8. [game_over] answers [True] exactly when neither side has a legal
    move. Its two earlier tests only shorten the way: on a full board, and
    on a board where one of the colours is absent, neither side has a
    legal move. *)
Theorem game_over_iff_no_moves (b : board) :
  wf_board b →
  ∃ v, game_over b = Ok v ∧
    (v = true ↔ moves_of b X = [] ∧ moves_of b O = []) ∧
    (full b = true → moves_of b X = [] ∧ moves_of b O = []) ∧
    ((count_pieces b).1 = 0%nat ∨ (count_pieces b).2 = 0%nat →
       moves_of b X = [] ∧ moves_of b O = []).
Proof.
  intros Hwf. destruct (game_over_ok b Hwf) as (v & Hrun & Hiff).
  exists v. split; [exact Hrun|]. split; [exact Hiff|]. split.
  - by apply full_no_moves.
  - rewrite count_pieces_boards. cbn [fst snd].
    by apply absent_colour_no_moves.
Qed.

Lemma game_over_iff_no_moves_witness :
  wf_board initial_board ∧
  ∃ v, game_over initial_board = Ok v ∧
    (v = true ↔ moves_of initial_board X = [] ∧ moves_of initial_board O = []) ∧
    (full initial_board = true →
       moves_of initial_board X = [] ∧ moves_of initial_board O = []) ∧
    ((count_pieces initial_board).1 = 0%nat ∨
     (count_pieces initial_board).2 = 0%nat →
       moves_of initial_board X = [] ∧ moves_of initial_board O = []).
Proof.
  split; [exact initial_board_wf|].
  exact (game_over_iff_no_moves initial_board initial_board_wf).
Defined.

(** ** A click on the canvas (test.py) *)

Lemma stop_timer_fields (s : gui) :
  let s' := stop_timer s in
  game_of s' = game_of s ∧ log s' = log s ∧
  binding s' = binding s ∧ dialogs s' = dialogs s ∧
  status s' = status s ∧ time_left s' = time_left s ∧
  timer_label s' = timer_label s ∧ next_after s' = next_after s ∧
  timer_id s' = None ∧
  pending_return s' = pending_return s ∧
  return_origin s' = return_origin s ∧
  (timer_inv s → after_queue s' = []).
Proof.
  unfold stop_timer, timer_inv. open_gui s; split_and!; try done.
  - intros [->|(i & -> & [= ->])]; [done|].
    cbn. by rewrite decide_False by (by intros H; apply H).
  - intros [->|(i & _ & [=])]. done.
Qed.

(** The cell a click at pixel [(ex, ey)] falls in. *)
Lemma handle_click_rejects (rnd : nat) (ex ey : Z) (s : gui) :
  wf_board (board_now s) →
  on_board (ey `div` CELL_SIZE) (ex `div` CELL_SIZE) = false ∨
  (ey `div` CELL_SIZE, ex `div` CELL_SIZE)
    ∉ moves_of (board_now s) (player_now s) →
  Auto.handle_click rnd ex ey s = Ok s.
Proof.
  intros Hwf Hrej. unfold Auto.handle_click.
  destruct (on_board _ _) eqn:Eon; [|done]. cbn [negb].
  destruct Hrej as [|Hrej]; [done|].
  destruct (get_valid_moves_ok (board_now s) (player_now s) Hwf) as [-> _].
  rewrite bind_Ok. by rewrite (bool_decide_eq_true_2 _ Hrej).
Qed.

Lemma on_board_inside (row col : Z) : on_board row col = inside row col.
Proof. reflexivity. Qed.

Lemma auto_make_move_ok (rnd : nat) (g : game) (side : player) (r c : Z) :
  wf_board (board_of g) → (r, c) ∈ moves_of (board_of g) side →
  ∃ b2 ret,
    Auto.make_move rnd g side r c
    = Ok (set_board b2 g, (Some (flips_of (board_of g) side r c), ret)) ∧
    wf_board b2.
Proof.
  intros Hwf Hm.
  pose proof (auto_make_move_legal rnd g side r c Hwf Hm) as Hauto.
  cbv zeta in Hauto.
  pose proof (applied_wf (board_of g) side r c Hwf) as Hwfa.
  destruct (bool_decide (3 ≤ length (flips_of (board_of g) side r c))%nat).
  - destruct Hauto as (pos & _ & Hrun).
    eexists _, _. split; [exact Hrun|]. by apply board_put_wf.
  - eexists _, _. split; [exact Hauto|]. exact Hwfa.
Qed.

(** What [handle_click] does with a click on a legal cell. *)
Lemma handle_click_plays (rnd : nat) (ex ey : Z) (s : gui) :
  wf_board (board_now s) →
  let row := ey `div` CELL_SIZE in
  let col := ex `div` CELL_SIZE in
  let p := player_now s in
  (row, col) ∈ moves_of (board_now s) p →
  ∃ b2 ret over,
    Auto.make_move rnd (game_of s) p row col
    = Ok (set_board b2 (game_of s),
          (Some (flips_of (board_now s) p row col), ret)) ∧
    wf_board b2 ∧
    game_over b2 = Ok over ∧
    (over = true ↔ moves_of b2 X = [] ∧ moves_of b2 O = []) ∧
    let s2 := log_move (LogMove p row col ret)
                (set_game (set_board b2 (game_of s)) (stop_timer s)) in
    Auto.handle_click rnd ex ey s
    = if over then Ok (finish_game s2) else switch_player s2.
Proof.
  intros Hwf row col p Hm.
  destruct (auto_make_move_ok rnd (game_of s) p row col Hwf Hm)
    as (b2 & ret & Hrun & Hwf2).
  destruct (game_over_ok b2 Hwf2) as (over & Hover & Hiff).
  exists b2, ret, over. split; [exact Hrun|]. split; [exact Hwf2|].
  split; [exact Hover|]. split; [exact Hiff|]. cbv zeta.
  unfold Auto.handle_click. fold row col.
  apply moves_of_elem in Hm as Hm'; [|exact Hwf]. destruct Hm' as [Hi _].
  unfold inside_at in Hi. cbn [fst snd] in Hi.
  rewrite on_board_inside, Hi. cbn [negb].
  destruct (get_valid_moves_ok (board_now s) (player_now s) Hwf) as [-> _].
  rewrite bind_Ok. fold p.
  rewrite bool_decide_eq_false_2 by (by intros H; apply H).
  destruct (stop_timer_fields s) as (Hg & _).
  assert (Hps : player_now (stop_timer s) = p)
    by (unfold player_now, p; by rewrite Hg).
  rewrite Hps, Hg. rewrite Hrun, bind_Ok.
  assert (Hp3 : player_now (set_game (set_board b2 (game_of s)) (stop_timer s))
                = p).
  { unfold player_now, p. by destruct s as [[]], (stop_timer _). }
  rewrite Hp3.
  assert (Hb3 : board_now (log_move (LogMove p row col ret)
                  (set_game (set_board b2 (game_of s)) (stop_timer s))) = b2).
  { unfold board_now. by destruct (stop_timer s). }
  rewrite Hb3, Hover, bind_Ok. by destruct over.
Qed.

(** ** The states the event loop reaches (test.py) *)

Lemma auto_inv_started (s : gui) :
  wf_board (board_now s) →
  0 ≤ budget s X ≤ 3 → 0 ≤ budget s O ≤ 3 →
  after_queue s = [] → binding s = Some HandleClick →
  moves_of (board_now s) (player_now s) ≠ [] →
  auto_inv (started s).
Proof.
  intros Hwf HX HO Hq Hb Hm.
  destruct (started_fields s)
    as (Hg & _ & Hbind & _ & _ & _ & Ht & Hid & Hqueue & _).
  unfold auto_inv, clock_inv, timer_inv, phase_inv, budget, board_now,
    player_now in *.
  rewrite Hg, Ht, Hqueue, Hq, Hid, Hbind. split_and!; try lia; try assumption.
  - right. by eexists.
  - left. split; [exact Hb|exact Hm].
Qed.

Lemma auto_inv_finished (s : gui) :
  clock_inv s → after_queue (stop_timer s) = [] →
  moves_of (board_now s) X = [] → moves_of (board_now s) O = [] →
  auto_inv (finish_game s).
Proof.
  intros (Hwf & HX & HO & Ht) Hq HmX HmO.
  assert (H : game_of (finish_game s) = game_of s ∧
              time_left (finish_game s) = time_left s ∧
              binding (finish_game s) = None ∧
              after_queue (finish_game s) = after_queue (stop_timer s)).
  { destruct (stop_timer_fields s) as (Hg0 & _ & _ & _ & _ & Ht0 & _).
    rewrite <- Hg0, <- Ht0. unfold finish_game, announce_result.
    destruct (count_pieces _), (stop_timer s). by split_and!. }
  destruct H as (Hg & Htl & Hb & Hqq).
  unfold auto_inv, clock_inv, timer_inv, phase_inv, budget, board_now,
    player_now in *.
  rewrite Hg, Htl, Hb, Hqq, Hq. split_and!; try lia; try assumption.
  - by left.
  - right. split; [reflexivity|]. split; [reflexivity|].
    split; [exact HmX|exact HmO].
Qed.

Lemma both_without_moves (b : board) (p : player) :
  moves_of b p = [] → ¬ moves_of b (opponent p) ≠ [] →
  moves_of b X = [] ∧ moves_of b O = [].
Proof.
  intros Hp Ho.
  assert (Ho' : moves_of b (opponent p) = []).
  { destruct (decide (moves_of b (opponent p) = [])) as [H|H]; [exact H|].
    exfalso. exact (Ho H). }
  clear Ho. destruct p; [split; [exact Hp|exact Ho']|split; [exact Ho'|exact Hp]].
Qed.

Lemma stop_timer_quiet (s : gui) :
  after_queue s = [] → after_queue (stop_timer s) = [].
Proof. unfold stop_timer. open_gui s; by intros ->. Qed.

Lemma auto_inv_switch (s : gui) :
  clock_inv s → after_queue s = [] → binding s = Some HandleClick →
  ∃ s', switch_player s = Ok s' ∧ auto_inv s'.
Proof.
  intros (Hwf & HX & HO & Ht) Hq Hb.
  rewrite switch_player_cases by exact Hwf.
  set (p := player_now s).
  set (s1 := turn_to (opponent p) s).
  set (s2 := turn_to p (log_move LogPass (turn_to (opponent p) s))).
  assert (H1 : board_now s1 = board_now s ∧ player_now s1 = opponent p ∧
               budget s1 X = budget s X ∧ budget s1 O = budget s O ∧
               after_queue s1 = after_queue s ∧ binding s1 = binding s ∧
               time_left s1 = time_left s).
  { subst s1 p. unfold board_now, player_now, budget. by destruct s as [[]]. }
  assert (H2 : board_now s2 = board_now s ∧ player_now s2 = p ∧
               budget s2 X = budget s X ∧ budget s2 O = budget s O ∧
               after_queue s2 = after_queue s ∧ binding s2 = binding s ∧
               time_left s2 = time_left s).
  { subst s2 p. unfold board_now, player_now, budget. by destruct s as [[]]. }
  destruct H1 as (Hb1 & Hp1 & HX1 & HO1 & Hq1 & Hbd1 & Ht1).
  destruct H2 as (Hb2 & Hp2 & HX2 & HO2 & Hq2 & Hbd2 & Ht2).
  destruct (decide (moves_of (board_now s) (opponent p) ≠ [])) as [Hmo|Hmo].
  - eexists. split; [reflexivity|]. apply (auto_inv_started s1).
    + by rewrite Hb1.
    + by rewrite HX1.
    + by rewrite HO1.
    + by rewrite Hq1.
    + by rewrite Hbd1.
    + rewrite Hb1, Hp1. exact Hmo.
  - destruct (decide (moves_of (board_now s) p = [])) as [Hmp|Hmp].
    + destruct (both_without_moves _ _ Hmp Hmo) as [HmX HmO].
      eexists. split; [reflexivity|]. apply (auto_inv_finished s2).
      * unfold clock_inv. rewrite Hb2, HX2, HO2, Ht2.
        split_and!; (assumption || lia).
      * apply stop_timer_quiet. by rewrite Hq2.
      * rewrite Hb2. exact HmX.
      * rewrite Hb2. exact HmO.
    + eexists. split; [reflexivity|]. apply (auto_inv_started s2).
      * by rewrite Hb2.
      * by rewrite HX2.
      * by rewrite HO2.
      * by rewrite Hq2.
      * by rewrite Hbd2.
      * rewrite Hb2, Hp2. exact Hmp.
Qed.

Lemma auto_inv_ticked (s : gui) :
  clock_inv s → time_left s ≠ 0 → after_queue s = [] →
  binding s = Some HandleClick →
  moves_of (board_now s) (player_now s) ≠ [] →
  auto_inv (ticked s).
Proof.
  intros (Hwf & HX & HO & Ht) Hnz Hq Hb Hm.
  destruct (ticked_fields s)
    as (Hg & _ & Hbind & _ & _ & _ & Htl & Hid & Hqueue & _).
  unfold auto_inv, clock_inv, timer_inv, phase_inv, budget, board_now,
    player_now in *.
  rewrite Hg, Htl, Hqueue, Hq, Hid, Hbind. split_and!; try lia; try assumption.
  - right. by eexists.
  - left. split; [exact Hb|exact Hm].
Qed.

Lemma auto_inv_timeout (s : gui) :
  clock_inv s → after_queue s = [] → binding s = Some HandleClick →
  moves_of (board_now s) (player_now s) ≠ [] →
  ∃ s', handle_timeout s = Ok s' ∧ auto_inv s'.
Proof.
  intros (Hwf & HX & HO & Ht) Hq Hb Hm.
  unfold handle_timeout, handle_timeout_over. fold tick switch_player.
  set (p := player_now s). fold (budget s p).
  destruct (decide (0 < budget s p)) as [Hpos|Hpos].
  - rewrite (bool_decide_eq_true_2 _ Hpos).
    set (s3 := update_status (set_time_left 60 (spend_extension p s))).
    assert (H3 : board_now s3 = board_now s ∧ player_now s3 = p ∧
                 after_queue s3 = after_queue s ∧ binding s3 = binding s ∧
                 time_left s3 = 60 ∧
                 0 ≤ budget s3 X ≤ 3 ∧ 0 ≤ budget s3 O ≤ 3).
    { subst s3 p. unfold board_now, player_now, budget in *.
      open_gui s; destruct p; cbn in *; split_and!; (done || lia). }
    destruct H3 as (Hb3 & Hp3 & Hq3 & Hbd3 & Ht3 & HX3 & HO3).
    unfold tick. rewrite tick_not_at_zero by (rewrite Ht3; lia).
    eexists. split; [reflexivity|]. apply (auto_inv_ticked s3).
    + unfold clock_inv. rewrite Hb3, Ht3. split_and!; (assumption || lia).
    + rewrite Ht3. lia.
    + rewrite Hq3. exact Hq.
    + rewrite Hbd3. exact Hb.
    + rewrite Hb3, Hp3. exact Hm.
  - rewrite (bool_decide_eq_false_2 _ Hpos).
    apply auto_inv_switch.
    + unfold clock_inv, budget, board_now in *.
      destruct s as [[]]; cbn in *. split_and!; (assumption || lia).
    + by destruct s.
    + by destruct s.
Qed.

Lemma auto_inv_tick (s : gui) :
  clock_inv s → after_queue s = [] → binding s = Some HandleClick →
  moves_of (board_now s) (player_now s) ≠ [] →
  ∃ s', tick s = Ok s' ∧ auto_inv s'.
Proof.
  intros Hc Hq Hb Hm.
  destruct (decide (time_left s = 0)) as [Hz|Hnz].
  - rewrite tick_at_zero by exact Hz. apply auto_inv_timeout.
    + unfold clock_inv, budget, board_now in *. by destruct s.
    + by destruct s.
    + by destruct s.
    + unfold board_now, player_now in *. by destruct s.
  - unfold tick. rewrite tick_not_at_zero by exact Hnz.
    eexists. split; [reflexivity|]. by apply auto_inv_ticked.
Qed.

Lemma auto_inv_extension (s : gui) : auto_inv s → auto_inv (use_extension s).
Proof.
  intros Hinv. pose proof Hinv as ((Hwf & HX & HO & Ht) & Htm & Hph).
  unfold use_extension.
  set (p := player_now s). fold (budget s p).
  destruct (bool_decide (budget s p = 0)) eqn:E0; cbn [orb];
    [exact Hinv|].
  destruct (bool_decide (120 ≤ time_left s)) eqn:E1; [exact Hinv|].
  apply bool_decide_eq_false in E0, E1.
  set (s' := update_status _).
  assert (H : board_now s' = board_now s ∧ player_now s' = player_now s ∧
              after_queue s' = after_queue s ∧ binding s' = binding s ∧
              timer_id s' = timer_id s ∧
              0 ≤ time_left s' ≤ 120 ∧
              0 ≤ budget s' X ≤ 3 ∧ 0 ≤ budget s' O ≤ 3).
  { subst s' p. unfold board_now, player_now, budget in *.
    open_gui s; destruct p; cbn in *; case_bool_decide; cbn;
      split_and!; (done || lia). }
  destruct H as (Hb' & Hp' & Hq' & Hbd' & Hid' & Ht' & HX' & HO').
  unfold auto_inv, clock_inv, timer_inv, phase_inv.
  rewrite Hb', Hp', Hq', Hbd', Hid'. split_and!; assumption || lia.
Qed.

Lemma auto_inv_click (rnd : nat) (ex ey : Z) (s : gui) :
  auto_inv s → binding s = Some HandleClick →
  ∃ s', Auto.handle_click rnd ex ey s = Ok s' ∧ auto_inv s'.
Proof.
  intros Hinv Hb. pose proof Hinv as ((Hwf & HX & HO & Ht) & Htm & Hph).
  set (row := ey `div` CELL_SIZE). set (col := ex `div` CELL_SIZE).
  destruct (decide ((row, col) ∈ moves_of (board_now s) (player_now s)))
    as [Hm|Hm].
  - destruct (handle_click_plays rnd ex ey s Hwf Hm)
      as (b2 & ret & over & _ & Hwf2 & _ & Hiff & Hrun).
    cbv zeta in Hrun. fold row col in Hrun. rewrite Hrun. clear Hrun Hm Hph.
    set (s2 := log_move _ _).
    destruct (stop_timer_fields s)
      as (Hg0 & _ & Hb0 & _ & _ & Ht0 & _ & _ & _ & _ & _ & Hq0).
    specialize (Hq0 Htm).
    assert (H2 : board_now s2 = b2 ∧
                 budget s2 X = budget s X ∧ budget s2 O = budget s O ∧
                 after_queue s2 = [] ∧ binding s2 = Some HandleClick ∧
                 time_left s2 = time_left s).
    { subst s2. rewrite <- Hq0, <- Hb, <- Hb0, <- Ht0.
      unfold board_now, budget. rewrite <- Hg0.
      by destruct (stop_timer s) as [[]]. }
    destruct H2 as (Hb2 & HX2 & HO2 & Hq2 & Hbd2 & Ht2).
    assert (Hc2 : clock_inv s2).
    { unfold clock_inv. rewrite Hb2, HX2, HO2, Ht2.
      split_and!; assumption || lia. }
    destruct over.
    + destruct (proj1 Hiff eq_refl) as [HmX HmO].
      eexists. split; [reflexivity|]. apply auto_inv_finished.
      * exact Hc2.
      * by apply stop_timer_quiet.
      * rewrite Hb2. exact HmX.
      * rewrite Hb2. exact HmO.
    + by apply auto_inv_switch.
  - exists s. split; [|exact Hinv]. apply handle_click_rejects; [exact Hwf|].
    by right.
Qed.

Lemma auto_inv_step (e : Auto.event) (s : gui) :
  auto_inv s → ∃ s', Auto.step e s = Ok s' ∧ auto_inv s'.
Proof.
  intros Hinv. destruct e as [ex ey rnd| |id]; cbn [Auto.step].
  - destruct (binding s) as [[]|] eqn:Hb.
    + by apply auto_inv_click.
    + by exists s.
    + by exists s.
  - eexists. split; [reflexivity|]. by apply auto_inv_extension.
  - case_bool_decide as Hin; [|by exists s].
    destruct Hinv as (Hc & Htm & Hph).
    destruct Htm as [Hq|(i & Hq & Hid)];
      [rewrite Hq in Hin; by apply elem_of_nil in Hin|].
    rewrite Hq in Hin. apply list_elem_of_singleton in Hin.
    injection Hin as ->.
    destruct Hph as [[Hb Hm]|(_ & Hq' & _)]; [|by rewrite Hq in Hq'].
    apply auto_inv_tick.
    + unfold clock_inv, budget, board_now in *. by destruct s.
    + unfold after_cancel. destruct s. cbn in *. subst.
      cbn. by rewrite decide_False by (by intros H; apply H).
    + by destruct s.
    + unfold board_now, player_now in *. by destruct s.
Qed.

Lemma first_gui_new : Clock.new_gui = Ok first_gui.
Proof. by vm_compute. Qed.

Lemma auto_inv_first : auto_inv first_gui.
Proof.
  split; [|split].
  - split; [exact initial_board_wf|]. cbn. lia.
  - right. by exists 0%nat.
  - left. split; [reflexivity|]. by vm_compute.
Qed.

Lemma auto_inv_reachable (s : gui) : reachable s → auto_inv s.
Proof.
  induction 1 as [s Hnew|e s s' _ IH Hstep].
  - rewrite first_gui_new in Hnew. injection Hnew as <-. exact auto_inv_first.
  - destruct (auto_inv_step e s IH) as (s2 & Hrun & Hinv).
    rewrite Hrun in Hstep. by injection Hstep as <-.
Qed.

Lemma use_extension_fields (s : gui) :
  let s' := use_extension s in
  board_now s' = board_now s ∧ player_now s' = player_now s ∧
  log s' = log s ∧ binding s' = binding s ∧ dialogs s' = dialogs s ∧
  after_queue s' = after_queue s ∧ timer_id s' = timer_id s.
Proof.
  unfold use_extension, board_now, player_now.
  open_gui s; destruct p; cbn; repeat case_bool_decide; cbn; by split_and!.
Qed.

Lemma first_gui_reachable : reachable first_gui.
Proof. apply reach_new. exact first_gui_new. Qed.

(** X9. In test.py the GUI starts with 3 extensions for each side, and in
    every state the event loop reaches the board is 8×8, each budget is
    between 0 and 3 and the countdown between 0 and 120; every event (a
    click anywhere, the extension button, a timer callback) is handled
    without an exception and leads to such a state again. *)
Theorem clock_stays_in_range (s : gui) :
  reachable s →
  (Clock.new_gui = Ok first_gui ∧
   budget first_gui X = 3 ∧ budget first_gui O = 3) ∧
  wf_board (board_now s) ∧
  0 ≤ budget s X ≤ 3 ∧ 0 ≤ budget s O ≤ 3 ∧
  0 ≤ time_left s ≤ 120 ∧
  ∀ e, ∃ s', Auto.step e s = Ok s' ∧ reachable s'.
Proof.
  intros Hr. pose proof (auto_inv_reachable s Hr) as Hinv.
  destruct Hinv as ((Hwf & HX & HO & Ht) & Hrest).
  split; [split; [exact first_gui_new|by split]|].
  split; [exact Hwf|]. split; [exact HX|]. split; [exact HO|].
  split; [exact Ht|]. intros e.
  destruct (auto_inv_step e s (conj (conj Hwf (conj HX (conj HO Ht))) Hrest))
    as (s' & Hrun & _).
  exists s'. split; [exact Hrun|]. by apply (reach_step e s s').
Qed.

Lemma clock_stays_in_range_witness :
  reachable first_gui ∧
  wf_board (board_now first_gui) ∧
  0 ≤ time_left first_gui ≤ 120 ∧
  ∃ s', Auto.step (Auto.Click 250 130 0) first_gui = Ok s' ∧ reachable s'.
Proof.
  split; [exact first_gui_reachable|].
  destruct (clock_stays_in_range first_gui first_gui_reachable)
    as (_ & Hwf & _ & _ & Ht & Hstep).
  split; [exact Hwf|]. split; [exact Ht|]. exact (Hstep (Auto.Click 250 130 0)).
Defined.

(** X10. In test.py at most one timer callback is ever scheduled: it is a
    tick, [timer_id] names it, and the game is going on. Once the game is
    over nothing is scheduled, and no event changes the board, the turn,
    the log or the dialogs any more (only the extension button still
    acts, on the budget and the countdown). *)
Theorem one_tick_at_most (s : gui) :
  reachable s →
  (length (after_queue s) ≤ 1)%nat ∧
  (∀ id cb, (id, cb) ∈ after_queue s →
     cb = CbTick ∧ timer_id s = Some id ∧ binding s = Some HandleClick) ∧
  (binding s = None →
     after_queue s = [] ∧
     ∀ e s', Auto.step e s = Ok s' →
       binding s' = None ∧ board_now s' = board_now s ∧
       player_now s' = player_now s ∧ log s' = log s ∧
       dialogs s' = dialogs s).
Proof.
  intros Hr. destruct (auto_inv_reachable s Hr) as (_ & Htm & Hph).
  split; [|split].
  - destruct Htm as [->|(i & -> & _)]; cbn; lia.
  - intros id cb Hin.
    destruct Htm as [Hq|(i & Hq & Hid)];
      [rewrite Hq in Hin; by apply elem_of_nil in Hin|].
    rewrite Hq in Hin. apply list_elem_of_singleton in Hin.
    injection Hin as -> ->. split; [reflexivity|]. split; [exact Hid|].
    destruct Hph as [[Hb _]|(_ & Hq' & _)]; [exact Hb|].
    rewrite Hq in Hq'. discriminate.
  - intros Hb.
    assert (Hq : after_queue s = []).
    { destruct Hph as [[Hb' _]|(_ & Hq & _)]; [|exact Hq].
      rewrite Hb in Hb'. discriminate. }
    split; [exact Hq|]. clear Hph Htm.
    intros e s' Hstep. destruct e as [ex ey rnd| |id]; cbn [Auto.step] in Hstep.
    + rewrite Hb in Hstep. injection Hstep as <-. by split_and!.
    + injection Hstep as <-.
      destruct (use_extension_fields s) as (H1 & H2 & H3 & H4 & H5 & _).
      rewrite H1, H2, H3, H4, H5. by split_and!.
    + rewrite Hq in Hstep.
      rewrite bool_decide_eq_false_2 in Hstep by apply not_elem_of_nil.
      injection Hstep as <-. by split_and!.
Qed.

Lemma one_tick_at_most_witness :
  reachable first_gui ∧ (length (after_queue first_gui) ≤ 1)%nat ∧
  ∀ id cb, (id, cb) ∈ after_queue first_gui →
    cb = CbTick ∧ timer_id first_gui = Some id ∧
    binding first_gui = Some HandleClick.
Proof.
  split; [exact first_gui_reachable|].
  destruct (one_tick_at_most first_gui first_gui_reachable) as (H1 & H2 & _).
  split; [exact H1|exact H2].
Defined.

(** X11. In test.py, in every state the event loop reaches, either the
    game is going on and the side to move has a legal move, or the game
    is over and neither side has one (so that [game_over] holds of the
    board): the turn is never given to a side that cannot move, and the
    game is never declared over while a side can. *)
Theorem side_to_move_can_move (s : gui) :
  reachable s →
  (binding s = Some HandleClick ∧
   moves_of (board_now s) (player_now s) ≠ []) ∨
  (binding s = None ∧
   moves_of (board_now s) X = [] ∧ moves_of (board_now s) O = [] ∧
   game_over (board_now s) = Ok true).
Proof.
  intros Hr. destruct (auto_inv_reachable s Hr) as ((Hwf & _) & _ & Hph).
  destruct Hph as [[Hb Hm]|(Hb & _ & HmX & HmO)].
  - left. split; [exact Hb|exact Hm].
  - right. split; [exact Hb|]. split; [exact HmX|]. split; [exact HmO|].
    destruct (game_over_ok (board_now s) Hwf) as (v & Hrun & Hiff).
    rewrite Hrun, (proj2 Hiff (conj HmX HmO)). reflexivity.
Qed.

Lemma side_to_move_can_move_witness :
  reachable first_gui ∧
  ((binding first_gui = Some HandleClick ∧
    moves_of (board_now first_gui) (player_now first_gui) ≠ []) ∨
   (binding first_gui = None ∧
    moves_of (board_now first_gui) X = [] ∧
    moves_of (board_now first_gui) O = [] ∧
    game_over (board_now first_gui) = Ok true)).
Proof.
  split; [exact first_gui_reachable|].
  exact (side_to_move_can_move first_gui first_gui_reachable).
Defined.

(** X12. [handle_click] of test.py. A click outside the board or on a
    cell that is not a legal move of the side to move changes nothing
    (the timer keeps running). A click on a legal cell plays it with
    [make_move] and logs it with the returned cell; then, on the new
    board: if neither side can move the game is over; if the opponent can
    move the turn is the opponent's; if only the mover can, PASS is
    logged and the mover plays again. The budgets are untouched. *)
Theorem click_outcome (rnd : nat) (ex ey : Z) (s : gui) :
  wf_board (board_now s) →
  let row := ey `div` CELL_SIZE in
  let col := ex `div` CELL_SIZE in
  let p := player_now s in
  (on_board row col = false ∨ (row, col) ∉ moves_of (board_now s) p →
     Auto.handle_click rnd ex ey s = Ok s) ∧
  ((row, col) ∈ moves_of (board_now s) p →
     ∃ s' b2 ret rest,
       Auto.handle_click rnd ex ey s = Ok s' ∧
       Auto.make_move rnd (game_of s) p row col
       = Ok (set_board b2 (game_of s),
             (Some (flips_of (board_now s) p row col), ret)) ∧
       board_now s' = b2 ∧
       extensions (game_of s') = extensions (game_of s) ∧
       log s' = log s ++ LogMove p row col ret :: rest ∧
       (moves_of b2 X = [] ∧ moves_of b2 O = [] →
          binding s' = None ∧ rest = [] ∧ player_now s' = p) ∧
       (moves_of b2 (opponent p) ≠ [] →
          binding s' = binding s ∧ rest = [] ∧
          player_now s' = opponent p ∧ time_left s' = 59) ∧
       (moves_of b2 (opponent p) = [] → moves_of b2 p ≠ [] →
          binding s' = binding s ∧ rest = [LogPass] ∧
          player_now s' = p ∧ time_left s' = 59)).
Proof.
  intros Hwf row col p. split; [by apply handle_click_rejects|].
  intros Hm.
  destruct (handle_click_plays rnd ex ey s Hwf Hm)
    as (b2 & ret & over & Hmm & Hwf2 & _ & Hiff & Hclick).
  cbv zeta in Hclick. fold row col p in Hclick, Hmm. clear Hm.
  set (s2 := log_move (LogMove p row col ret)
               (set_game (set_board b2 (game_of s)) (stop_timer s))) in *.
  destruct (stop_timer_fields s) as (Hg0 & Hl0 & Hb0 & _).
  assert (H2 : board_now s2 = b2 ∧ player_now s2 = p ∧
               extensions (game_of s2) = extensions (game_of s) ∧
               log s2 = log s ++ [LogMove p row col ret] ∧
               binding s2 = binding s).
  { subst s2 p. rewrite <- Hl0, <- Hb0. unfold board_now, player_now.
    rewrite <- Hg0. by destruct (stop_timer s) as [[]]. }
  destruct H2 as (Hb2 & Hp2 & He2 & Hl2 & Hbd2).
  assert (Hwf2' : wf_board (board_now s2)) by (rewrite Hb2; exact Hwf2).
  destruct (switch_player_outcome s2 Hwf2')
    as (s3 & Hsw & Hb3 & He3 & Hgo & Hpass).
  cbv zeta in Hgo, Hpass. rewrite Hb2, Hp2 in Hgo, Hpass.
  assert (Hboth : moves_of b2 X = [] ∧ moves_of b2 O = [] ↔
                  moves_of b2 p = [] ∧ moves_of b2 (opponent p) = []).
  { destruct p.
    - change (opponent X) with O. reflexivity.
    - change (opponent O) with X.
      split; intros [H1 H2]; (split; [exact H2|exact H1]). }
  rewrite Hboth in Hiff.
  destruct over.
  - destruct (finish_game_fields s2) as (Hgf & Hlf & Hbf & _).
    exists (finish_game s2), b2, ret, []. split; [exact Hclick|].
    split; [exact Hmm|]. unfold board_now, player_now in *.
    rewrite Hgf, Hlf. split; [exact Hb2|]. split; [exact He2|].
    split; [exact Hl2|]. rewrite Hboth.
    pose proof (proj1 Hiff eq_refl) as Hempty.
    clear Hiff Hboth Hgo Hpass Hsw. revert Hempty.
    generalize (moves_of b2 p) (moves_of b2 (opponent p)).
    intros mp mo [Hmp Hmo]. split; [|split].
    + intros _. split; [exact Hbf|]. split; [reflexivity|exact Hp2].
    + intros Hc. exfalso. exact (Hc Hmo).
    + intros _ Hc. exfalso. exact (Hc Hmp).
  - rewrite Hsw in Hclick.
    destruct (decide (moves_of b2 (opponent p) = [])) as [Hmo|Hmo].
    + destruct (Hpass Hmo) as (Hp3 & Hl3 & _ & Hst).
      destruct (decide (moves_of b2 p = [])) as [Hmp|Hmp].
      { exfalso. pose proof (proj2 Hiff (conj Hmp Hmo)) as Hc.
        discriminate Hc. }
      specialize (Hst Hmp).
      destruct (started_fields
                  (turn_to p (log_move LogPass (turn_to (opponent p) s2))))
        as (_ & _ & Hbs & _ & _ & _ & Hts & _).
      rewrite <- Hst in Hbs, Hts.
      assert (Hbind : binding s3 = binding s).
      { rewrite Hbs, <- Hbd2. by destruct s2. }
      exists s3, b2, ret, [LogPass]. split; [exact Hclick|].
      split; [exact Hmm|]. split; [rewrite Hb3; exact Hb2|].
      split; [rewrite He3; exact He2|].
      split; [rewrite Hl3, Hl2, <- app_assoc; reflexivity|].
      rewrite Hboth. clear Hiff Hboth Hgo Hpass Hst. revert Hmo Hmp.
      generalize (moves_of b2 p) (moves_of b2 (opponent p)).
      intros mp mo Hmo Hmp. split; [|split].
      * intros [Hc _]. exfalso. exact (Hmp Hc).
      * intros Hc. exfalso. exact (Hc Hmo).
      * intros _ _. split; [exact Hbind|].
        split; [reflexivity|]. split; [exact Hp3|exact Hts].
    + destruct (Hgo Hmo) as (Hst & Hp3 & Hl3 & Hts).
      destruct (started_fields (turn_to (opponent p) s2))
        as (_ & _ & Hbs & _).
      rewrite <- Hst in Hbs.
      assert (Hbind : binding s3 = binding s).
      { rewrite Hbs, <- Hbd2. by destruct s2. }
      exists s3, b2, ret, []. split; [exact Hclick|].
      split; [exact Hmm|]. split; [rewrite Hb3; exact Hb2|].
      split; [rewrite He3; exact He2|].
      split; [rewrite Hl3; exact Hl2|].
      rewrite Hboth. clear Hiff Hboth Hgo Hpass Hst. revert Hmo.
      generalize (moves_of b2 p) (moves_of b2 (opponent p)).
      intros mp mo Hmo. split; [|split].
      * intros [_ Hc]. exfalso. exact (Hmo Hc).
      * intros _. split; [exact Hbind|].
        split; [reflexivity|]. split; [exact Hp3|exact Hts].
      * intros Hc. exfalso. exact (Hmo Hc).
Qed.

Lemma click_outcome_witness :
  wf_board (board_now first_gui) ∧
  (Auto.handle_click 0 10 10 first_gui = Ok first_gui) ∧
  ∃ s', Auto.handle_click 0 250 130 first_gui = Ok s' ∧
        player_now s' = O ∧ log s' = [LogMove X 2 4 None].
Proof.
  split; [exact initial_board_wf|].
  destruct (click_outcome 0 10 10 first_gui initial_board_wf) as [Hrej _].
  split; [apply Hrej; right; by apply (bool_decide_unpack _); vm_compute|].
  destruct (click_outcome 0 250 130 first_gui initial_board_wf) as [_ Hplay].
  destruct (Hplay ltac:(by apply (bool_decide_unpack _); vm_compute))
    as (s' & b2 & ret & rest & Hrun & _).
  exists s'. split; [exact Hrun|].
  revert Hrun. vm_compute. by intros [= <-].
Defined.

(** ** The return left to the player (test2.py) *)

Lemma switch_player_keeps (s : gui) :
  wf_board (board_now s) →
  ∃ s' rest, switch_player s = Ok s' ∧
    board_now s' = board_now s ∧
    pending_return s' = pending_return s ∧
    return_origin s' = return_origin s ∧
    log s' = log s ++ rest ∧
    (binding s' = binding s ∨ binding s' = None).
Proof.
  intros Hwf. rewrite switch_player_cases by exact Hwf.
  set (p := player_now s).
  set (s1 := turn_to (opponent p) s).
  set (s2 := turn_to p (log_move LogPass (turn_to (opponent p) s))).
  assert (H1 : board_now s1 = board_now s ∧
               pending_return s1 = pending_return s ∧
               return_origin s1 = return_origin s ∧
               log s1 = log s ∧ binding s1 = binding s).
  { subst s1. unfold board_now. by destruct s as [[]]. }
  assert (H2 : board_now s2 = board_now s ∧
               pending_return s2 = pending_return s ∧
               return_origin s2 = return_origin s ∧
               log s2 = log s ++ [LogPass] ∧ binding s2 = binding s).
  { subst s2. unfold board_now. by destruct s as [[]]. }
  destruct H1 as (Hb1 & Hpe1 & Hro1 & Hl1 & Hbd1).
  destruct H2 as (Hb2 & Hpe2 & Hro2 & Hl2 & Hbd2).
  generalize (moves_of (board_now s) (opponent p)) (moves_of (board_now s) p).
  intros mo mp. unfold board_now in *.
  destruct (decide (mo ≠ [])).
  - destruct (started_fields s1)
      as (Hg & Hl & Hbd & _ & _ & _ & _ & _ & _ & Hpe & Hro).
    exists (started s1), []. split; [reflexivity|].
    rewrite Hg, Hl, Hbd, Hpe, Hro, app_nil_r.
    split; [exact Hb1|]. split; [exact Hpe1|]. split; [exact Hro1|].
    split; [exact Hl1|]. left. exact Hbd1.
  - destruct (decide (mp = [])).
    + destruct (finish_game_fields s2)
        as (Hg & Hl & Hbd & _ & _ & _ & _ & _ & _ & Hpe & Hro).
      exists (finish_game s2), [LogPass]. split; [reflexivity|].
      rewrite Hg, Hl, Hbd, Hpe, Hro.
      split; [exact Hb2|]. split; [exact Hpe2|]. split; [exact Hro2|].
      split; [exact Hl2|]. by right.
    + destruct (started_fields s2)
        as (Hg & Hl & Hbd & _ & _ & _ & _ & _ & _ & Hpe & Hro).
      exists (started s2), [LogPass]. split; [reflexivity|].
      rewrite Hg, Hl, Hbd, Hpe, Hro.
      split; [exact Hb2|]. split; [exact Hpe2|]. split; [exact Hro2|].
      split; [exact Hl2|]. left. exact Hbd2.
Qed.

(** After a move is complete: [game_over], then [finish_game] or
    [switch_player]. *)
Lemma end_of_move_keeps (s : gui) :
  wf_board (board_now s) →
  ∃ s' rest,
    (over ← game_over (board_now s);
     if over : bool then mret (finish_game s) else switch_player s) = Ok s' ∧
    board_now s' = board_now s ∧
    pending_return s' = pending_return s ∧
    return_origin s' = return_origin s ∧
    log s' = log s ++ rest ∧
    (binding s' = binding s ∨ binding s' = None).
Proof.
  intros Hwf. destruct (game_over_ok (board_now s) Hwf) as (over & -> & _).
  rewrite bind_Ok. destruct over.
  - destruct (finish_game_fields s)
      as (Hg & Hl & Hbd & _ & _ & _ & _ & _ & _ & Hpe & Hro).
    exists (finish_game s), []. split; [reflexivity|].
    unfold board_now. rewrite Hg, Hl, Hbd, Hpe, Hro, app_nil_r.
    split_and!; try reflexivity. by right.
  - by apply switch_player_keeps.
Qed.

(** X13. The manual return of test2.py. While a return is pending a
    click on the board is ignored by [handle_click]. A click on a legal
    cell applies the move; when it flips 3 pieces or more nothing is
    returned yet: the flips are kept as the pending return, the move is
    not logged and the canvas is bound to [handle_return_click]; when it
    flips fewer, no return becomes pending. [handle_return_click]
    ignores a click on a cell that is not one of the pending flips; a
    click on one of them gives that single cell back to the opponent,
    logs the move with it, and clears the pending return. *)
Theorem manual_return (ex ey : Z) (s : gui) :
  wf_board (board_now s) →
  let row := ey `div` CELL_SIZE in
  let col := ex `div` CELL_SIZE in
  let p := player_now s in
  let b := board_now s in
  (Manual.is_pending s = true → Manual.handle_click ex ey s = Ok s) ∧
  (Manual.is_pending s = false → (row, col) ∈ moves_of b p →
     let F := flips_of b p row col in
     ∃ s', Manual.handle_click ex ey s = Ok s' ∧
       ((3 ≤ length F)%nat →
          board_now s' = applied b p row col ∧
          pending_return s' = Some F ∧ return_origin s' = Some (row, col) ∧
          binding s' = Some HandleReturnClick ∧
          player_now s' = p ∧ log s' = log s) ∧
       ((length F < 3)%nat →
          board_now s' = applied b p row col ∧
          pending_return s' = pending_return s ∧
          (binding s' = binding s ∨ binding s' = None) ∧
          ∃ rest, log s' = log s ++ LogMove p row col None :: rest)) ∧
  (∀ F ox oy,
     pending_return s = Some F → return_origin s = Some (ox, oy) →
     Forall inside_at F →
     ((row, col) ∉ F → Manual.handle_return_click ex ey s = Ok s) ∧
     ((row, col) ∈ F →
        ∃ s' rest, Manual.handle_return_click ex ey s = Ok s' ∧
          board_now s' = board_put b row col (Stone (opponent p)) ∧
          pending_return s' = None ∧ return_origin s' = None ∧
          (binding s' = Some HandleClick ∨ binding s' = None) ∧
          log s' = log s ++ LogMove p ox oy (Some (row, col)) :: rest)).
Proof.
  intros Hwf row col p b. split; [|split].
  - intros Hp. unfold Manual.handle_click. by rewrite Hp.
  - intros Hp Hm F. unfold Manual.handle_click. rewrite Hp. fold row col.
    apply moves_of_elem in Hm as Hm'; [|exact Hwf]. destruct Hm' as [Hi _].
    unfold inside_at in Hi. cbn [fst snd] in Hi.
    rewrite on_board_inside, Hi. cbn [negb].
    destruct (get_valid_moves_ok (board_now s) (player_now s) Hwf) as [-> _].
    rewrite bind_Ok. fold p b.
    rewrite bool_decide_eq_false_2 by (by intros H; apply H).
    destruct (stop_timer_fields s)
      as (Hg0 & Hl0 & Hb0 & _ & _ & _ & _ & _ & _ & Hpe0 & Hro0 & _).
    assert (Hps : player_now (stop_timer s) = p)
      by (unfold player_now, p; by rewrite Hg0).
    rewrite Hps, Hg0.
    rewrite (manual_make_move_legal (game_of s) p row col Hwf Hm), bind_Ok.
    change (board_of (game_of s)) with (board_now s). fold b F. clear Hm.
    set (s1 := set_game (set_board (applied b p row col) (game_of s))
                 (stop_timer s)).
    assert (H1 : board_now s1 = applied b p row col ∧ player_now s1 = p ∧
                 log s1 = log s ∧ pending_return s1 = pending_return s ∧
                 binding s1 = binding s).
    { subst s1 p. rewrite <- Hl0, <- Hpe0, <- Hb0.
      unfold board_now, player_now. rewrite <- Hg0.
      by destruct (stop_timer s) as [[]]. }
    destruct H1 as (Hb1 & Hp1 & Hl1 & Hpe1 & Hbd1).
    destruct (decide (3 ≤ length F)%nat) as [H3|H3].
    + rewrite (bool_decide_eq_true_2 _ H3).
      exists (set_binding (Some HandleReturnClick)
                (set_return_origin (Some (row, col))
                   (set_pending_return (Some F) s1))).
      split; [reflexivity|].
      split; [|intros; lia]. intros _.
      assert (H4 : ∀ t,
        let t' := set_binding (Some HandleReturnClick)
                    (set_return_origin (Some (row, col))
                       (set_pending_return (Some F) t)) in
        board_now t' = board_now t ∧ pending_return t' = Some F ∧
        return_origin t' = Some (row, col) ∧
        binding t' = Some HandleReturnClick ∧
        player_now t' = player_now t ∧ log t' = log t)
        by (intros [[]]; by split_and!).
      destruct (H4 s1) as (E1 & E2 & E3 & E4 & E5 & E6).
      rewrite E1, E2, E3, E4, E5, E6, Hb1, Hp1, Hl1. by split_and!.
    + rewrite (bool_decide_eq_false_2 _ H3). rewrite Hp1.
      set (s2 := log_move (LogMove p row col None) s1).
      assert (H2 : board_now s2 = applied b p row col ∧
                   log s2 = log s ++ [LogMove p row col None] ∧
                   pending_return s2 = pending_return s ∧
                   binding s2 = binding s).
      { subst s2. rewrite <- Hb1, <- Hl1, <- Hpe1, <- Hbd1.
        unfold board_now. by destruct s1. }
      destruct H2 as (Hb2 & Hl2 & Hpe2 & Hbd2).
      destruct (end_of_move_keeps s2) as (s' & rest & Hrun & Hb' & Hpe' & _ & Hl' & Hbd').
      { rewrite Hb2. by apply applied_wf. }
      exists s'. split; [exact Hrun|]. split; [intros; lia|]. intros _.
      split; [rewrite Hb'; exact Hb2|]. split; [rewrite Hpe'; exact Hpe2|].
      split; [rewrite <- Hbd2; exact Hbd'|].
      exists rest. rewrite Hl', Hl2, <- app_assoc. reflexivity.
  - intros F ox oy HF Horig Hall. unfold Manual.handle_return_click.
    fold row col. rewrite HF. split.
    + intros Hnin. by rewrite (bool_decide_eq_true_2 _ Hnin).
    + intros Hin.
      rewrite bool_decide_eq_false_2 by (by intros H; apply H).
      pose proof (proj1 (list.Forall_forall _ _) Hall _ Hin) as Hi.
      unfold inside_at in Hi. cbn [fst snd] in Hi.
      rewrite board_set_inside by done. rewrite bind_Ok. fold p b.
      set (s1 := set_game _ s).
      assert (H1 : return_origin s1 = Some (ox, oy) ∧ player_now s1 = p)
        by (subst s1 p; unfold player_now; by destruct s as [[]]).
      destruct H1 as [-> Hp1]. rewrite Hp1.
      set (s2 := set_binding _ _).
      assert (H2 : board_now s2 = board_put b row col (Stone (opponent p)) ∧
                   log s2 = log s ++ [LogMove p ox oy (Some (row, col))] ∧
                   pending_return s2 = None ∧ return_origin s2 = None ∧
                   binding s2 = Some HandleClick).
      { subst s2 s1 b. unfold board_now. by destruct s as [[]]. }
      destruct H2 as (Hb2 & Hl2 & Hpe2 & Hro2 & Hbd2).
      destruct (end_of_move_keeps s2)
        as (s' & rest & Hrun & Hb' & Hpe' & Hro' & Hl' & Hbd').
      { rewrite Hb2. by apply board_put_wf. }
      exists s', rest. split; [exact Hrun|].
      split; [rewrite Hb'; exact Hb2|]. split; [rewrite Hpe'; exact Hpe2|].
      split; [rewrite Hro'; exact Hro2|].
      split; [rewrite <- Hbd2; exact Hbd'|].
      rewrite Hl', Hl2, <- app_assoc. reflexivity.
Qed.

Lemma manual_return_witness :
  let s := idle_gui (Game triple_board X (Ext 3 3)) in
  wf_board (board_now s) ∧
  ∃ s1, Manual.handle_click 250 10 s = Ok s1 ∧
    pending_return s1 = Some [(0, 3); (0, 2); (0, 1)] ∧
    binding s1 = Some HandleReturnClick ∧
    Manual.handle_return_click 10 400 s1 = Ok s1 ∧
    ∃ s2 rest, Manual.handle_return_click 130 10 s1 = Ok s2 ∧
      pending_return s2 = None ∧
      log s2 = LogMove X 0 4 (Some (0, 2)) :: rest.
Proof.
  cbv zeta. set (s := idle_gui (Game triple_board X (Ext 3 3))).
  split; [exact triple_board_wf|].
  assert (HF : flips_of triple_board X 0 4 = [(0, 3); (0, 2); (0, 1)])
    by (by vm_compute).
  destruct (manual_return 250 10 s triple_board_wf) as (_ & Hclick & _).
  destruct (Hclick eq_refl ltac:(by apply (bool_decide_unpack _); vm_compute))
    as (s1 & Hrun & H3 & _).
  cbv zeta in H3. change (board_now s) with triple_board in H3.
  change (player_now s) with X in H3.
  change (10 `div` CELL_SIZE) with 0 in H3.
  change (250 `div` CELL_SIZE) with 4 in H3.
  rewrite HF in H3.
  destruct (H3 ltac:(cbn; lia)) as (Hb1 & Hpe1 & Hro1 & Hbd1 & Hp1 & Hl1).
  exists s1. split; [exact Hrun|]. split; [exact Hpe1|]. split; [exact Hbd1|].
  assert (Hwf1 : wf_board (board_now s1))
    by (rewrite Hb1; apply applied_wf, triple_board_wf).
  assert (Hall : Forall inside_at [(0, 3); (0, 2); (0, 1)])
    by (by repeat constructor).
  split.
  - destruct (manual_return 10 400 s1 Hwf1) as (_ & _ & Hret).
    destruct (Hret _ _ _ Hpe1 Hro1 Hall) as [Hout _].
    apply Hout. by apply (bool_decide_unpack _); vm_compute.
  - destruct (manual_return 130 10 s1 Hwf1) as (_ & _ & Hret).
    destruct (Hret _ _ _ Hpe1 Hro1 Hall) as [_ Hin].
    destruct (Hin ltac:(by apply (bool_decide_unpack _); vm_compute))
      as (s2 & rest & Hrun2 & _ & Hpe2 & _ & _ & Hl2).
    exists s2, rest. split; [exact Hrun2|]. split; [exact Hpe2|].
    rewrite Hl2, Hl1, Hp1. reflexivity.
Defined.

(** ** The random agent (test3.py) *)

Lemma vsai_start_turn_fields (s : gui) :
  let s' := VsAI.start_turn s in
  game_of s' = game_of s ∧ log s' = log s ∧ binding s' = binding s ∧
  pending_return s' = pending_return s ∧
  return_origin s' = return_origin s ∧
  status s' = Some (StatusPlayer (player_now s)) ∧
  after_queue s' =
    after_queue s ++
    (if bool_decide (player_now s = O) && vs_ai s
     then [(next_after s, CbAiMove)] else []).
Proof.
  unfold VsAI.start_turn, player_now.
  open_gui s; destruct p, ai; cbn; rewrite ?app_nil_r; by split_and!.
Qed.

Lemma vsai_finish_game_fields (s : gui) :
  let s' := VsAI.finish_game s in
  game_of s' = game_of s ∧ log s' = log s ∧ binding s' = None ∧
  pending_return s' = pending_return s ∧
  return_origin s' = return_origin s ∧
  after_queue s' = after_queue s.
Proof.
  unfold VsAI.finish_game, announce_result.
  destruct (count_pieces _). by destruct s.
Qed.

Lemma vsai_switch_keeps (s : gui) :
  wf_board (board_now s) →
  ∃ s' rest, VsAI.switch_player s = Ok s' ∧
    board_now s' = board_now s ∧
    pending_return s' = pending_return s ∧
    return_origin s' = return_origin s ∧
    log s' = log s ++ rest ∧
    (binding s' = binding s ∨ binding s' = None).
Proof.
  intros Hwf. unfold VsAI.switch_player.
  set (s1 := turn_to (opponent (player_now s)) s).
  assert (H1 : board_now s1 = board_now s ∧
               pending_return s1 = pending_return s ∧
               return_origin s1 = return_origin s ∧
               log s1 = log s ∧ binding s1 = binding s).
  { subst s1. unfold board_now. by destruct s as [[]]. }
  destruct H1 as (Hb1 & Hpe1 & Hro1 & Hl1 & Hbd1).
  assert (Hwf1 : wf_board (board_now s1)) by (rewrite Hb1; exact Hwf).
  destruct (get_valid_moves_ok (board_now s1) (player_now s1) Hwf1) as [-> _].
  rewrite bind_Ok. generalize (moves_of (board_now s1) (player_now s1)).
  intros m1. destruct (bool_decide (m1 ≠ [])).
  - destruct (vsai_start_turn_fields s1) as (Hg & Hl & Hbd & Hpe & Hro & _).
    exists (VsAI.start_turn s1), []. split; [reflexivity|].
    unfold board_now in *. rewrite Hg, Hl, Hbd, Hpe, Hro, app_nil_r.
    split; [exact Hb1|]. split; [exact Hpe1|]. split; [exact Hro1|].
    split; [exact Hl1|]. left. exact Hbd1.
  - set (s2 := turn_to _ (log_move LogPass s1)).
    assert (H2 : board_now s2 = board_now s ∧
                 pending_return s2 = pending_return s ∧
                 return_origin s2 = return_origin s ∧
                 log s2 = log s ++ [LogPass] ∧ binding s2 = binding s).
    { subst s2. rewrite <- Hb1, <- Hpe1, <- Hro1, <- Hl1, <- Hbd1.
      unfold board_now. by destruct s1 as [[]]. }
    destruct H2 as (Hb2 & Hpe2 & Hro2 & Hl2 & Hbd2).
    assert (Hwf2 : wf_board (board_now s2)) by (rewrite Hb2; exact Hwf).
    destruct (get_valid_moves_ok (board_now s2) (player_now s2) Hwf2) as [-> _].
    rewrite bind_Ok. generalize (moves_of (board_now s2) (player_now s2)).
    intros m2. destruct (bool_decide (m2 = [])).
    + destruct (vsai_finish_game_fields s2) as (Hg & Hl & Hbd & Hpe & Hro & _).
      exists (VsAI.finish_game s2), [LogPass]. split; [reflexivity|].
      unfold board_now in *. rewrite Hg, Hl, Hbd, Hpe, Hro.
      split; [exact Hb2|]. split; [exact Hpe2|]. split; [exact Hro2|].
      split; [exact Hl2|]. by right.
    + destruct (vsai_start_turn_fields s2) as (Hg & Hl & Hbd & Hpe & Hro & _).
      exists (VsAI.start_turn s2), [LogPass]. split; [reflexivity|].
      unfold board_now in *. rewrite Hg, Hl, Hbd, Hpe, Hro.
      split; [exact Hb2|]. split; [exact Hpe2|]. split; [exact Hro2|].
      split; [exact Hl2|]. left. exact Hbd2.
Qed.

Lemma vsai_end_of_move_keeps (s : gui) :
  wf_board (board_now s) →
  ∃ s' rest,
    (over ← game_over (board_now s);
     if over : bool then mret (VsAI.finish_game s)
     else VsAI.switch_player s) = Ok s' ∧
    board_now s' = board_now s ∧
    pending_return s' = pending_return s ∧
    return_origin s' = return_origin s ∧
    log s' = log s ++ rest ∧
    (binding s' = binding s ∨ binding s' = None).
Proof.
  intros Hwf. destruct (game_over_ok (board_now s) Hwf) as (over & -> & _).
  rewrite bind_Ok. destruct over.
  - destruct (vsai_finish_game_fields s) as (Hg & Hl & Hbd & Hpe & Hro & _).
    exists (VsAI.finish_game s), []. split; [reflexivity|].
    unfold board_now. rewrite Hg, Hl, Hbd, Hpe, Hro, app_nil_r.
    split_and!; try reflexivity. by right.
  - by apply vsai_switch_keeps.
Qed.

(** X14. [ai_move] of test3.py. With no legal move for O it logs PASS
    and leaves the board as it is. Otherwise it plays the member of
    [get_valid_moves("O")] the random source picks, a legal move, and
    logs it; when the move flips 3 pieces or more, the flipped cell the
    second draw picks is given back to X at once, and when it flips
    fewer nothing is given back. The agent never waits for a return
    click: [pending_return] is left as it was. *)
Theorem ai_move_plays (rnd_move rnd_return : nat) (s : gui) :
  wf_board (board_now s) →
  let b := board_now s in
  let moves := moves_of b O in
  (moves = [] →
     ∃ s' rest, VsAI.ai_move rnd_move rnd_return s = Ok s' ∧
       board_now s' = b ∧ log s' = log s ++ LogPass :: rest) ∧
  (moves ≠ [] →
     ∃ row col s' ret rest,
       moves !! (rnd_move `mod` length moves)%nat = Some (row, col) ∧
       VsAI.ai_move rnd_move rnd_return s = Ok s' ∧
       log s' = log s ++ LogMove O row col ret :: rest ∧
       pending_return s' = pending_return s ∧
       let F := flips_of b O row col in
       ((length F < 3)%nat →
          ret = None ∧ board_now s' = applied b O row col) ∧
       ((3 ≤ length F)%nat →
          ∃ pos, F !! (rnd_return `mod` length F)%nat = Some pos ∧
            ret = Some pos ∧
            board_now s' = board_put (applied b O row col) pos.1 pos.2 (Stone X))).
Proof.
  intros Hwf b moves. unfold VsAI.ai_move.
  destruct (get_valid_moves_ok (board_now s) O Hwf) as [-> _].
  rewrite bind_Ok. fold b moves.
  assert (Hmem : ∀ q, q ∈ moves → q ∈ moves_of b O) by (intros q Hq; exact Hq).
  clearbody moves. split.
  - intros ->. rewrite bool_decide_eq_true_2 by reflexivity.
    set (s1 := log_move LogPass s).
    assert (H1 : board_now s1 = b ∧ log s1 = log s ++ [LogPass])
      by (subst s1 b; unfold board_now; by destruct s).
    destruct H1 as [Hb1 Hl1].
    destruct (vsai_switch_keeps s1) as (s' & rest & Hrun & Hb' & _ & _ & Hl' & _).
    { rewrite Hb1. exact Hwf. }
    exists s', rest. split; [exact Hrun|]. split; [rewrite Hb'; exact Hb1|].
    rewrite Hl', Hl1, <- app_assoc. reflexivity.
  - intros Hne. rewrite (bool_decide_eq_false_2 _ Hne).
    destruct (random_choice_ok rnd_move moves Hne) as ([row col] & Hrc & Hlk).
    rewrite Hrc, bind_Ok.
    pose proof (Hmem _ (list_elem_of_lookup_2 _ _ _ Hlk)) as Hm. clear Hmem.
    rewrite (vsai_make_move_legal (game_of s) O row col Hwf Hm), bind_Ok.
    change (board_of (game_of s)) with b.
    destruct (legal_move_facts b O row col Hwf Hm)
      as (_ & _ & HFne & _ & Hall & _).
    clear Hm. set (F := flips_of b O row col) in *.
    set (s1 := set_game (set_board (applied b O row col) (game_of s)) s).
    assert (H1 : board_now s1 = applied b O row col ∧ log s1 = log s ∧
                 pending_return s1 = pending_return s ∧
                 game_of s1 = set_board (applied b O row col) (game_of s))
      by (subst s1; unfold board_now; by destruct s).
    destruct H1 as (Hb1 & Hl1 & Hpe1 & Hg1).
    pose proof (applied_wf b O row col Hwf) as Hwfa.
    destruct (decide (3 ≤ length F)%nat) as [H3|H3].
    + rewrite (bool_decide_eq_true_2 _ H3).
      destruct (random_choice_ok rnd_return F HFne) as (pos & Hrc2 & Hlk2).
      rewrite Hrc2, bind_Ok, Hb1.
      pose proof (proj1 (list.Forall_forall _ _) Hall pos
                    (list_elem_of_lookup_2 _ _ _ Hlk2)) as Hposi.
      rewrite board_set_inside by done. rewrite !bind_Ok.
      set (s2 := log_move (LogMove O row col (Some pos)) _).
      assert (H2 : board_now s2
                   = board_put (applied b O row col) pos.1 pos.2 (Stone X) ∧
                   log s2 = log s ++ [LogMove O row col (Some pos)] ∧
                   pending_return s2 = pending_return s).
      { subst s2. rewrite <- Hl1, <- Hpe1. unfold board_now.
        by destruct s1 as [[]]. }
      destruct H2 as (Hb2 & Hl2 & Hpe2).
      destruct (vsai_end_of_move_keeps s2)
        as (s' & rest & Hrun & Hb' & Hpe' & _ & Hl' & _).
      { rewrite Hb2. by apply board_put_wf. }
      exists row, col, s', (Some pos), rest. split; [exact Hlk|].
      split; [exact Hrun|].
      split; [rewrite Hl', Hl2, <- app_assoc; reflexivity|].
      split; [rewrite Hpe'; exact Hpe2|].
      change (flips_of b O row col) with F.
      split; [intros; lia|]. intros _. exists pos.
      split; [exact Hlk2|]. split; [reflexivity|]. rewrite Hb'. exact Hb2.
    + rewrite (bool_decide_eq_false_2 _ H3), !bind_Ok.
      set (s2 := log_move (LogMove O row col None) s1).
      assert (H2 : board_now s2 = applied b O row col ∧
                   log s2 = log s ++ [LogMove O row col None] ∧
                   pending_return s2 = pending_return s).
      { subst s2. rewrite <- Hb1, <- Hl1, <- Hpe1. unfold board_now.
        by destruct s1 as [[]]. }
      destruct H2 as (Hb2 & Hl2 & Hpe2).
      destruct (vsai_end_of_move_keeps s2)
        as (s' & rest & Hrun & Hb' & Hpe' & _ & Hl' & _).
      { rewrite Hb2. exact Hwfa. }
      exists row, col, s', None, rest. split; [exact Hlk|].
      split; [exact Hrun|].
      split; [rewrite Hl', Hl2, <- app_assoc; reflexivity|].
      split; [rewrite Hpe'; exact Hpe2|].
      change (flips_of b O row col) with F.
      split; [|intros; lia]. intros _. split; [reflexivity|].
      rewrite Hb'. exact Hb2.
Qed.

Lemma ai_move_plays_witness :
  let s := idle_gui (Game pass_board O (Ext 3 3)) in
  let t := idle_gui (Game three_moves_board O (Ext 3 3)) in
  wf_board (board_now s) ∧ wf_board (board_now t) ∧
  (∃ s' rest, VsAI.ai_move 0 0 s = Ok s' ∧
     board_now s' = pass_board ∧ log s' = LogPass :: rest) ∧
  (∃ row col t' ret rest, VsAI.ai_move 0 0 t = Ok t' ∧
     log t' = LogMove O row col ret :: rest ∧ pending_return t' = None).
Proof.
  cbv zeta. split; [exact pass_board_wf|]. split; [exact three_moves_board_wf|].
  split.
  - destruct (ai_move_plays 0 0 (idle_gui (Game pass_board O (Ext 3 3)))
                pass_board_wf) as [Hpass _].
    destruct (Hpass ltac:(by vm_compute)) as (s' & rest & Hrun & Hb & Hl).
    exists s', rest. split; [exact Hrun|]. split; [exact Hb|exact Hl].
  - destruct (ai_move_plays 0 0 (idle_gui (Game three_moves_board O (Ext 3 3)))
                three_moves_board_wf) as [_ Hmove].
    destruct (Hmove ltac:(by vm_compute))
      as (row & col & t' & ret & rest & _ & Hrun & Hl & Hpe & _).
    exists row, col, t', ret, rest.
    split; [exact Hrun|]. split; [exact Hl|exact Hpe].
Defined.

Lemma vsai_switch_turn (s : gui) :
  wf_board (board_now s) →
  moves_of (board_now s) (opponent (player_now s)) ≠ [] →
  VsAI.switch_player s
  = Ok (VsAI.start_turn (turn_to (opponent (player_now s)) s)).
Proof.
  intros Hwf Hne. unfold VsAI.switch_player.
  set (s1 := turn_to (opponent (player_now s)) s).
  assert (H1 : board_now s1 = board_now s ∧
               player_now s1 = opponent (player_now s))
    by (subst s1; unfold board_now, player_now; by destruct s as [[]]).
  destruct H1 as [Hb1 Hp1].
  assert (Hwf1 : wf_board (board_now s1)) by (rewrite Hb1; exact Hwf).
  destruct (get_valid_moves_ok (board_now s1) (player_now s1) Hwf1) as [-> _].
  rewrite bind_Ok, Hb1, Hp1. rewrite (bool_decide_eq_true_2 _ Hne).
  reflexivity.
Qed.

(** X15. [handle_click] of test3.py tests and plays the click as a move
    of X, whatever [current_player] is: a click on a cell that is not a
    legal move of X is ignored, a click on one applies X's move. With 3
    flips or more the flips become the pending return and nothing else
    changes. With fewer the move is logged as X's and, when the opponent
    of [current_player] can move on the new board, the turn goes to that
    opponent: a click made while it is O's turn leaves X to move, and
    the agent's scheduled call stays in the queue. *)
Theorem vsai_click_is_black (ex ey : Z) (s : gui) :
  wf_board (board_now s) → Manual.is_pending s = false →
  let row := ey `div` CELL_SIZE in
  let col := ex `div` CELL_SIZE in
  let b := board_now s in
  let p := player_now s in
  on_board row col = true →
  ((row, col) ∉ moves_of b X → VsAI.handle_click ex ey s = Ok s) ∧
  ((row, col) ∈ moves_of b X →
     let F := flips_of b X row col in
     ∃ s', VsAI.handle_click ex ey s = Ok s' ∧
       board_now s' = applied b X row col ∧
       ((3 ≤ length F)%nat →
          pending_return s' = Some F ∧ return_origin s' = Some (row, col) ∧
          player_now s' = p ∧ log s' = log s ∧
          after_queue s' = after_queue s) ∧
       ((length F < 3)%nat →
          ∃ rest, log s' = log s ++ LogMove X row col None :: rest ∧
            (moves_of (applied b X row col) (opponent p) ≠ [] →
               rest = [] ∧ player_now s' = opponent p ∧
               after_queue s' =
                 after_queue s ++
                 (if bool_decide (opponent p = O) && vs_ai s
                  then [(next_after s, CbAiMove)] else [])))).
Proof.
  intros Hwf Hpend row col b p Hon. unfold VsAI.handle_click.
  rewrite Hpend. fold row col. rewrite Hon. cbn [negb].
  destruct (get_valid_moves_ok (board_now s) X Hwf) as [-> _].
  rewrite bind_Ok. fold b. split.
  - intros Hnot. rewrite (bool_decide_eq_true_2 _ Hnot). reflexivity.
  - intros Hm.
    rewrite (bool_decide_eq_false_2 _ (λ H : (row, col) ∉ moves_of b X, H Hm)).
    rewrite (vsai_make_move_legal (game_of s) X row col Hwf Hm), bind_Ok.
    change (board_of (game_of s)) with b.
    pose proof (applied_wf b X row col Hwf) as Hwfa.
    clear Hm. generalize dependent (applied b X row col). intros b2 Hwfa.
    generalize (flips_of b X row col). intros F.
    set (s1 := set_game (set_board b2 (game_of s)) s).
    destruct (decide (3 ≤ length F)%nat) as [H3|H3].
    + rewrite (bool_decide_eq_true_2 _ H3).
      eexists. split; [reflexivity|].
      split; [subst s1; unfold board_now; by destruct s as [[]]|].
      split; [|intros; lia]. intros _.
      subst s1 p. unfold player_now. by destruct s as [[]].
    + rewrite (bool_decide_eq_false_2 _ H3).
      set (s2 := log_move (LogMove X row col None) s1).
      assert (H2 : board_now s2 = b2 ∧
                   log s2 = log s ++ [LogMove X row col None] ∧
                   player_now s2 = p ∧ after_queue s2 = after_queue s ∧
                   next_after s2 = next_after s ∧ vs_ai s2 = vs_ai s).
      { subst s2 s1 p. unfold board_now, player_now. by destruct s as [[]]. }
      destruct H2 as (Hb2 & Hl2 & Hp2 & Hq2 & Hn2 & Hv2).
      assert (Hwf2 : wf_board (board_now s2)) by (rewrite Hb2; exact Hwfa).
      destruct (decide (moves_of b2 (opponent p) = [])) as [He|Hne].
      * destruct (vsai_end_of_move_keeps s2 Hwf2)
          as (s' & rest & Hrun & Hb' & _ & _ & Hl' & _).
        exists s'. split; [exact Hrun|].
        split; [rewrite Hb'; exact Hb2|]. split; [intros; lia|].
        intros _. exists rest.
        split; [rewrite Hl', Hl2, <- app_assoc; reflexivity|].
        intros Hne. destruct (Hne He).
      * destruct (game_over_ok (board_now s2) Hwf2) as (over & -> & Hiff).
        rewrite bind_Ok. destruct over.
        { exfalso. destruct (proj1 Hiff eq_refl) as [HX HO].
          rewrite Hb2 in HX, HO. revert Hne.
          destruct (opponent p); [rewrite HX|rewrite HO];
            intros H; exact (H eq_refl). }
        clear Hiff.
        assert (Hne2 : moves_of (board_now s2) (opponent (player_now s2)) ≠ [])
          by (rewrite Hb2, Hp2; exact Hne).
        rewrite (vsai_switch_turn s2 Hwf2 Hne2), Hp2.
        set (s3 := turn_to (opponent p) s2).
        assert (H3' : board_now s3 = b2 ∧ log s3 = log s2 ∧
                      player_now s3 = opponent p ∧
                      after_queue s3 = after_queue s2 ∧
                      next_after s3 = next_after s2 ∧ vs_ai s3 = vs_ai s2).
        { subst s3. rewrite <- Hb2. unfold board_now, player_now.
          by destruct s2 as [[]]. }
        destruct H3' as (Hb3 & Hl3 & Hp3 & Hq3 & Hn3 & Hv3).
        destruct (vsai_start_turn_fields s3) as (Hg & Hl & _ & _ & _ & _ & Hq).
        exists (VsAI.start_turn s3). split; [reflexivity|].
        split; [unfold board_now in *; rewrite Hg; exact Hb3|].
        split; [intros; lia|]. intros _. exists [].
        split; [rewrite Hl, Hl3; exact Hl2|]. intros _.
        split; [reflexivity|].
        split; [unfold player_now in *; rewrite Hg; exact Hp3|].
        rewrite Hq, Hq3, Hq2, Hn3, Hn2, Hv3, Hv2, Hp3. reflexivity.
Qed.

Lemma vsai_click_is_black_witness :
  let s := set_after_queue [(0%nat, CbAiMove)]
             (idle_gui (Game three_moves_board O (Ext 3 3))) in
  wf_board (board_now s) ∧ Manual.is_pending s = false ∧
  on_board (130 `div` CELL_SIZE) (130 `div` CELL_SIZE) = true ∧
  player_now s = O ∧
  ∃ s', VsAI.handle_click 130 130 s = Ok s' ∧
    board_now s' = applied three_moves_board X 2 2 ∧
    player_now s' = X ∧
    after_queue s' = [(0%nat, CbAiMove)].
Proof.
  cbv zeta.
  set (s := set_after_queue [(0%nat, CbAiMove)]
              (idle_gui (Game three_moves_board O (Ext 3 3)))).
  split; [exact three_moves_board_wf|]. split; [reflexivity|].
  split; [reflexivity|]. split; [reflexivity|].
  destruct (vsai_click_is_black 130 130 s three_moves_board_wf eq_refl eq_refl)
    as [_ Hplay].
  destruct (Hplay ltac:(by apply (bool_decide_unpack _); vm_compute))
    as (s' & Hrun & Hb & _ & Hlt).
  destruct (Hlt ltac:(vm_compute; lia)) as (rest & _ & Hturn).
  destruct (Hturn ltac:(by vm_compute)) as (_ & Hp & Hq).
  exists s'. split; [exact Hrun|]. split; [exact Hb|].
  split; [exact Hp|exact Hq].
Defined.

(** ** The event loop of test2.py *)

Lemma end_of_move_inv (s : gui) :
  clock_inv s → after_queue s = [] → binding s = Some HandleClick →
  ∃ s', (over ← game_over (board_now s);
         if over : bool then mret (finish_game s) else switch_player s)
        = Ok s' ∧ auto_inv s'.
Proof.
  intros Hc Hq Hbd. pose proof Hc as (Hwf & _).
  destruct (game_over_ok (board_now s) Hwf) as (over & -> & Hiff).
  rewrite bind_Ok. destruct over.
  - destruct (proj1 Hiff eq_refl) as [HmX HmO].
    eexists. split; [reflexivity|].
    apply auto_inv_finished; [exact Hc|by apply stop_timer_quiet|..];
      assumption.
  - by apply auto_inv_switch.
Qed.

Lemma clock_inv_extension (s : gui) :
  clock_inv s →
  let s' := use_extension s in
  clock_inv s' ∧ after_queue s' = after_queue s ∧ binding s' = binding s ∧
  pending_return s' = pending_return s ∧ return_origin s' = return_origin s.
Proof.
  intros Hc. pose proof Hc as (Hwf & HX & HO & Ht).
  cbv zeta. unfold use_extension.
  set (p := player_now s). fold (budget s p).
  destruct (bool_decide (budget s p = 0)) eqn:E0; cbn [orb];
    [split; [exact Hc|]; by split_and!|].
  destruct (bool_decide (120 ≤ time_left s)) eqn:E1;
    [split; [exact Hc|]; by split_and!|].
  apply bool_decide_eq_false in E0, E1.
  set (s' := update_status _).
  assert (H : board_now s' = board_now s ∧
              after_queue s' = after_queue s ∧ binding s' = binding s ∧
              pending_return s' = pending_return s ∧
              return_origin s' = return_origin s ∧
              0 ≤ time_left s' ≤ 120 ∧
              0 ≤ budget s' X ≤ 3 ∧ 0 ≤ budget s' O ≤ 3).
  { subst s' p. unfold board_now, player_now, budget in *.
    open_gui s; destruct p; cbn in *; case_bool_decide; cbn;
      split_and!; (done || lia). }
  destruct H as (Hb' & Hq' & Hbd' & Hpe' & Hro' & Ht' & HX' & HO').
  split; [|by split_and!].
  unfold clock_inv. rewrite Hb'.
  split; [exact Hwf|]. split; [exact HX'|]. split; [exact HO'|exact Ht'].
Qed.

Lemma manual_inv_click (ex ey : Z) (s : gui) :
  auto_inv s → binding s = Some HandleClick →
  ∃ s', Manual.handle_click ex ey s = Ok s' ∧ manual_inv s'.
Proof.
  intros Hinv Hbd. pose proof Hinv as ((Hwf & HX & HO & Ht) & Htm & _).
  unfold Manual.handle_click.
  destruct (Manual.is_pending s); [exists s; split; [reflexivity|by left]|].
  set (row := ey `div` CELL_SIZE). set (col := ex `div` CELL_SIZE).
  destruct (on_board row col); cbn [negb];
    [|exists s; split; [reflexivity|by left]].
  destruct (get_valid_moves_ok (board_now s) (player_now s) Hwf) as [-> _].
  rewrite bind_Ok.
  destruct (decide ((row, col) ∈ moves_of (board_now s) (player_now s)))
    as [Hm|Hm].
  2: { rewrite (bool_decide_eq_true_2 _ Hm).
       exists s. split; [reflexivity|by left]. }
  rewrite bool_decide_eq_false_2 by (by intros H; apply H).
  destruct (stop_timer_fields s)
    as (Hg0 & _ & Hb0 & _ & _ & Ht0 & _ & _ & _ & _ & _ & Hq0).
  specialize (Hq0 Htm).
  assert (Hps : player_now (stop_timer s) = player_now s)
    by (unfold player_now; by rewrite Hg0).
  rewrite Hps, Hg0.
  rewrite (manual_make_move_legal (game_of s) _ row col Hwf Hm), bind_Ok.
  change (board_of (game_of s)) with (board_now s).
  destruct (legal_move_facts _ _ _ _ Hwf Hm) as (_ & _ & HFne & _ & Hall & _).
  pose proof (applied_wf (board_now s) (player_now s) row col Hwf) as Hwfa.
  clear Hm. revert HFne Hall Hwfa.
  generalize (flips_of (board_now s) (player_now s) row col).
  generalize (applied (board_now s) (player_now s) row col).
  intros b2 F HFne Hall Hwfa.
  set (s1 := set_game (set_board b2 (game_of s)) (stop_timer s)).
  assert (H1 : board_now s1 = b2 ∧ player_now s1 = player_now s ∧
               budget s1 X = budget s X ∧ budget s1 O = budget s O ∧
               after_queue s1 = [] ∧ binding s1 = Some HandleClick ∧
               time_left s1 = time_left s).
  { subst s1. rewrite <- Hq0, <- Hbd, <- Hb0, <- Ht0.
    unfold board_now, player_now, budget. rewrite <- Hg0.
    by destruct (stop_timer s) as [[]]. }
  destruct H1 as (Hb1 & Hp1 & HX1 & HO1 & Hq1 & Hbd1 & Ht1).
  destruct (decide (3 ≤ length F)%nat) as [H3|H3].
  - rewrite (bool_decide_eq_true_2 _ H3).
    eexists. split; [reflexivity|]. right.
    assert (H4 : ∀ t,
      let t' := set_binding (Some HandleReturnClick)
                  (set_return_origin (Some (row, col))
                     (set_pending_return (Some F) t)) in
      board_now t' = board_now t ∧ pending_return t' = Some F ∧
      return_origin t' = Some (row, col) ∧
      binding t' = Some HandleReturnClick ∧
      budget t' X = budget t X ∧ budget t' O = budget t O ∧
      time_left t' = time_left t ∧ after_queue t' = after_queue t)
      by (intros [[]]; by split_and!).
    destruct (H4 s1) as (E1 & E2 & E3 & E4 & E5 & E6 & E7 & E8).
    unfold waiting_inv, clock_inv.
    rewrite E1, E4, E5, E6, E7, E8, Hb1, HX1, HO1, Ht1.
    split; [exact (conj Hwfa (conj HX (conj HO Ht)))|].
    split; [exact Hq1|]. split; [reflexivity|].
    exists F, (row, col). by split_and!.
  - rewrite (bool_decide_eq_false_2 _ H3), Hp1.
    set (s2 := log_move _ s1).
    assert (H2 : board_now s2 = b2 ∧
                 budget s2 X = budget s X ∧ budget s2 O = budget s O ∧
                 after_queue s2 = [] ∧ binding s2 = Some HandleClick ∧
                 time_left s2 = time_left s).
    { subst s2. rewrite <- Hb1, <- HX1, <- HO1, <- Hq1, <- Hbd1, <- Ht1.
      unfold board_now, budget. by destruct s1 as [[]]. }
    destruct H2 as (Hb2 & HX2 & HO2 & Hq2 & Hbd2 & Ht2).
    destruct (end_of_move_inv s2) as (s' & Hrun & Hinv'); [|done..|].
    { unfold clock_inv. rewrite Hb2, HX2, HO2, Ht2.
      exact (conj Hwfa (conj HX (conj HO Ht))). }
    exists s'. split; [exact Hrun|by left].
Qed.

Lemma manual_inv_return_click (ex ey : Z) (s : gui) :
  waiting_inv s →
  ∃ s', Manual.handle_return_click ex ey s = Ok s' ∧ manual_inv s'.
Proof.
  intros Hinv.
  pose proof Hinv
    as ((Hwf & HX & HO & Ht) & Hq & Hbd & F & [ox oy] & HF & _ & Hro & Hall).
  unfold Manual.handle_return_click.
  set (row := ey `div` CELL_SIZE). set (col := ex `div` CELL_SIZE).
  rewrite HF.
  destruct (decide ((row, col) ∈ F)) as [Hin|Hnin].
  2: { rewrite (bool_decide_eq_true_2 _ Hnin).
       exists s. split; [reflexivity|by right]. }
  rewrite bool_decide_eq_false_2 by (by intros H; apply H).
  pose proof (proj1 (list.Forall_forall _ _) Hall _ Hin) as Hi.
  unfold inside_at in Hi. cbn [fst snd] in Hi.
  rewrite board_set_inside by done. rewrite bind_Ok.
  pose proof (board_put_wf (board_now s) row col
                (Stone (opponent (player_now s))) Hwf) as Hwf2.
  revert Hwf2. generalize (board_put (board_now s) row col
                             (Stone (opponent (player_now s)))).
  intros b2 Hwf2.
  set (s1 := set_game _ s).
  assert (H1 : return_origin s1 = Some (ox, oy))
    by (subst s1; by destruct s as [[]]).
  rewrite H1.
  set (s2 := set_binding _ _).
  assert (H2 : board_now s2 = b2 ∧
               budget s2 X = budget s X ∧ budget s2 O = budget s O ∧
               after_queue s2 = after_queue s ∧
               binding s2 = Some HandleClick ∧
               time_left s2 = time_left s).
  { subst s2 s1. unfold board_now, budget. by destruct s as [[]]. }
  destruct H2 as (Hb2 & HX2 & HO2 & Hq2 & Hbd2 & Ht2).
  destruct (end_of_move_inv s2) as (s' & Hrun & Hinv'); [| |done|].
  { unfold clock_inv. rewrite Hb2, HX2, HO2, Ht2.
    exact (conj Hwf2 (conj HX (conj HO Ht))). }
  { by rewrite Hq2. }
  exists s'. split; [exact Hrun|by left].
Qed.

Lemma manual_inv_step (e : Manual.event) (s : gui) :
  manual_inv s → ∃ s', Manual.step e s = Ok s' ∧ manual_inv s'.
Proof.
  intros [Hinv|Hinv].
  - destruct e as [ex ey| |id].
    + cbn [Manual.step]. destruct (binding s) as [[]|] eqn:Hb.
      * by apply manual_inv_click.
      * exfalso. destruct Hinv as (_ & _ & [[Hb' _]|[Hb' _]]); congruence.
      * exists s. split; [reflexivity|by left].
    + destruct (auto_inv_step Auto.ExtensionButton s Hinv) as (s' & Hrun & H').
      exists s'. split; [exact Hrun|by left].
    + destruct (auto_inv_step (Auto.TimerFires id) s Hinv) as (s' & Hrun & H').
      exists s'. split; [exact Hrun|by left].
  - pose proof Hinv as (Hc & Hq & Hbd & Hpend).
    destruct e as [ex ey| |id]; cbn [Manual.step].
    + rewrite Hbd. by apply manual_inv_return_click.
    + eexists. split; [reflexivity|]. right.
      destruct (clock_inv_extension s Hc) as (Hc' & Hq' & Hbd' & Hpe' & Hro').
      unfold waiting_inv. rewrite Hq', Hbd', Hpe', Hro'.
      split; [exact Hc'|]. split; [exact Hq|]. split; [exact Hbd|exact Hpend].
    + rewrite Hq. rewrite bool_decide_eq_false_2 by apply not_elem_of_nil.
      exists s. split; [reflexivity|by right].
Qed.

Lemma manual_inv_reachable (s : gui) : manual_reachable s → manual_inv s.
Proof.
  induction 1 as [s Hnew|e s s' _ IH Hstep].
  - rewrite first_gui_new in Hnew. injection Hnew as <-.
    left. exact auto_inv_first.
  - destruct (manual_inv_step e s IH) as (s2 & Hrun & Hinv).
    rewrite Hrun in Hstep. by injection Hstep as <-.
Qed.

Lemma first_gui_manual_reachable : manual_reachable first_gui.
Proof. apply manual_reach_new. exact first_gui_new. Qed.

(** X16. In test2.py, in every state the event loop reaches, the board
    is 8×8, each budget is between 0 and 3 and the countdown between 0
    and 120. The canvas is bound to [handle_return_click] only while a
    non-empty list of flips, all on the board, is pending together with
    the move that made them, and then no tick is scheduled: the clock
    does not run while the player chooses the piece to give back. While
    [handle_click] is bound the side to move has a legal move. Every
    event (a click anywhere, the extension button, a timer callback) is
    handled without an exception and leads to such a state again. *)
Theorem manual_never_raises (s : gui) :
  manual_reachable s →
  wf_board (board_now s) ∧
  0 ≤ budget s X ≤ 3 ∧ 0 ≤ budget s O ≤ 3 ∧
  0 ≤ time_left s ≤ 120 ∧
  (length (after_queue s) ≤ 1)%nat ∧
  (binding s = Some HandleReturnClick →
     after_queue s = [] ∧
     ∃ F o, pending_return s = Some F ∧ F ≠ [] ∧
            return_origin s = Some o ∧ Forall inside_at F) ∧
  (binding s = Some HandleClick →
     moves_of (board_now s) (player_now s) ≠ []) ∧
  (binding s = None → after_queue s = []) ∧
  ∀ e, ∃ s', Manual.step e s = Ok s' ∧ manual_reachable s'.
Proof.
  intros Hr. pose proof (manual_inv_reachable s Hr) as Hinv.
  assert (Hstep : ∀ e, ∃ s', Manual.step e s = Ok s' ∧ manual_reachable s').
  { intros e. destruct (manual_inv_step e s Hinv) as (s' & Hrun & _).
    exists s'. split; [exact Hrun|]. by apply (manual_reach_step e s s'). }
  destruct Hinv as [((Hwf & HX & HO & Ht) & Htm & Hph)|
                    ((Hwf & HX & HO & Ht) & Hq & Hbd & Hpend)].
  - split; [exact Hwf|]. split; [exact HX|]. split; [exact HO|].
    split; [exact Ht|]. split; [|split; [|split; [|split; [|exact Hstep]]]].
    + destruct Htm as [->|(id & -> & _)]; cbn; lia.
    + intros Hb. exfalso. destruct Hph as [[Hb' _]|[Hb' _]];
        rewrite Hb in Hb'; discriminate Hb'.
    + intros Hb. destruct Hph as [[_ Hm]|[Hb' _]]; [exact Hm|].
      rewrite Hb in Hb'. discriminate Hb'.
    + intros Hb. destruct Hph as [[Hb' _]|(_ & Hq & _)]; [|exact Hq].
      rewrite Hb in Hb'. discriminate Hb'.
  - split; [exact Hwf|]. split; [exact HX|]. split; [exact HO|].
    split; [exact Ht|]. split; [|split; [|split; [|split; [|exact Hstep]]]].
    + rewrite Hq. cbn. lia.
    + intros _. split; [exact Hq|exact Hpend].
    + intros Hb. rewrite Hb in Hbd. discriminate Hbd.
    + intros _. exact Hq.
Qed.

Lemma manual_never_raises_witness :
  manual_reachable first_gui ∧
  wf_board (board_now first_gui) ∧
  moves_of (board_now first_gui) (player_now first_gui) ≠ [] ∧
  ∃ s', Manual.step (Manual.Click 250 130) first_gui = Ok s' ∧
        manual_reachable s'.
Proof.
  split; [exact first_gui_manual_reachable|].
  destruct (manual_never_raises first_gui first_gui_manual_reachable)
    as (Hwf & _ & _ & _ & _ & _ & Hm & _ & Hstep).
  split; [exact Hwf|]. split; [exact (Hm eq_refl)|].
  exact (Hstep (Manual.Click 250 130)).
Defined.

(** ** The event loop of test3.py *)

Lemma vsai_inv_click (ex ey : Z) (s : gui) :
  vsai_inv s → binding s = Some HandleClick →
  ∃ s', VsAI.handle_click ex ey s = Ok s' ∧ vsai_inv s'.
Proof.
  intros Hinv Hbd. pose proof Hinv as (Hwf & _).
  unfold VsAI.handle_click.
  destruct (Manual.is_pending s); [by exists s|].
  set (row := ey `div` CELL_SIZE). set (col := ex `div` CELL_SIZE).
  destruct (on_board row col); cbn [negb]; [|by exists s].
  destruct (get_valid_moves_ok (board_now s) X Hwf) as [-> _].
  rewrite bind_Ok.
  destruct (decide ((row, col) ∈ moves_of (board_now s) X)) as [Hm|Hm].
  2: { rewrite (bool_decide_eq_true_2 _ Hm). by exists s. }
  rewrite bool_decide_eq_false_2 by (by intros H; apply H).
  rewrite (vsai_make_move_legal (game_of s) X row col Hwf Hm), bind_Ok.
  change (board_of (game_of s)) with (board_now s).
  destruct (legal_move_facts _ _ _ _ Hwf Hm) as (_ & _ & _ & _ & Hall & _).
  pose proof (applied_wf (board_now s) X row col Hwf) as Hwfa.
  clear Hm. revert Hall Hwfa.
  generalize (flips_of (board_now s) X row col).
  generalize (applied (board_now s) X row col).
  intros b2 F Hall Hwfa.
  set (s1 := set_game (set_board b2 (game_of s)) s).
  destruct (decide (3 ≤ length F)%nat) as [H3|H3].
  - rewrite (bool_decide_eq_true_2 _ H3).
    eexists. split; [reflexivity|].
    assert (H4 :
      let t' := set_binding (Some HandleReturnClick)
                  (set_return_origin (Some (row, col))
                     (set_pending_return (Some F) s1)) in
      board_now t' = b2 ∧ pending_return t' = Some F ∧
      return_origin t' = Some (row, col))
      by (subst s1; unfold board_now; by destruct s as [[]]).
    destruct H4 as (E1 & E2 & E3).
    split; [rewrite E1; exact Hwfa|]. intros _.
    exists F, (row, col). rewrite E2, E3. by split_and!.
  - rewrite (bool_decide_eq_false_2 _ H3).
    set (s2 := log_move _ s1).
    assert (H2 : board_now s2 = b2 ∧ binding s2 = Some HandleClick).
    { subst s2 s1. rewrite <- Hbd. unfold board_now. by destruct s as [[]]. }
    destruct H2 as (Hb2 & Hbd2).
    destruct (vsai_end_of_move_keeps s2)
      as (s' & rest & Hrun & Hb' & _ & _ & _ & Hbd').
    { rewrite Hb2. exact Hwfa. }
    exists s'. split; [exact Hrun|].
    split; [rewrite Hb', Hb2; exact Hwfa|].
    intros Hb. exfalso. rewrite Hbd2 in Hbd'.
    destruct Hbd' as [E|E]; rewrite Hb in E; discriminate E.
Qed.

Lemma vsai_inv_return_click (ex ey : Z) (s : gui) :
  vsai_inv s → binding s = Some HandleReturnClick →
  ∃ s', VsAI.handle_return_click ex ey s = Ok s' ∧ vsai_inv s'.
Proof.
  intros Hinv Hbd. pose proof Hinv as (Hwf & Hpend).
  destruct (Hpend Hbd) as (F & [ox oy] & HF & Hro & Hall).
  unfold VsAI.handle_return_click.
  set (row := ey `div` CELL_SIZE). set (col := ex `div` CELL_SIZE).
  rewrite HF.
  destruct (decide ((row, col) ∈ F)) as [Hin|Hnin].
  2: { rewrite (bool_decide_eq_true_2 _ Hnin). by exists s. }
  rewrite bool_decide_eq_false_2 by (by intros H; apply H).
  pose proof (proj1 (list.Forall_forall _ _) Hall _ Hin) as Hi.
  unfold inside_at in Hi. cbn [fst snd] in Hi.
  rewrite board_set_inside by done. rewrite bind_Ok.
  pose proof (board_put_wf (board_now s) row col (Stone (opponent X)) Hwf)
    as Hwf2.
  revert Hwf2.
  generalize (board_put (board_now s) row col (Stone (opponent X))).
  intros b2 Hwf2.
  set (s1 := set_game _ s).
  assert (H1 : return_origin s1 = Some (ox, oy))
    by (subst s1; by destruct s as [[]]).
  rewrite H1.
  set (s2 := set_binding _ _).
  assert (H2 : board_now s2 = b2 ∧ binding s2 = Some HandleClick).
  { subst s2 s1. unfold board_now. by destruct s as [[]]. }
  destruct H2 as (Hb2 & Hbd2).
  destruct (vsai_end_of_move_keeps s2)
    as (s' & rest & Hrun & Hb' & _ & _ & _ & Hbd').
  { rewrite Hb2. exact Hwf2. }
  exists s'. split; [exact Hrun|].
  split; [rewrite Hb', Hb2; exact Hwf2|].
  intros Hb. exfalso. rewrite Hbd2 in Hbd'.
  destruct Hbd' as [E|E]; rewrite Hb in E; discriminate E.
Qed.

Lemma vsai_ai_move_keeps (rnd_move rnd_return : nat) (s : gui) :
  wf_board (board_now s) →
  ∃ s', VsAI.ai_move rnd_move rnd_return s = Ok s' ∧
    wf_board (board_now s') ∧
    pending_return s' = pending_return s ∧
    return_origin s' = return_origin s ∧
    (binding s' = binding s ∨ binding s' = None).
Proof.
  intros Hwf. unfold VsAI.ai_move.
  destruct (get_valid_moves_ok (board_now s) O Hwf) as [-> _].
  rewrite bind_Ok.
  assert (Hmem : ∀ q, q ∈ moves_of (board_now s) O →
                      q ∈ moves_of (board_now s) O) by (intros q Hq; exact Hq).
  revert Hmem. generalize (moves_of (board_now s) O) at 1 3 4 5.
  intros moves Hmem.
  destruct (decide (moves = [])) as [->|Hne].
  - rewrite bool_decide_eq_true_2 by reflexivity.
    set (s1 := log_move LogPass s).
    assert (H1 : board_now s1 = board_now s ∧
                 pending_return s1 = pending_return s ∧
                 return_origin s1 = return_origin s ∧
                 binding s1 = binding s)
      by (subst s1; unfold board_now; by destruct s).
    destruct H1 as (Hb1 & Hpe1 & Hro1 & Hbd1).
    destruct (vsai_switch_keeps s1)
      as (s' & rest & Hrun & Hb' & Hpe' & Hro' & _ & Hbd').
    { rewrite Hb1. exact Hwf. }
    exists s'. split; [exact Hrun|].
    rewrite Hb', Hpe', Hro', Hb1, Hpe1, Hro1. rewrite Hbd1 in Hbd'.
    split; [exact Hwf|]. split; [reflexivity|]. split; [reflexivity|].
    exact Hbd'.
  - rewrite (bool_decide_eq_false_2 _ Hne).
    destruct (random_choice_ok rnd_move moves Hne) as ([row col] & Hrc & Hlk).
    rewrite Hrc, bind_Ok.
    pose proof (Hmem _ (list_elem_of_lookup_2 _ _ _ Hlk)) as Hm. clear Hmem.
    rewrite (vsai_make_move_legal (game_of s) O row col Hwf Hm), bind_Ok.
    change (board_of (game_of s)) with (board_now s).
    destruct (legal_move_facts _ _ _ _ Hwf Hm)
      as (_ & _ & HFne & _ & Hall & _).
    pose proof (applied_wf (board_now s) O row col Hwf) as Hwfa.
    clear Hm. revert HFne Hall Hwfa.
    generalize (flips_of (board_now s) O row col).
    generalize (applied (board_now s) O row col).
    intros b2 F HFne Hall Hwfa.
    set (s1 := set_game (set_board b2 (game_of s)) s).
    assert (H1 : board_now s1 = b2 ∧
                 pending_return s1 = pending_return s ∧
                 return_origin s1 = return_origin s ∧
                 binding s1 = binding s)
      by (subst s1; unfold board_now; by destruct s).
    destruct H1 as (Hb1 & Hpe1 & Hro1 & Hbd1).
    assert (Hend : ∀ s2, wf_board (board_now s2) →
              pending_return s2 = pending_return s →
              return_origin s2 = return_origin s →
              binding s2 = binding s →
              ∃ s', (over ← game_over (board_now s2);
                     if over : bool then mret (VsAI.finish_game s2)
                     else VsAI.switch_player s2) = Ok s' ∧
                wf_board (board_now s') ∧
                pending_return s' = pending_return s ∧
                return_origin s' = return_origin s ∧
                (binding s' = binding s ∨ binding s' = None)).
    { intros s2 Hwf2 Hpe2 Hro2 Hbd2.
      destruct (vsai_end_of_move_keeps s2 Hwf2)
        as (s' & rest & Hrun & Hb' & Hpe' & Hro' & _ & Hbd').
      exists s'. split; [exact Hrun|].
      rewrite Hb', Hpe', Hro', Hpe2, Hro2. rewrite Hbd2 in Hbd'.
      split; [exact Hwf2|]. split; [reflexivity|]. split; [reflexivity|].
      exact Hbd'. }
    destruct (decide (3 ≤ length F)%nat) as [H3|H3].
    + rewrite (bool_decide_eq_true_2 _ H3).
      destruct (random_choice_ok rnd_return F HFne) as (pos & Hrc2 & Hlk2).
      rewrite Hrc2, bind_Ok, Hb1.
      pose proof (proj1 (list.Forall_forall _ _) Hall pos
                    (list_elem_of_lookup_2 _ _ _ Hlk2)) as Hposi.
      rewrite board_set_inside by done. rewrite !bind_Ok.
      pose proof (board_put_wf b2 pos.1 pos.2 (Stone X) Hwfa) as Hwf3.
      revert Hwf3. generalize (board_put b2 pos.1 pos.2 (Stone X)).
      intros b3 Hwf3.
      apply Hend.
      * unfold board_now. by destruct s1 as [[]].
      * rewrite <- Hpe1. by destruct s1 as [[]].
      * rewrite <- Hro1. by destruct s1 as [[]].
      * rewrite <- Hbd1. by destruct s1 as [[]].
    + rewrite (bool_decide_eq_false_2 _ H3), !bind_Ok.
      apply Hend.
      * unfold board_now in *. rewrite <- Hb1 in Hwfa. by destruct s1 as [[]].
      * rewrite <- Hpe1. by destruct s1 as [[]].
      * rewrite <- Hro1. by destruct s1 as [[]].
      * rewrite <- Hbd1. by destruct s1 as [[]].
Qed.

Lemma vsai_inv_step (e : VsAI.event) (s : gui) :
  vsai_inv s → ∃ s', VsAI.step e s = Ok s' ∧ vsai_inv s'.
Proof.
  intros Hinv. pose proof Hinv as (Hwf & Hpend).
  destruct e as [ex ey| |id r1 r2]; cbn [VsAI.step].
  - destruct (binding s) as [[]|] eqn:Hb.
    + by apply vsai_inv_click.
    + by apply vsai_inv_return_click.
    + by exists s.
  - eexists. split; [reflexivity|].
    unfold vsai_inv, board_now in *. by destruct s.
  - case_bool_decide as Hin; [|by exists s].
    set (s0 := after_cancel id s).
    assert (H0 : board_now s0 = board_now s ∧
                 pending_return s0 = pending_return s ∧
                 return_origin s0 = return_origin s ∧
                 binding s0 = binding s)
      by (subst s0; unfold board_now; by destruct s).
    destruct H0 as (Hb0 & Hpe0 & Hro0 & Hbd0).
    destruct (vsai_ai_move_keeps r1 r2 s0)
      as (s' & Hrun & Hwf' & Hpe' & Hro' & Hbd').
    { rewrite Hb0. exact Hwf. }
    exists s'. split; [exact Hrun|]. split; [exact Hwf'|].
    intros Hb. rewrite Hpe', Hro', Hpe0, Hro0. apply Hpend.
    rewrite Hbd0 in Hbd'. destruct Hbd' as [E|E]; rewrite Hb in E;
      [by symmetry|discriminate E].
Qed.

Lemma vsai_first_gui_new : VsAI.new_gui = Ok vsai_first_gui.
Proof. by vm_compute. Qed.

Lemma vsai_inv_first : vsai_inv vsai_first_gui.
Proof. split; [exact initial_board_wf|]. intros H. discriminate H. Qed.

Lemma vsai_inv_reachable (s : gui) : vsai_reachable s → vsai_inv s.
Proof.
  induction 1 as [s Hnew|e s s' _ IH Hstep].
  - rewrite vsai_first_gui_new in Hnew. injection Hnew as <-.
    exact vsai_inv_first.
  - destruct (vsai_inv_step e s IH) as (s2 & Hrun & Hinv).
    rewrite Hrun in Hstep. by injection Hstep as <-.
Qed.

Lemma vsai_first_gui_reachable : vsai_reachable vsai_first_gui.
Proof. apply vsai_reach_new. exact vsai_first_gui_new. Qed.

(** X17. In test3.py, in every state the event loop reaches, the board
    is 8×8, and the canvas is bound to [handle_return_click] only while
    a list of flips, all on the board, is pending together with the move
    that made them. Every event (a click anywhere, the checkbox, a
    scheduled [ai_move], whatever the random source draws) is handled
    without an exception and leads to such a state again. *)
Theorem vsai_never_raises (s : gui) :
  vsai_reachable s →
  wf_board (board_now s) ∧
  (binding s = Some HandleReturnClick →
     ∃ F o, pending_return s = Some F ∧ return_origin s = Some o ∧
            Forall inside_at F) ∧
  ∀ e, ∃ s', VsAI.step e s = Ok s' ∧ vsai_reachable s'.
Proof.
  intros Hr. pose proof (vsai_inv_reachable s Hr) as Hinv.
  split; [exact (proj1 Hinv)|]. split; [exact (proj2 Hinv)|].
  intros e. destruct (vsai_inv_step e s Hinv) as (s' & Hrun & _).
  exists s'. split; [exact Hrun|]. by apply (vsai_reach_step e s s').
Qed.

Lemma vsai_never_raises_witness :
  vsai_reachable vsai_first_gui ∧
  wf_board (board_now vsai_first_gui) ∧
  ∃ s', VsAI.step (VsAI.Click 250 130) vsai_first_gui = Ok s' ∧
        vsai_reachable s'.
Proof.
  split; [exact vsai_first_gui_reachable|].
  destruct (vsai_never_raises vsai_first_gui vsai_first_gui_reachable)
    as (Hwf & _ & Hstep).
  split; [exact Hwf|]. exact (Hstep (VsAI.Click 250 130)).
Defined.
